(** * tf-dialect: the validation rule engine and the template generator

    A shallow embedding of [validator.ts] (the rule engine behind the
    [validate_snippet] tool) and of [generator.ts] (the generator behind
    [generate_resource]), with the properties stated for them.

    How the program is modelled:
    - text is a [string] of code units in the range 0..255;
    - the regular expressions written in the source are values of
      [RegExpEngine.re], run by a backtracking matcher that follows the
      order of ECMAScript's pattern semantics (leftmost start, greedy
      quantifiers, the first alternative that leads to a match);
    - patterns that come from the policy document at run time go through
      [new RegExp]; the validator takes that constructor as a parameter
      [compile], and [RegExpEngine.compile] is an instance of it for a
      fragment of the pattern syntax;
    - a call comes to an [outcome]: it returns, it throws, or its [while]
      loop is still running when the fuel is spent;
    - the array [violations] that the four checks push to is passed from
      one check to the next;
    - an object used as a map is a list of bindings in insertion order
      (keys that look like array indices, which JavaScript would move to
      the front, are not modelled), a number of the policy is an integer,
      and an argument that may be [null] or [undefined] is an [option]. *)

From Stdlib Require Import String Ascii List Bool Arith Lia ZArith.
From Stdlib Require Import DecimalString.
Import ListNotations.
Open Scope string_scope.
Open Scope nat_scope.

(** ** Strings as the source uses them *)

Module JSString.

(** [s.substring(0, n)] *)
Fixpoint take (n : nat) (s : string) : string :=
  match n, s with
  | S n', String c s' => String c (take n' s')
  | _, _ => EmptyString
  end.

(** [s.substring(n)] *)
Fixpoint drop (n : nat) (s : string) : string :=
  match n, s with
  | S n', String _ s' => drop n' s'
  | _, _ => s
  end.

(** [s.substring(i, j)] for [i <= j] *)
Definition slice (i j : nat) (s : string) : string := take (j - i) (drop i s).

(** Number of occurrences of the code unit [c] in [s]. *)
Fixpoint count_char (c : ascii) (s : string) : nat :=
  match s with
  | EmptyString => 0
  | String d s' => (if Ascii.eqb c d then 1 else 0) + count_char c s'
  end.

(** [s.split(c).length] for a one-character separator: one more part than
    there are separators. *)
Definition split_length (c : ascii) (s : string) : nat := S (count_char c s).

(** [s.startsWith(p)] *)
Definition startsWith (p s : string) : bool := String.prefix p s.

(** [xs.join(sep)] *)
Definition join (sep : string) (xs : list string) : string := String.concat sep xs.

(** Decimal rendering of a number inside a template literal. *)
Definition of_nat (n : nat) : string := NilZero.string_of_uint (Nat.to_uint n).
Definition of_Z (z : Z) : string := NilZero.string_of_int (Z.to_int z).

(** The last code unit of [s] is [c]: [s.endsWith(c)]. *)
Fixpoint ends_with_char (c : ascii) (s : string) : bool :=
  match s with
  | EmptyString => false
  | String d EmptyString => Ascii.eqb c d
  | String _ s' => ends_with_char c s'
  end.

(** [s.includes(p)] *)
Fixpoint includes (p s : string) : bool :=
  String.prefix p s ||
  match s with
  | EmptyString => false
  | String _ s' => includes p s'
  end.

End JSString.

(** ** The regular-expression engine *)

Module RegExpEngine.

(** One member of a character class. *)
Inductive ClassAtom : Type :=
| CChar (c : ascii)
| CRange (lo hi : ascii)
| CSpace | CNotSpace        (* \s \S *)
| CDigit | CNotDigit        (* \d \D *)
| CWord | CNotWord.         (* \w \W *)

(** Patterns.  A non-capturing group is its body; [RGroup n] is the
    capturing group whose left parenthesis is the [n]-th of the pattern. *)
Inductive re : Type :=
| REmpty
| RChar (c : ascii)
| RAny
| RClass (neg : bool) (items : list ClassAtom)
| RSeq (a b : re)
| RAlt (a b : re)
| RStar (a : re)
| RPlus (a : re)
| ROpt (a : re)
| RGroup (n : nat) (a : re).

(** The flags that change what a pattern matches; [g] only changes how
    [exec] uses [lastIndex] and lives in the [RegExp] object below. *)
Record flags : Type := { ignoreCase : bool; dotAll : bool }.

Definition between (lo hi n : nat) : bool := (lo <=? n) && (n <=? hi).

(** Canonicalize of the pattern semantics (case folding by upper case),
    on code units 0..255. *)
Definition canonicalize (c : ascii) : ascii :=
  let n := nat_of_ascii c in
  if between 97 122 n || (between 224 254 n && negb (n =? 247))
  then ascii_of_nat (n - 32) else c.

(** The other code unit with the same canonical form, if there is one. *)
Definition lower_variant (c : ascii) : ascii :=
  let n := nat_of_ascii c in
  if between 65 90 n || (between 192 222 n && negb (n =? 215))
  then ascii_of_nat (n + 32) else c.

Definition is_space (n : nat) : bool :=
  between 9 13 n || (n =? 32) || (n =? 160).
Definition is_digit (n : nat) : bool := between 48 57 n.
Definition is_word (n : nat) : bool :=
  between 97 122 n || between 65 90 n || is_digit n || (n =? 95).
Definition is_line_terminator (n : nat) : bool := (n =? 10) || (n =? 13).

Definition in_atom (ch : ascii) (a : ClassAtom) : bool :=
  let n := nat_of_ascii ch in
  match a with
  | CChar c => Ascii.eqb c ch
  | CRange lo hi => between (nat_of_ascii lo) (nat_of_ascii hi) n
  | CSpace => is_space n
  | CNotSpace => negb (is_space n)
  | CDigit => is_digit n
  | CNotDigit => negb (is_digit n)
  | CWord => is_word n
  | CNotWord => negb (is_word n)
  end.

(** CharacterSetMatcher: some member of the set has the canonical form of
    the input character; [neg] inverts the answer. *)
Definition class_match (fl : flags) (neg : bool) (items : list ClassAtom)
    (ch : ascii) : bool :=
  let found :=
    if ignoreCase fl
    then existsb (in_atom (canonicalize ch)) items
         || existsb (in_atom (lower_variant (canonicalize ch))) items
    else existsb (in_atom ch) items in
  xorb neg found.

Definition char_match (fl : flags) (c ch : ascii) : bool :=
  if ignoreCase fl then Ascii.eqb (canonicalize c) (canonicalize ch)
  else Ascii.eqb c ch.

Definition any_match (fl : flags) (ch : ascii) : bool :=
  dotAll fl || negb (is_line_terminator (nat_of_ascii ch)).

(** Captures: group number, start and end index, most recent first. *)
Definition captures : Type := list (nat * (nat * nat)).

Fixpoint groups (r : re) : list nat :=
  match r with
  | RSeq a b | RAlt a b => groups a ++ groups b
  | RStar a | RPlus a | ROpt a => groups a
  | RGroup n a => n :: groups a
  | _ => []
  end.

Definition clear (gs : list nat) (cs : captures) : captures :=
  filter (fun e => negb (existsb (Nat.eqb (fst e)) gs)) cs.

Definition capture (n : nat) (cs : captures) : option (nat * nat) :=
  match find (fun e => Nat.eqb (fst e) n) cs with
  | Some e => Some (snd e)
  | None => None
  end.

(** A match state is the end index reached, the input left from there and
    the captures; a continuation finishes the match from a state. *)
Definition cont : Type := nat -> string -> captures -> option (nat * captures).

(** RepeatMatcher for [min = 0], [max = infinity], greedy: try one more
    round of the atom, and reject a round that consumed nothing; when no
    round leads to a match, go on with the continuation.  [n] bounds the
    number of rounds and is never exhausted when it exceeds the length of
    the input left. *)
Definition repeat (atom : nat -> string -> captures -> cont -> option (nat * captures))
    (k : cont) : nat -> nat -> string -> captures -> option (nat * captures) :=
  fix loop (n : nat) (pos : nat) (rest : string) (cs : captures) :=
    match n with
    | 0 => k pos rest cs
    | S n' =>
        match atom pos rest cs
                (fun pos' rest' cs' =>
                   if pos' =? pos then None else loop n' pos' rest' cs') with
        | Some z => Some z
        | None => k pos rest cs
        end
    end.

Fixpoint rmatch (fl : flags) (r : re) (pos : nat) (rest : string)
    (cs : captures) (k : cont) {struct r} : option (nat * captures) :=
  match r with
  | REmpty => k pos rest cs
  | RChar c =>
      match rest with
      | String ch rest' => if char_match fl c ch then k (S pos) rest' cs else None
      | EmptyString => None
      end
  | RAny =>
      match rest with
      | String ch rest' => if any_match fl ch then k (S pos) rest' cs else None
      | EmptyString => None
      end
  | RClass neg items =>
      match rest with
      | String ch rest' =>
          if class_match fl neg items ch then k (S pos) rest' cs else None
      | EmptyString => None
      end
  | RSeq a b =>
      rmatch fl a pos rest cs (fun pos' rest' cs' => rmatch fl b pos' rest' cs' k)
  | RAlt a b =>
      match rmatch fl a pos rest cs k with
      | Some z => Some z
      | None => rmatch fl b pos rest cs k
      end
  | RStar a =>
      repeat (fun p s c k' => rmatch fl a p s (clear (groups a) c) k') k
        (S (String.length rest)) pos rest cs
  | RPlus a =>
      rmatch fl a pos rest (clear (groups a) cs)
        (fun pos' rest' cs' =>
           repeat (fun p s c k' => rmatch fl a p s (clear (groups a) c) k') k
             (S (String.length rest')) pos' rest' cs')
  | ROpt a =>
      match rmatch fl a pos rest (clear (groups a) cs)
              (fun pos' rest' cs' =>
                 if pos' =? pos then None else k pos' rest' cs') with
      | Some z => Some z
      | None => k pos rest cs
      end
  | RGroup n a =>
      rmatch fl a pos rest cs
        (fun pos' rest' cs' => k pos' rest' ((n, (pos, pos')) :: clear [n] cs'))
  end.

(** What [exec] reports: the index where the match starts, the index
    where it ends, and the captures. *)
Record MatchResult : Type :=
  { m_index : nat; m_end : nat; m_captures : captures }.

(** The matcher of a compiled pattern, as RegExpBuiltinExec runs it: the
    subject and the index to start from give the first match that starts
    there or later. *)
Definition matcher : Type := string -> nat -> option MatchResult.

(** The continuation at the end of a pattern: the match ends here. *)
Definition final : cont := fun e _ cs => Some (e, cs).

Fixpoint search_from (fl : flags) (r : re) (pos : nat) (rest : string)
    : option MatchResult :=
  match rmatch fl r pos rest [] final with
  | Some (e, cs) => Some {| m_index := pos; m_end := e; m_captures := cs |}
  | None =>
      match rest with
      | EmptyString => None
      | String _ rest' => search_from fl r (S pos) rest'
      end
  end.

Definition search (fl : flags) (r : re) : matcher :=
  fun s from =>
    if String.length s <? from then None
    else search_from fl r from (JSString.drop from s).

(** [m[n]]: the text of capture [n], when the group took part. *)
Definition group_text (s : string) (m : MatchResult) (n : nat) : option string :=
  match capture n (m_captures m) with
  | Some (i, j) => Some (JSString.slice i j s)
  | None => None
  end.

(** [m[0]] *)
Definition matched_text (s : string) (m : MatchResult) : string :=
  JSString.slice (m_index m) (m_end m) s.

(** *** Reading patterns written in the source *)

(** A sequence of terms, as an Alternative lists them. *)
Definition seq (rs : list re) : re := fold_right RSeq REmpty rs.

(** The characters of [s], one [RChar] each. *)
Fixpoint lit (s : string) : list re :=
  match s with
  | EmptyString => []
  | String c s' => RChar c :: lit s'
  end.

Definition one_of (s : string) : list ClassAtom :=
  map CChar (list_ascii_of_string s).

(** *** [new RegExp(source)] on a fragment of the pattern syntax

    The fragment: literal characters, [.], the escapes [\s \S \d \D \w \W
    \n \t \r \f \v] and escaped punctuation, classes [[...]] with ranges
    and negation, groups [(...)] and [(?:...)], alternation, and the
    greedy quantifiers [* + ?].  [parse] answers [None] where ECMAScript
    raises a SyntaxError (an unterminated group or class, a quantifier
    with nothing to repeat, an unmatched [)], a range out of order).  It
    also answers [None] on syntax outside the fragment (assertions,
    braces, lazy quantifiers, look-around, back-references, other letter
    escapes); statements that rely on [parse] use patterns of the
    fragment only. *)

Definition mem_char (c : ascii) (s : string) : bool :=
  existsb (Ascii.eqb c) (list_ascii_of_string s).

Definition is_alnum (c : ascii) : bool :=
  let n := nat_of_ascii c in
  between 97 122 n || between 65 90 n || is_digit n.

Definition p_escape (c : ascii) : option ClassAtom :=
  if Ascii.eqb c "s" then Some CSpace
  else if Ascii.eqb c "S" then Some CNotSpace
  else if Ascii.eqb c "d" then Some CDigit
  else if Ascii.eqb c "D" then Some CNotDigit
  else if Ascii.eqb c "w" then Some CWord
  else if Ascii.eqb c "W" then Some CNotWord
  else if Ascii.eqb c "n" then Some (CChar (ascii_of_nat 10))
  else if Ascii.eqb c "t" then Some (CChar (ascii_of_nat 9))
  else if Ascii.eqb c "r" then Some (CChar (ascii_of_nat 13))
  else if Ascii.eqb c "f" then Some (CChar (ascii_of_nat 12))
  else if Ascii.eqb c "v" then Some (CChar (ascii_of_nat 11))
  else if is_alnum c then None
  else Some (CChar c).

Definition atom_re (a : ClassAtom) : re :=
  match a with
  | CChar c => RChar c
  | _ => RClass false [a]
  end.

(** One class member at the head of [s], and what follows it. *)
Definition p_class_atom (s : string) : option (ClassAtom * string) :=
  match s with
  | String "\" (String c s') =>
      match p_escape c with
      | Some a => Some (a, s')
      | None => None
      end
  | String "\" EmptyString => None
  | String c s' => Some (CChar c, s')
  | EmptyString => None
  end.

(** The members of a class up to its closing bracket. *)
Fixpoint p_class (n : nat) (s : string) (acc : list ClassAtom)
    : option (list ClassAtom * string) :=
  match n with
  | 0 => None
  | S n' =>
      match s with
      | EmptyString => None
      | String "]" s' => Some (rev acc, s')
      | _ =>
          match p_class_atom s with
          | None => None
          | Some (a, s1) =>
              match s1 with
              | String "-" (String "]" _) => p_class n' s1 (a :: acc)
              | String "-" s2 =>
                  match a, p_class_atom s2 with
                  | CChar lo, Some (CChar hi, s3) =>
                      if nat_of_ascii lo <=? nat_of_ascii hi
                      then p_class n' s3 (CRange lo hi :: acc)
                      else None
                  | _, _ => None
                  end
              | _ => p_class n' s1 (a :: acc)
              end
          end
      end
  end.

(** The quantifier after an atom, if any. *)
Definition p_quantifier (a : re) (s : string) : option (re * string) :=
  match s with
  | String q s' =>
      if mem_char q "*+?" then
        match s' with
        | String "?" _ => None
        | _ =>
            Some (if Ascii.eqb q "*" then RStar a
                  else if Ascii.eqb q "+" then RPlus a else ROpt a, s')
        end
      else Some (a, s)
  | EmptyString => Some (a, s)
  end.

(** Disjunction, Alternative and Term; [g] counts the capturing groups
    opened so far. *)
Fixpoint p_disj (n : nat) (s : string) (g : nat) {struct n}
    : option (re * string * nat) :=
  match n with
  | 0 => None
  | S n' =>
      match p_alt n' s g with
      | Some (ts, String "|" s1, g1) =>
          match p_disj n' s1 g1 with
          | Some (b, s2, g2) => Some (RAlt (seq ts) b, s2, g2)
          | None => None
          end
      | Some (ts, s1, g1) => Some (seq ts, s1, g1)
      | None => None
      end
  end
with p_alt (n : nat) (s : string) (g : nat) {struct n}
    : option (list re * string * nat) :=
  match n with
  | 0 => None
  | S n' =>
      match s with
      | EmptyString => Some ([], s, g)
      | String c _ =>
          if mem_char c "|)" then Some ([], s, g)
          else
            match p_term n' s g with
            | Some (t, s1, g1) =>
                match p_alt n' s1 g1 with
                | Some (ts, s2, g2) => Some (t :: ts, s2, g2)
                | None => None
                end
            | None => None
            end
      end
  end
with p_term (n : nat) (s : string) (g : nat) {struct n}
    : option (re * string * nat) :=
  match n with
  | 0 => None
  | S n' =>
      let quantified (r : option (re * string * nat)) :=
        match r with
        | Some (a, s1, g1) =>
            match p_quantifier a s1 with
            | Some (t, s2) => Some (t, s2, g1)
            | None => None
            end
        | None => None
        end in
      match s with
      | EmptyString => None
      | String "(" (String "?" (String ":" s1)) =>
          quantified
            match p_disj n' s1 g with
            | Some (a, String ")" s2, g1) => Some (a, s2, g1)
            | _ => None
            end
      | String "(" (String "?" _) => None
      | String "(" s1 =>
          quantified
            match p_disj n' s1 (S g) with
            | Some (a, String ")" s2, g1) => Some (RGroup (S g) a, s2, g1)
            | _ => None
            end
      | String "[" (String "^" s1) =>
          quantified
            match p_class (S (String.length s1)) s1 [] with
            | Some (items, s2) => Some (RClass true items, s2, g)
            | None => None
            end
      | String "[" s1 =>
          quantified
            match p_class (S (String.length s1)) s1 [] with
            | Some (items, s2) => Some (RClass false items, s2, g)
            | None => None
            end
      | String "\" (String c s1) =>
          quantified
            match p_escape c with
            | Some a => Some (atom_re a, s1, g)
            | None => None
            end
      | String "\" EmptyString => None
      | String "." s1 => quantified (Some (RAny, s1, g))
      | String c s1 =>
          if mem_char c "*+?^${" then None
          else quantified (Some (RChar c, s1, g))
      end
  end.

Definition parse (src : string) : option re :=
  match p_disj (3 * S (String.length src)) src 0 with
  | Some (r, EmptyString, _) => Some r
  | _ => None
  end.

(** The matcher that [new RegExp(src, flags)] builds; [None] stands for
    the SyntaxError. *)
Definition compile (src : string) (fl : flags) : option matcher :=
  match parse src with
  | Some r => Some (search fl r)
  | None => None
  end.

End RegExpEngine.

(** ** Regular-expression objects and the string methods that take them *)

Module JSRegExp.
Import RegExpEngine.

(** A [RegExp] object: its matcher, its [global] flag and the mutable
    [lastIndex]. *)
Record RegExp : Type :=
  { re_matcher : matcher; re_global : bool; lastIndex : nat }.

Definition with_lastIndex (rx : RegExp) (i : nat) : RegExp :=
  {| re_matcher := re_matcher rx; re_global := re_global rx; lastIndex := i |}.

(** [rx.exec(s)] (RegExpBuiltinExec): the result and the object after the
    call.  A global object starts at [lastIndex] and leaves the end of
    the match there; without a match, or once [lastIndex] is past the end
    of [s], the answer is [null] and [lastIndex] goes back to 0. *)
Definition exec (rx : RegExp) (s : string) : option MatchResult * RegExp :=
  if re_global rx then
    if String.length s <? lastIndex rx then (None, with_lastIndex rx 0)
    else
      match re_matcher rx s (lastIndex rx) with
      | Some m => (Some m, with_lastIndex rx (m_end m))
      | None => (None, with_lastIndex rx 0)
      end
  else (re_matcher rx s 0, rx).

(** [rx.test(s)] for an object without the [g] flag. *)
Definition test (m : matcher) (s : string) : bool :=
  match m s 0 with
  | Some _ => true
  | None => false
  end.

(** The matches that [s.matchAll(rx)], [s.match(rx)] and [s.replace(rx, _)]
    walk through for a global [rx]: each search starts where the last
    match ended, one further after an empty match. *)
Fixpoint matches_from (n : nat) (m : matcher) (s : string) (from : nat)
    : list MatchResult :=
  match n with
  | 0 => []
  | S n' =>
      if String.length s <? from then []
      else
        match m s from with
        | None => []
        | Some r =>
            r :: matches_from n' m s
                   (if m_end r =? m_index r then S (m_end r) else m_end r)
        end
  end.

Definition matchAll (m : matcher) (s : string) : list MatchResult :=
  matches_from (S (S (String.length s))) m s 0.

(** GetSubstitution for a pattern without capturing groups: [$$], [$&],
    [$`] and [$'] are expanded, and [$1] .. [$99] stay as they are. *)
Fixpoint get_substitution (matched before after : string) (t : string) : string :=
  match t with
  | String "$" (String "$" t') =>
      String "$" (get_substitution matched before after t')
  | String "$" (String "&" t') =>
      matched ++ get_substitution matched before after t'
  | String "$" (String "`" t') =>
      before ++ get_substitution matched before after t'
  | String "$" (String "'" t') =>
      after ++ get_substitution matched before after t'
  | String c t' => String c (get_substitution matched before after t')
  | EmptyString => EmptyString
  end.

(** The text between the matches, each match replaced. *)
Fixpoint splice (s : string) (replacement : string) (next : nat)
    (ms : list MatchResult) : string :=
  match ms with
  | [] => JSString.drop next s
  | r :: ms' =>
      if m_index r <? next then splice s replacement next ms'
      else
        JSString.slice next (m_index r) s
        ++ get_substitution (matched_text s r) (JSString.take (m_index r) s)
             (JSString.drop (m_end r) s) replacement
        ++ splice s replacement (m_end r) ms'
  end.

(** [s.replace(rx, replacement)] for a global [rx] without capturing
    groups and a string [replacement]. *)
Definition replace (m : matcher) (replacement : string) (s : string) : string :=
  splice s replacement 0 (matchAll m s).

End JSRegExp.

(** ** The policy document ([config.ts]) *)

(** A setting of a security default: [boolean | string | number]. *)
Inductive SettingValue : Type :=
| VBool (b : bool)
| VStr (s : string)
| VNum (z : Z).

Definition Settings : Type := list (string * SettingValue).

Record NamingConfig : Type := { resource_format : option string }.

Record TaggingConfig : Type :=
  { required_tags : option (list string);
    defaults : option (list (string * string)) }.

Record ForbiddenPattern : Type := { description : string; match_ : string }.

Record ProvidersConfig : Type :=
  { forbidden_patterns : option (list ForbiddenPattern) }.

Record SecurityDefaultsConfig : Type :=
  { s3_bucket : option Settings; rds : option Settings }.

Record TerraformStyleConfig : Type :=
  { naming : option NamingConfig;
    tagging : option TaggingConfig;
    providers : option ProvidersConfig;
    security_defaults : option SecurityDefaultsConfig }.

(** [defaults[key]]: the first binding of [key]. *)
Fixpoint lookup {A : Type} (key : string) (o : list (string * A)) : option A :=
  match o with
  | [] => None
  | (k, v) :: o' => if String.eqb k key then Some v else lookup key o'
  end.

(** ToBoolean of a setting that may be missing. *)
Definition truthy (v : option SettingValue) : bool :=
  match v with
  | Some (VBool b) => b
  | Some (VStr s) => negb (String.eqb s EmptyString)
  | Some (VNum z) => negb (Z.eqb z 0)
  | None => false
  end.

(** ToString of a setting inside a template literal. *)
Definition show (v : SettingValue) : string :=
  match v with
  | VBool true => "true"
  | VBool false => "false"
  | VStr s => s
  | VNum z => JSString.of_Z z
  end.

(** ToBoolean of a string that may be missing. *)
Definition nonempty (s : option string) : bool :=
  match s with
  | Some t => negb (String.eqb t EmptyString)
  | None => false
  end.

(** The double quote and the line feed. *)
Definition dq : string := String (ascii_of_nat 34) EmptyString.
Definition nl : string := String (ascii_of_nat 10) EmptyString.
Definition quoted (s : string) : string := dq ++ s ++ dq.

(** ** What a call can come to *)

Inductive outcome (A : Type) : Type :=
| Returned (a : A)
| Threw (e : string)
| OutOfFuel.
Arguments Returned {A} a.
Arguments Threw {A} e.
Arguments OutOfFuel {A}.

Definition bind {A B : Type} (c : outcome A) (k : A -> outcome B) : outcome B :=
  match c with
  | Returned a => k a
  | Threw e => Threw e
  | OutOfFuel => OutOfFuel
  end.

Notation "x <- c ;; k" := (bind c (fun x => k))
  (at level 61, c at next level, right associativity).

(** ** The patterns written in the source *)

Module Patterns.
Import RegExpEngine.

Definition flag_none : flags := {| ignoreCase := false; dotAll := false |}.
Definition flag_i : flags := {| ignoreCase := true; dotAll := false |}.
Definition flag_s : flags := {| ignoreCase := false; dotAll := true |}.

Definition sp : re := RClass false [CSpace].
Definition quote : re := RClass false (one_of (dq ++ "'")).
Definition not_quote : re := RClass true (one_of (dq ++ "'")).

(** The tag block: [tags], blanks, [=], blanks, an opening brace, any
    characters but a closing brace (group 1), a closing brace; flag [s]. *)
Definition tagsBlock_src : string := "tags\s*=\s*\{([^}]*)\}".
Definition tagsBlock : re :=
  seq (lit "tags"
       ++ [RStar sp; RChar "="; RStar sp; RChar "{";
           RGroup 1 (seq [RStar (RClass true [CChar "}"])]); RChar "}"]).

(** The template literal given to [new RegExp] for a required tag: an
    optional quote of either kind, the tag as it is, an optional quote,
    then "\s*=". *)
Definition tagPattern_src (tag : string) : string :=
  "[" ++ dq ++ "']?" ++ tag ++ "[" ++ dq ++ "']?\s*=".

(** [resource], blanks, then the quoted word [aws_s3_bucket]; flag [i]. *)
Definition s3Marker_src : string := "resource\s+" ++ quoted "aws_s3_bucket".
Definition s3Marker : re :=
  seq (lit "resource" ++ [RPlus sp] ++ lit (quoted "aws_s3_bucket")).

(** One group of two alternatives: [resource], blanks, the quoted word
    [aws_db_instance]; or [module], blanks, a quote, anything, [rds];
    flag [i]. *)
Definition rdsMarker_src : string :=
  "(resource\s+" ++ quoted "aws_db_instance" ++ "|module\s+" ++ dq ++ ".*rds)".
Definition rdsMarker : re :=
  seq [RGroup 1
         (RAlt (seq (lit "resource" ++ [RPlus sp] ++ lit (quoted "aws_db_instance")))
               (seq (lit "module" ++ [RPlus sp] ++ lit dq ++ [RStar RAny] ++ lit "rds")))].

(** The pattern strings of the table in [validateS3Bucket]. *)
Definition blockPublicAcls_src : string := "block_public_acls\s*=\s*true".
Definition blockPublicAcls : re :=
  seq (lit "block_public_acls" ++ [RStar sp; RChar "="; RStar sp] ++ lit "true").

Definition blockPublicPolicy_src : string := "block_public_policy\s*=\s*true".
Definition blockPublicPolicy : re :=
  seq (lit "block_public_policy" ++ [RStar sp; RChar "="; RStar sp] ++ lit "true").

Definition versioning_src : string := "versioning\s*[={]".
Definition versioning : re :=
  seq (lit "versioning" ++ [RStar sp; RClass false (one_of "={")]).

(** [/encryption/i] *)
Definition encryption : re := seq (lit "encryption").

(** [/storage_encrypted\s*=\s*true/i] *)
Definition storageEncrypted_src : string := "storage_encrypted\s*=\s*true".
Definition storageEncrypted : re :=
  seq (lit "storage_encrypted" ++ [RStar sp; RChar "="; RStar sp] ++ lit "true").

(** [/backup_retention_period/i] *)
Definition backupRetention : re := seq (lit "backup_retention_period").

(** [/<[^>]+>/g] *)
Definition placeholder_src : string := "<[^>]+>".
Definition placeholder : re :=
  seq [RChar "<"; RPlus (RClass true [CChar ">"]); RChar ">"].

(** A name assignment: [name], blanks, [=], blanks, a quote of either
    kind, one or more characters that are not quotes (group 1), a quote;
    flag [g]. *)
Definition nameAssign_src : string :=
  "name\s*=\s*[" ++ dq ++ "']([^" ++ dq ++ "']+)[" ++ dq ++ "']".
Definition nameAssign : re :=
  seq (lit "name"
       ++ [RStar sp; RChar "="; RStar sp; quote;
           RGroup 1 (seq [RPlus not_quote]); quote]).

(** [/<project>/g], [/<env>/g], [/<component>/g], [/<extra\?>/g], [/--/g] *)
Definition project : re := seq (lit "<project>").
Definition env_ : re := seq (lit "<env>").
Definition component : re := seq (lit "<component>").
Definition extra_src : string := "<extra\?>".
Definition extra : re := seq (lit "<extra?>").
Definition doubleHyphen : re := seq (lit "--").

End Patterns.

(** ** The rule engine ([validator.ts]) *)

Inductive Severity : Type := Info | Warn | Error.

Record Violation : Type :=
  { ruleId : string;
    severity : Severity;
    message : string;
    line : option nat;
    suggestion : option string }.

Record ValidationResult : Type :=
  { valid : bool; violations : list Violation }.

Definition is_error (v : Violation) : bool :=
  match severity v with
  | Error => true
  | _ => false
  end.

Definition is_warn (v : Violation) : bool :=
  match severity v with
  | Warn => true
  | _ => false
  end.

Definition has_rule (id : string) (v : Violation) : bool := String.eqb (ruleId v) id.

(** [code.substring(0, index).split('\n').length] *)
Definition getLineNumber (code : string) (index : nat) : nat :=
  JSString.split_length (ascii_of_nat 10) (JSString.take index code).

(** [m[1]] of a match whose group 1 always takes part. *)
Definition group1 (s : string) (m : RegExpEngine.MatchResult) : string :=
  match RegExpEngine.group_text s m 1 with
  | Some t => t
  | None => EmptyString
  end.

(** [violations.push(v)] *)
Definition push (violations : list Violation) (v : Violation) : list Violation :=
  (violations ++ [v])%list.

Section Validator.
Import RegExpEngine JSRegExp.

(** [new RegExp(source, flags)] for a source text that is only known at
    run time: the matcher built, or [None] for a SyntaxError. *)
Variable compile : string -> flags -> option matcher.

(** [new RegExp(src, 'g')] *)
Definition RegExp_g (src : string) : option RegExp :=
  match compile src Patterns.flag_none with
  | Some m => Some {| re_matcher := m; re_global := true; lastIndex := 0 |}
  | None => None
  end.

(** [code.match] of the tag-block pattern. *)
Definition tagsBlockMatch (code : string) : option MatchResult :=
  search Patterns.flag_s Patterns.tagsBlock code 0.

(** The callback of [requiredTags.filter]: [true] keeps the tag as
    missing. *)
Definition tagMissing (tagsContent tag : string) : outcome bool :=
  match compile (Patterns.tagPattern_src tag) Patterns.flag_i with
  | Some tagPattern => Returned (negb (test tagPattern tagsContent))
  | None => Threw "SyntaxError"
  end.

Fixpoint filterMissing (tagsContent : string) (tags : list string)
    : outcome (list string) :=
  match tags with
  | [] => Returned []
  | tag :: tags' =>
      b <- tagMissing tagsContent tag ;;
      rest <- filterMissing tagsContent tags' ;;
      Returned (if b then tag :: rest else rest)
  end.

Definition requiredTagsOf (config : TerraformStyleConfig) : list string :=
  match tagging config with
  | Some t =>
      match required_tags t with
      | Some l => l
      | None => []
      end
  | None => []
  end.

Definition missingTagsBlock (requiredTags : list string) : Violation :=
  {| ruleId := "missing_tags_block";
     severity := Error;
     message := "No tags block found";
     line := None;
     suggestion :=
       Some ("Add a tags block with required tags: "
             ++ JSString.join ", " requiredTags) |}.

Definition requiredTagMissing (code : string) (index : nat)
    (missingTags : list string) : Violation :=
  {| ruleId := "required_tag_missing";
     severity := Error;
     message := "Missing required tags: " ++ JSString.join ", " missingTags;
     line := Some (getLineNumber code index);
     suggestion :=
       Some ("Add the following tags: "
             ++ JSString.join ", "
                  (map (fun t => t ++ " = " ++ quoted "...") missingTags)) |}.

Definition validateRequiredTags (code : string) (config : TerraformStyleConfig)
    (violations : list Violation) : outcome (list Violation) :=
  let requiredTags := requiredTagsOf config in
  if length requiredTags =? 0 then Returned violations
  else
    match tagsBlockMatch code with
    | None => Returned (push violations (missingTagsBlock requiredTags))
    | Some tagsBlockMatch =>
        let tagsContent := group1 code tagsBlockMatch in
        missingTags <- filterMissing tagsContent requiredTags ;;
        if 0 <? length missingTags
        then Returned (push violations
                       (requiredTagMissing code (m_index tagsBlockMatch) missingTags))
        else Returned violations
    end.

Definition forbiddenViolation (code : string) (pattern : ForbiddenPattern)
    (m : MatchResult) : Violation :=
  {| ruleId := "forbidden_pattern";
     severity := Error;
     message := description pattern;
     line := Some (getLineNumber code (m_index m));
     suggestion := Some "Remove or replace this forbidden pattern" |}.

(** [while ((match = regex.exec(code)) !== null) { violations.push(..) }];
    [fuel] bounds the number of rounds. *)
Fixpoint execLoop (fuel : nat) (regex : RegExp) (code : string)
    (pattern : ForbiddenPattern) (violations : list Violation)
    : outcome (list Violation) :=
  match fuel with
  | 0 => OutOfFuel
  | S fuel' =>
      match exec regex code with
      | (Some m, regex') =>
          execLoop fuel' regex' code pattern
            (push violations (forbiddenViolation code pattern m))
      | (None, _) => Returned violations
      end
  end.

(** The body of [for (const pattern of patterns)]: a pattern that does
    not compile is caught, logged and left out. *)
Fixpoint forEachPattern (fuel : nat) (code : string)
    (patterns : list ForbiddenPattern) (violations : list Violation)
    : outcome (list Violation) :=
  match patterns with
  | [] => Returned violations
  | pattern :: patterns' =>
      match RegExp_g (match_ pattern) with
      | Some regex =>
          vs <- execLoop fuel regex code pattern violations ;;
          forEachPattern fuel code patterns' vs
      | None => forEachPattern fuel code patterns' violations
      end
  end.

Definition forbiddenPatternsOf (config : TerraformStyleConfig)
    : list ForbiddenPattern :=
  match providers config with
  | Some p =>
      match forbidden_patterns p with
      | Some l => l
      | None => []
      end
  | None => []
  end.

Definition validateForbiddenPatterns (fuel : nat) (code : string)
    (config : TerraformStyleConfig) (violations : list Violation)
    : outcome (list Violation) :=
  forEachPattern fuel code (forbiddenPatternsOf config) violations.

(** The table [checks] of [validateS3Bucket]: key, pattern, suggestion. *)
Definition s3Checks : list (string * re * string) :=
  [ ("block_public_acls", Patterns.blockPublicAcls, "Set block_public_acls = true");
    ("block_public_policy", Patterns.blockPublicPolicy, "Set block_public_policy = true");
    ("versioning", Patterns.versioning, "Enable versioning") ].

Definition s3Violation (msg suggestion_ : string) : Violation :=
  {| ruleId := "s3_security_default";
     severity := Warn;
     message := msg;
     line := None;
     suggestion := Some suggestion_ |}.

Fixpoint s3CheckLoop (code : string) (defaults_ : Settings)
    (checks : list (string * re * string)) (violations : list Violation)
    : list Violation :=
  match checks with
  | [] => violations
  | (key, pattern, suggestion_) :: checks' =>
      s3CheckLoop code defaults_ checks'
        (if truthy (lookup key defaults_)
            && negb (test (search Patterns.flag_i pattern) code)
         then push violations
              (s3Violation ("S3 bucket should have " ++ key ++ " enabled")
                    suggestion_)
         else violations)
  end.

Definition validateS3Bucket (code : string) (defaults_ : Settings)
    (violations : list Violation) : list Violation :=
  let violations := s3CheckLoop code defaults_ s3Checks violations in
  match lookup "encryption" defaults_ with
  | Some enc =>
      if truthy (Some enc)
         && negb (test (search Patterns.flag_i Patterns.encryption) code)
      then push violations
           (s3Violation "S3 bucket should have encryption enabled"
                 ("Enable encryption (e.g., encryption = "
                  ++ quoted (show enc) ++ ")"))
      else violations
  | None => violations
  end.

Definition rdsViolation (msg suggestion_ : string) : Violation :=
  {| ruleId := "rds_security_default";
     severity := Warn;
     message := msg;
     line := None;
     suggestion := Some suggestion_ |}.

Definition validateRDS (code : string) (defaults_ : Settings)
    (violations : list Violation) : list Violation :=
  let violations :=
    if truthy (lookup "storage_encrypted" defaults_)
       && negb (test (search Patterns.flag_i Patterns.storageEncrypted) code)
    then push violations
         (rdsViolation "RDS instance should have storage_encrypted = true"
               "Set storage_encrypted = true")
    else violations in
  if truthy (lookup "backup_retention_period" defaults_)
     && negb (test (search Patterns.flag_i Patterns.backupRetention) code)
  then push violations
       (rdsViolation "RDS instance should specify backup_retention_period"
             "Set backup_retention_period = 7 (or higher)")
  else violations.

Definition validateSecurityDefaults (code : string) (config : TerraformStyleConfig)
    (violations : list Violation) : list Violation :=
  let s3 := match security_defaults config with
            | Some d => s3_bucket d
            | None => None
            end in
  let rds_ := match security_defaults config with
              | Some d => rds d
              | None => None
              end in
  let violations :=
    match s3 with
    | Some d =>
        if test (search Patterns.flag_i Patterns.s3Marker) code
        then validateS3Bucket code d violations else violations
    | None => violations
    end in
  match rds_ with
  | Some d =>
      if test (search Patterns.flag_i Patterns.rdsMarker) code
      then validateRDS code d violations else violations
  | None => violations
  end.

Definition namingViolation (code namingFormat name : string)
    (componentCount parts index : nat) : Violation :=
  {| ruleId := "naming_convention";
     severity := Info;
     message :=
       "Resource name " ++ quoted name ++ " doesn't follow format: " ++ namingFormat;
     line := Some (getLineNumber code index);
     suggestion :=
       Some ("Use format: " ++ namingFormat ++ " (expected "
             ++ JSString.of_nat componentCount ++ "+ parts, got "
             ++ JSString.of_nat parts ++ ")") |}.

Fixpoint namingLoop (code namingFormat : string) (componentCount : nat)
    (nameMatches : list MatchResult) (violations : list Violation)
    : list Violation :=
  match nameMatches with
  | [] => violations
  | m :: nameMatches' =>
      let name := group1 code m in
      namingLoop code namingFormat componentCount nameMatches'
        (if JSString.startsWith "${" name || JSString.startsWith "var." name
         then violations
         else
           let parts := JSString.split_length "-" name in
           if parts <? componentCount
           then push violations
                (namingViolation code namingFormat name componentCount parts
                      (m_index m))
           else violations)
  end.

Definition validateNamingConventions (code : string)
    (config : TerraformStyleConfig) (violations : list Violation)
    : list Violation :=
  let namingFormat := match naming config with
                      | Some n => resource_format n
                      | None => None
                      end in
  match namingFormat with
  | Some namingFormat =>
      if String.eqb namingFormat EmptyString then violations
      else
        let componentCount :=
          length (matchAll (search Patterns.flag_none Patterns.placeholder) namingFormat) in
        if componentCount <? 2 then violations
        else
          namingLoop code namingFormat componentCount
            (matchAll (search Patterns.flag_none Patterns.nameAssign) code) violations
  | None => violations
  end.

(** [validateSnippet(code, config, filePath)]; [fuel] bounds every [while]
    loop of the forbidden-pattern check. *)
Definition validateSnippet (fuel : nat) (code : string)
    (config : TerraformStyleConfig) (filePath : option string)
    : outcome ValidationResult :=
  vs1 <- validateRequiredTags code config [] ;;
  vs2 <- validateForbiddenPatterns fuel code config vs1 ;;
  let vs3 := validateSecurityDefaults code config vs2 in
  let vs4 := validateNamingConventions code config vs3 in
  Returned {| valid := length (filter is_error vs4) =? 0; violations := vs4 |}.

End Validator.

(** ** The generator ([generator.ts]) *)

Module Generator.
Import RegExpEngine JSRegExp.

Record GenerateResourceParams : Type :=
  { resourceType : string;
    env : string;
    service : string;
    purpose : option string;
    extraTags : option (list (string * string)) }.

(** The lines of a template literal. *)
Definition lines (l : list string) : string := JSString.join nl l.

(** [s.replace(/.../g, replacement)] for a pattern of the source. *)
Definition replace_g (r : re) (replacement s : string) : string :=
  replace (search Patterns.flag_none r) replacement s.

Definition buildResourceName (service env : string) (purpose : option string)
    (config : TerraformStyleConfig) : string :=
  let format := match naming config with
                | Some n => resource_format n
                | None => None
                end in
  if nonempty format then
    let format := match format with
                  | Some f => f
                  | None => EmptyString
                  end in
    replace_g Patterns.doubleHyphen "-"
      (replace_g Patterns.extra
         (if nonempty purpose
          then match purpose with
               | Some p => p
               | None => EmptyString
               end
          else EmptyString)
         (replace_g Patterns.component service
            (replace_g Patterns.env_ env
               (replace_g Patterns.project "${local.project}" format))))
  else
    match purpose with
    | Some p =>
        if nonempty purpose then service ++ "-" ++ env ++ "-" ++ p
        else service ++ "-" ++ env
    | None => service ++ "-" ++ env
    end.

(** [o[key] = value] on an object whose keys keep their insertion order. *)
Fixpoint assign (key value : string) (o : list (string * string))
    : list (string * string) :=
  match o with
  | [] => [(key, value)]
  | (k, v) :: o' =>
      if String.eqb k key then (k, value) :: o' else (k, v) :: assign key value o'
  end.

(** [{ ...a, ...b }] *)
Definition spread (a b : list (string * string)) : list (string * string) :=
  fold_left (fun o kv => assign (fst kv) (snd kv) o) b
    (fold_left (fun o kv => assign (fst kv) (snd kv) o) a []).

(** [config.tagging?.defaults || {}] *)
Definition defaultTagsOf (config : TerraformStyleConfig) : list (string * string) :=
  match tagging config with
  | Some t =>
      match defaults t with
      | Some d => d
      | None => []
      end
  | None => []
  end.

Definition buildTags (extraTags : list (string * string))
    (config : TerraformStyleConfig) : string :=
  let defaultTags := defaultTagsOf config in
  let allTags := spread defaultTags extraTags in
  if length allTags =? 0 then "  tags = local.default_tags"
  else
    let tagLines :=
      JSString.join nl
        (map (fun kv => "    " ++ fst kv ++ " = " ++ quoted (snd kv)) allTags) in
    "  tags = {" ++ nl ++ tagLines ++ nl ++ "  }".

(** [${v || d}] inside a template literal. *)
Definition show_or (v : option SettingValue) (d : string) : string :=
  match v with
  | Some x => if truthy v then show x else d
  | None => d
  end.

Definition s3SettingsOf (config : TerraformStyleConfig) : Settings :=
  match security_defaults config with
  | Some d =>
      match s3_bucket d with
      | Some x => x
      | None => []
      end
  | None => []
  end.

Definition rdsSettingsOf (config : TerraformStyleConfig) : Settings :=
  match security_defaults config with
  | Some d =>
      match rds d with
      | Some x => x
      | None => []
      end
  | None => []
  end.

Definition generateS3Bucket (name tags : string) (config : TerraformStyleConfig)
    : string :=
  let securityDefaults := s3SettingsOf config in
  let code :=
    lines [ "resource " ++ quoted "aws_s3_bucket" ++ " " ++ quoted "this" ++ " {";
            "  bucket = " ++ quoted name;
            EmptyString;
            tags;
            "}" ] in
  let code :=
    if truthy (lookup "versioning" securityDefaults) then
      code ++ nl ++ nl
      ++ lines [ "resource " ++ quoted "aws_s3_bucket_versioning" ++ " "
                 ++ quoted "this" ++ " {";
                 "  bucket = aws_s3_bucket.this.id";
                 EmptyString;
                 "  versioning_configuration {";
                 "    status = " ++ quoted "Enabled";
                 "  }";
                 "}" ]
    else code in
  let acls := lookup "block_public_acls" securityDefaults in
  let policy := lookup "block_public_policy" securityDefaults in
  let code :=
    if truthy acls || truthy policy then
      code ++ nl ++ nl
      ++ lines [ "resource " ++ quoted "aws_s3_bucket_public_access_block" ++ " "
                 ++ quoted "this" ++ " {";
                 "  bucket = aws_s3_bucket.this.id";
                 EmptyString;
                 "  block_public_acls       = " ++ show_or acls "false";
                 "  block_public_policy     = " ++ show_or policy "false";
                 "  ignore_public_acls      = " ++ show_or acls "false";
                 "  restrict_public_buckets = " ++ show_or policy "false";
                 "}" ]
    else code in
  match lookup "encryption" securityDefaults with
  | Some enc =>
      if truthy (Some enc) then
        let encType :=
          match enc with
          | VStr e => if String.eqb e "aws:kms" then "aws:kms" else "AES256"
          | _ => "AES256"
          end in
        code ++ nl ++ nl
        ++ lines [ "resource "
                   ++ quoted "aws_s3_bucket_server_side_encryption_configuration"
                   ++ " " ++ quoted "this" ++ " {";
                   "  bucket = aws_s3_bucket.this.id";
                   EmptyString;
                   "  rule {";
                   "    apply_server_side_encryption_by_default {";
                   "      sse_algorithm = " ++ quoted encType;
                   "    }";
                   "  }";
                   "}" ]
      else code
  | None => code
  end.

Definition generateRDSInstance (name tags : string) (config : TerraformStyleConfig)
    : string :=
  let securityDefaults := rdsSettingsOf config in
  lines [ "resource " ++ quoted "aws_db_instance" ++ " " ++ quoted "this" ++ " {";
          "  identifier = " ++ quoted name;
          EmptyString;
          "  engine         = " ++ quoted "postgres";
          "  engine_version = " ++ quoted "15.4";
          "  instance_class = " ++ quoted "db.t3.micro";
          "  ";
          "  allocated_storage = 20";
          "  storage_encrypted = "
          ++ show_or (lookup "storage_encrypted" securityDefaults) "false";
          EmptyString;
          "  backup_retention_period = "
          ++ show_or (lookup "backup_retention_period" securityDefaults) "7";
          "  ";
          "  # TODO: Configure username, password, vpc_security_group_ids, db_subnet_group_name";
          EmptyString;
          tags;
          "}" ].

Definition generateGenericResource (resourceType name tags : string) : string :=
  lines [ "# Generated stub for " ++ resourceType;
          "# Please customize this resource according to your needs";
          EmptyString;
          "resource " ++ quoted resourceType ++ " " ++ quoted "this" ++ " {";
          "  name = " ++ quoted name;
          EmptyString;
          "  # TODO: Add required arguments for " ++ resourceType;
          EmptyString;
          tags;
          "}" ].

Definition generateResource (params : GenerateResourceParams)
    (config : TerraformStyleConfig) : string :=
  let name := buildResourceName (service params) (env params) (purpose params) config in
  let tags := buildTags (match extraTags params with
                         | Some t => t
                         | None => []
                         end) config in
  if String.eqb (resourceType params) "aws_s3_bucket"
  then generateS3Bucket name tags config
  else if String.eqb (resourceType params) "aws_db_instance"
  then generateRDSInstance name tags config
  else generateGenericResource (resourceType params) name tags.

End Generator.

(** ** Notions used by the statements *)

Section Notions.
Import RegExpEngine JSRegExp.

(** The policy [config] with its forbidden patterns replaced. *)
Definition withForbiddenPatterns (config : TerraformStyleConfig)
    (patterns : list ForbiddenPattern) : TerraformStyleConfig :=
  {| naming := naming config;
     tagging := tagging config;
     providers := Some {| forbidden_patterns := Some patterns |};
     security_defaults := security_defaults config |}.

(** Every search of [code] that [m] answers, from an index inside [code]
    or at its end, ends its match beyond the index it started from: the
    [while] loop of the forbidden-pattern check moves on at each round. *)
Definition scanProgress (m : matcher) (code : string) : bool :=
  forallb (fun from =>
             match m code from with
             | Some r => from <? m_end r
             | None => true
             end)
          (List.seq 0 (S (String.length code))).

(** The object that [new RegExp(src, 'g')] builds, with [lastIndex] at
    [from]. *)
Definition globalRegExp (m : matcher) (from : nat) : RegExp :=
  {| re_matcher := m; re_global := true; lastIndex := from |}.

(** The scans of all the patterns that compile move on. *)
Definition allScansProgress (compile : string -> flags -> option matcher)
    (code : string) (patterns : list ForbiddenPattern) : Prop :=
  forall p m,
    In p patterns ->
    compile (match_ p) Patterns.flag_none = Some m ->
    scanProgress m code = true.

(** What ECMAScript guarantees of the match found from an index: it
    starts there or later, it does not end before it starts, and a search
    that starts where the match starts finds the same match. *)
Definition wellFormed (m : matcher) : Prop :=
  forall s from r,
    m s from = Some r ->
    from <= m_index r /\ m_index r <= m_end r /\ m s (m_index r) = Some r.

(** The violations the specification asks of one forbidden pattern: one
    for each match of a global search, in the order of the text. *)
Definition expectedForbidden (compile : string -> flags -> option matcher)
    (code : string) (pattern : ForbiddenPattern) : list Violation :=
  match compile (match_ pattern) Patterns.flag_none with
  | Some m => map (forbiddenViolation code pattern) (matchAll m code)
  | None => []
  end.

(** The continuation [k] goes through from the state at [pos], whatever
    the captures. *)
Definition accepts (k : cont) (pos : nat) (rest : string) : Prop :=
  forall cs, k pos rest cs <> None.

(** [r] followed by [k] goes through from the state at [pos]. *)
Definition matchesAt (fl : flags) (r : re) (k : cont) (pos : nat) (rest : string)
    : Prop :=
  forall cs, rmatch fl r pos rest cs k <> None.

(** What it means for an atom to hand over to its continuation at an
    index that is not before the one it started from. *)
Definition forward
    (atom : nat -> string -> captures -> cont -> option (nat * captures)) : Prop :=
  forall pos rest cs k z,
    atom pos rest cs k = Some z ->
    exists pos' rest' cs', pos <= pos' /\ k pos' rest' cs' = Some z.

(** Two continuations agree on the states that can follow the state at
    [pos]: the same input with some of its characters taken. *)
Definition agree (k k' : cont) (pos : nat) (rest : string) : Prop :=
  forall j cs,
    j <= String.length rest ->
    k (pos + j) (JSString.drop j rest) cs = k' (pos + j) (JSString.drop j rest) cs.

(** An atom that only asks its continuation about such states. *)
Definition local
    (atom : nat -> string -> captures -> cont -> option (nat * captures)) : Prop :=
  forall pos rest cs k k',
    agree k k' pos rest -> atom pos rest cs k = atom pos rest cs k'.

(** Equality of two texts up to the case of letters. *)
Fixpoint ci_equal (a b : string) : bool :=
  match a, b with
  | EmptyString, EmptyString => true
  | String c a', String d b' =>
      Ascii.eqb (canonicalize c) (canonicalize d) && ci_equal a' b'
  | _, _ => false
  end.

Fixpoint blanks (s : string) : bool :=
  match s with
  | EmptyString => true
  | String c s' => is_space (nat_of_ascii c) && blanks s'
  end.

Definition optionalQuote (q : string) : Prop :=
  q = EmptyString \/ q = dq \/ q = "'".

(** The specification's test for a required tag: somewhere in the tag
    block stands the tag name up to case, with or without a quote on
    either side, then blanks or nothing, then [=].  A key equal to the tag
    name is such a place. *)
Definition keyPresent (tag content : string) : Prop :=
  exists pre q1 key q2 ws post,
    content = pre ++ q1 ++ key ++ q2 ++ ws ++ "=" ++ post
    /\ optionalQuote q1 /\ optionalQuote q2
    /\ ci_equal key tag = true /\ blanks ws = true.

(** A tag name without any of the syntax characters of patterns. *)
Definition plainChar (c : ascii) : bool := negb (mem_char c "^$\.*+?()[]{}|").

Fixpoint plainTag (tag : string) : bool :=
  match tag with
  | EmptyString => true
  | String c tag' => plainChar c && plainTag tag'
  end.

(** The pattern that the key template of a plain tag denotes. *)
Definition tagKey (tag : string) : re :=
  seq ([ROpt Patterns.quote] ++ lit tag
       ++ [ROpt Patterns.quote; RStar Patterns.sp; RChar "="]).

(** The text after the tag in the key template. *)
Definition keySuffix : string := "[" ++ dq ++ "']?\s*=".

(** The text [s] does not start with a quantifier. *)
Definition noQuantifierAhead (s : string) : bool :=
  match s with
  | String q _ => negb (mem_char q "*+?")
  | EmptyString => true
  end.

(** The rule identifiers that the four checks can emit. *)
Definition emits (ids : list string) (sev : Severity) (vs : list Violation) : Prop :=
  Forall (fun v => In (ruleId v) ids /\ severity v = sev) vs.

End Notions.

(** ** Policies, requests and texts used as examples *)

Module Examples.
Import Generator.

(** The constructor [new RegExp] on the fragment of [RegExpEngine]. *)
Definition engine := RegExpEngine.compile.

Definition openCidr : ForbiddenPattern :=
  {| description := "Security groups must not be open to the world";
     match_ := "0\.0\.0\.0/0" |}.

Definition hardcodedSecret : ForbiddenPattern :=
  {| description := "No hardcoded secrets";
     match_ := "secret_key\s*=" |}.

Definition unterminatedGroup : ForbiddenPattern :=
  {| description := "Broken rule"; match_ := "(password" |}.

Definition anyRunOfBlanks : ForbiddenPattern :=
  {| description := "No stray blanks"; match_ := "\s*" |}.

Definition s3Defaults : Settings :=
  [ ("block_public_acls", VBool true);
    ("versioning", VBool true);
    ("encryption", VStr "aws:kms") ].

(** The S3 defaults of the round trip, default tags that cover the
    required tags, and a forbidden pattern. *)
Definition policy : TerraformStyleConfig :=
  {| naming := Some {| resource_format := Some "<project>-<env>-<component>-<extra?>" |};
     tagging := Some {| required_tags := Some ["environment"; "owner"];
                        defaults := Some [ ("environment", "prod");
                                           ("owner", "infra-team") ] |};
     providers := Some {| forbidden_patterns := Some [openCidr] |};
     security_defaults := Some {| s3_bucket := Some s3Defaults; rds := None |} |}.

(** The same policy with the default tags of the README, the first of
    which interpolates a variable. *)
Definition policyReadme : TerraformStyleConfig :=
  {| naming := naming policy;
     tagging := Some {| required_tags := Some ["environment"; "owner"];
                        defaults := Some [ ("environment", "${var.environment}");
                                           ("owner", "infra-team") ] |};
     providers := providers policy;
     security_defaults := security_defaults policy |}.

(** A policy without a naming format. *)
Definition policyNoFormat : TerraformStyleConfig :=
  {| naming := None;
     tagging := tagging policy;
     providers := providers policy;
     security_defaults := security_defaults policy |}.

Definition bucketRequest : GenerateResourceParams :=
  {| resourceType := "aws_s3_bucket";
     env := "prod";
     service := "analytics";
     purpose := Some "logs";
     extraTags := None |}.

(** A security group without tags and open to the world. *)
Definition untaggedGroup : string :=
  lines [ "resource " ++ quoted "aws_security_group" ++ " " ++ quoted "web" ++ " {";
          "  name = " ++ quoted "web";
          "  cidr_blocks = [" ++ quoted "0.0.0.0/0" ++ "]";
          "}" ].

(** A bucket whose tag block has the two required tags. *)
Definition taggedBucket : string :=
  lines [ "resource " ++ quoted "aws_s3_bucket" ++ " " ++ quoted "logs" ++ " {";
          "  bucket = " ++ quoted "acme-prod-logs";
          "  tags = {";
          "    Environment = " ++ quoted "prod";
          "    " ++ quoted "owner" ++ " = " ++ quoted "infra-team";
          "  }";
          "}" ].

(** Three forbidden patterns, the second of which does not compile. *)
Definition policyBrokenRule : TerraformStyleConfig :=
  withForbiddenPatterns policy [openCidr; unterminatedGroup; hardcodedSecret].

Definition leakyGroup : string :=
  lines [ "resource " ++ quoted "aws_security_group" ++ " " ++ quoted "web" ++ " {";
          "  cidr_blocks = [" ++ quoted "0.0.0.0/0" ++ "]";
          "  secret_key = " ++ quoted "abc";
          "  tags = { environment = " ++ quoted "prod" ++ ", owner = "
          ++ quoted "web" ++ " }";
          "}" ].

(** A policy whose only rule is a forbidden pattern that can match the
    empty string. *)
Definition policyBlanks : TerraformStyleConfig :=
  {| naming := None;
     tagging := None;
     providers := Some {| forbidden_patterns := Some [anyRunOfBlanks] |};
     security_defaults := None |}.

Definition oneLine : string := "a = 1".

(** A required tag whose name has a syntax character of patterns. *)
Definition policyPlusTag : TerraformStyleConfig :=
  {| naming := None;
     tagging := Some {| required_tags := Some ["c+d"]; defaults := None |};
     providers := None;
     security_defaults := None |}.

Definition plusTagged : string :=
  lines [ "resource " ++ quoted "aws_s3_bucket" ++ " " ++ quoted "logs" ++ " {";
          "  tags = {";
          "    " ++ quoted "c+d" ++ " = " ++ quoted "x";
          "  }";
          "}" ].

(** A required tag whose key template is not a pattern. *)
Definition policyParenTag : TerraformStyleConfig :=
  {| naming := None;
     tagging := Some {| required_tags := Some ["("]; defaults := None |};
     providers := None;
     security_defaults := None |}.

Definition indented : string := "  a = 1".

(** One required tag, and a tag block with a longer key that ends in
    its name. *)
Definition policyOwner : TerraformStyleConfig :=
  {| naming := None;
     tagging := Some {| required_tags := Some ["owner"]; defaults := None |};
     providers := None;
     security_defaults := None |}.

Definition teamOwnerBucket : string :=
  lines [ "resource " ++ quoted "aws_s3_bucket" ++ " " ++ quoted "logs" ++ " {";
          "  tags = {";
          "    team_owner = " ++ quoted "data";
          "  }";
          "}" ].

End Examples.

(** ** The example listing ([examples.ts]) *)

Module ListExamples.

(** [s.toLowerCase()] on code units 0..255. *)
Definition lowerChar (c : ascii) : ascii := RegExpEngine.lower_variant c.

Fixpoint toLowerCase (s : string) : string :=
  match s with
  | EmptyString => EmptyString
  | String c s' => String (lowerChar c) (toLowerCase s')
  end.

Record ExampleResult : Type := { name : string; code : string }.

(** [Object.entries(examples).map(([name, code]) => ({ name, code }))] *)
Definition entries (examples : list (string * string)) : list ExampleResult :=
  map (fun kv => {| name := fst kv; code := snd kv |}) examples.

(** [listExamples(config, resourceType, search)]; the policy enters through
    [config.examples] only, which is the first argument here. *)
Definition listExamples (examples : option (list (string * string)))
    (resourceType search : option string) : list ExampleResult :=
  let examples := match examples with
                  | Some e => e
                  | None => []
                  end in
  let results := entries examples in
  let results :=
    match resourceType with
    | Some rt =>
        if nonempty resourceType then
          let resourceTypeLower := toLowerCase rt in
          filter (fun ex => JSString.includes resourceTypeLower (toLowerCase (name ex)))
            results
        else results
    | None => results
    end in
  match search with
  | Some s =>
      if nonempty search then
        let searchLower := toLowerCase s in
        filter (fun ex =>
                  JSString.includes searchLower (toLowerCase (name ex))
                  || JSString.includes searchLower (toLowerCase (code ex)))
          results
      else results
  | None => results
  end.

End ListExamples.

(** ** Notions used by further statements *)

Section MoreNotions.
Import RegExpEngine JSRegExp.

(** The text [w] stands somewhere in [s]. *)
Definition contains (w s : string) : Prop :=
  exists pre post, s = pre ++ w ++ post.

(** [xs] is [ys] with some elements left out. *)
Inductive subseq {A : Type} : list A -> list A -> Prop :=
| subseq_nil : subseq [] []
| subseq_skip x xs ys : subseq xs ys -> subseq xs (x :: ys)
| subseq_keep x xs ys : subseq xs ys -> subseq (x :: xs) (x :: ys).

(** What each rule identifier comes with: its severity, and whether the
    violation has a line. *)
Definition ruleTable : list (string * (Severity * bool)) :=
  [ ("missing_tags_block", (Error, false));
    ("required_tag_missing", (Error, true));
    ("forbidden_pattern", (Error, true));
    ("s3_security_default", (Warn, false));
    ("rds_security_default", (Warn, false));
    ("naming_convention", (Info, true)) ].

Definition hasLine (v : Violation) : bool :=
  match line v with
  | Some _ => true
  | None => false
  end.

Definition conforms (v : Violation) : Prop :=
  lookup (ruleId v) ruleTable = Some (severity v, hasLine v).

(** A setting that is absent or a boolean. *)
Definition booleanOrAbsent (v : option SettingValue) : bool :=
  match v with
  | None | Some (VBool _) => true
  | _ => false
  end.

(** The key [k] is bound in [o]. *)
Definition bound {A : Type} (k : string) (o : list (string * A)) : bool :=
  existsb (String.eqb k) (map fst o).



(** The code unit [c] does not occur in [s]. *)
Fixpoint noneOf (c : ascii) (s : string) : bool :=
  match s with
  | EmptyString => true
  | String d s' => negb (Ascii.eqb c d) && noneOf c s'
  end.

(** A tag block as the specification describes it: the word [tags],
    blanks or nothing, [=], blanks or nothing, an opening brace, a body
    without a closing brace, and a closing brace. *)
Definition tagBlockAt (code pre body : string) : Prop :=
  exists ws1 ws2 post,
    code = pre ++ "tags" ++ ws1 ++ "=" ++ ws2 ++ "{" ++ body ++ "}" ++ post
    /\ blanks ws1 = true /\ blanks ws2 = true /\ noneOf "}" body = true.

(** The first code unit of [s] is [c]. *)
Definition firstIs (c : ascii) (s : string) : bool :=
  match s with
  | String d _ => Ascii.eqb c d
  | EmptyString => false
  end.

(** Nowhere in [s] do two hyphens follow each other. *)
Fixpoint noDoubleHyphen (s : string) : bool :=
  match s with
  | EmptyString => true
  | String c s' => negb (Ascii.eqb "-" c && firstIs "-" s') && noDoubleHyphen s'
  end.

(** A part of a name: not empty, free of the characters that a
    placeholder or a replacement pattern starts with, without a doubled
    hyphen and without a hyphen at either end. *)
Definition namePart (x : string) : bool :=
  negb (String.eqb x EmptyString)
  && noneOf "<" x && noneOf "$" x
  && noDoubleHyphen x
  && negb (firstIs "-" x) && negb (JSString.ends_with_char "-" x).

(** The naming format of the README. *)
Definition readmeFormat : string := "<project>-<env>-<component>-<extra?>".

(** The word [w] stands somewhere in [s], in whatever case of letters. *)
Definition mentions (w s : string) : Prop :=
  exists pre key post, s = pre ++ key ++ post /\ ci_equal key w = true.

(** The same as a test: [w] up to case at the start of [s], and
    somewhere in [s]. *)
Fixpoint ci_prefix (w s : string) : bool :=
  match w, s with
  | EmptyString, _ => true
  | String d w', String c s' =>
      Ascii.eqb (canonicalize c) (canonicalize d) && ci_prefix w' s'
  | String _ _, EmptyString => false
  end.

Fixpoint mentionsb (w s : string) : bool :=
  ci_prefix w s
  || match s with
     | EmptyString => false
     | String _ s' => mentionsb w s'
     end.

(** The text [m] departs from the word [w] at some character that both
    have. *)
Fixpoint mismatch (w m : string) : bool :=
  match w, m with
  | String d w', String c m' => if Ascii.eqb d c then mismatch w' m' else true
  | _, _ => false
  end.

(** Wherever one starts in [X], the text of [X] from there departs from
    the word [w]: [w] neither stands in [X] nor starts at its end. *)
Fixpoint noStart (w X : string) : bool :=
  match X with
  | EmptyString => true
  | String _ X' => mismatch w X && noStart w X'
  end.

(** A search for [r] goes past the part [X] of a text: no match starts
    in it, whatever follows. *)
Definition passes (r : re) (X : string) : Prop :=
  forall Y pos,
    search_from Patterns.flag_s r pos (X ++ Y)
    = search_from Patterns.flag_s r (pos + String.length X) Y.

(** A key made of decimal digits only.  An object lists such keys before
    the others and in ascending order, whenever they were written; all
    other keys it lists in the order in which they were written. *)
Definition integerLike (k : string) : bool :=
  negb (String.eqb k EmptyString)
  && forallb (fun c => is_digit (nat_of_ascii c)) (list_ascii_of_string k).












(** The indices from which the [while] loop of the forbidden-pattern
    check searches [code] with [m]: 0 at first, and then the end of each
    match found from such an index, as long as the index is inside the
    text or at its end. *)
Inductive scans (m : matcher) (code : string) : nat -> Prop :=
| scans_first : scans m code 0
| scans_next from r :
    scans m code from ->
    from <= String.length code ->
    m code from = Some r ->
    scans m code (m_end r).

(** Each search that the loops of the forbidden-pattern check make of
    [code] ends its match beyond the index it starts from.  Nothing is
    asked of a search from an index that no loop reaches. *)
Definition loopsProgress (compile : string -> flags -> option matcher)
    (code : string) (patterns : list ForbiddenPattern) : Prop :=
  forall p m,
    In p patterns ->
    compile (match_ p) Patterns.flag_none = Some m ->
    forall from r,
      scans m code from ->
      from <= String.length code ->
      m code from = Some r ->
      from < m_end r.

End MoreNotions.

(** ** Further policies and requests used as examples *)

Module MoreExamples.
Import Generator.

(** A policy with defaults for database instances only. *)
Definition policyRDS : TerraformStyleConfig :=
  {| naming := None;
     tagging := None;
     providers := None;
     security_defaults :=
       Some {| s3_bucket := None;
               rds := Some [ ("storage_encrypted", VBool true);
                             ("backup_retention_period", VNum 14) ] |} |}.

(** The same with the setting written as a word instead of a boolean. *)
Definition policyRDSWord : TerraformStyleConfig :=
  {| naming := None;
     tagging := None;
     providers := None;
     security_defaults :=
       Some {| s3_bucket := None;
               rds := Some [ ("storage_encrypted", VStr "yes") ] |} |}.

(** A bucket whose tag block has one of the two required tags. *)
Definition halfTagged : string :=
  lines [ "resource " ++ quoted "aws_s3_bucket" ++ " " ++ quoted "logs" ++ " {";
          "  tags = {";
          "    Environment = " ++ quoted "prod";
          "  }";
          "}" ].

(** A policy with one required tag and one forbidden pattern, the
    pattern that matches any run of blanks. *)
Definition policyOwnerBlanks : TerraformStyleConfig :=
  {| naming := None;
     tagging := Some {| required_tags := Some ["owner"]; defaults := None |};
     providers := Some {| forbidden_patterns := Some [Examples.anyRunOfBlanks] |};
     security_defaults := None |}.

(** A tag block where the name of the required tag [owner] stands inside
    a value, before an equals sign. *)
Definition ownerInsideValue : string :=
  lines [ "resource " ++ quoted "aws_s3_bucket" ++ " " ++ quoted "logs" ++ " {";
          "  tags = {";
          "    note = " ++ quoted "owner=nobody";
          "  }";
          "}" ].


Definition instanceRequest : GenerateResourceParams :=
  {| resourceType := "aws_db_instance";
     env := "prod";
     service := "orders";
     purpose := None;
     extraTags := None |}.

End MoreExamples.

(** * Properties *)

(** ** Strings *)

Lemma length_app (s t : string) :
  String.length (s ++ t) = String.length s + String.length t.
Proof. induction s as [| c s IH]; simpl; [reflexivity | rewrite IH; reflexivity]. Qed.

Lemma app_assoc_string (s t u : string) : (s ++ t) ++ u = s ++ (t ++ u).
Proof. induction s as [| c s IH]; simpl; [reflexivity | rewrite IH; reflexivity]. Qed.

(** ** The matcher finds a match when one of its paths does *)

Section Matching.
Import RegExpEngine JSRegExp.
Variable fl : flags.

Lemma succ_neqb (p : nat) : (S p =? p) = false.
Proof. apply Nat.eqb_neq. lia. Qed.

Lemma matchesAt_seq_nil k pos rest :
  accepts k pos rest -> matchesAt fl (seq []) k pos rest.
Proof. intros H cs. simpl. apply H. Qed.

Lemma matchesAt_seq_cons t ts k pos rest :
  matchesAt fl t (fun p s c => rmatch fl (seq ts) p s c k) pos rest ->
  matchesAt fl (seq (t :: ts)) k pos rest.
Proof. intros H cs. simpl. apply H. Qed.

Lemma matchesAt_char c ch k pos rest :
  char_match fl c ch = true ->
  accepts k (S pos) rest ->
  matchesAt fl (RChar c) k pos (String ch rest).
Proof. intros Hc Hk cs. simpl. rewrite Hc. apply Hk. Qed.

Lemma matchesAt_class neg items ch k pos rest :
  class_match fl neg items ch = true ->
  accepts k (S pos) rest ->
  matchesAt fl (RClass neg items) k pos (String ch rest).
Proof. intros Hc Hk cs. simpl. rewrite Hc. apply Hk. Qed.

(** An optional atom may be left out. *)
Lemma matchesAt_opt_skip a k pos rest :
  accepts k pos rest -> matchesAt fl (ROpt a) k pos rest.
Proof.
  intros Hk cs. simpl.
  destruct (rmatch fl a pos rest (clear (groups a) cs) _); [discriminate | apply Hk].
Qed.

(** An optional class may take one character. *)
Lemma matchesAt_opt_class neg items ch k pos rest :
  class_match fl neg items ch = true ->
  accepts k (S pos) rest ->
  matchesAt fl (ROpt (RClass neg items)) k pos (String ch rest).
Proof.
  intros Hc Hk cs. cbn [rmatch groups]. rewrite Hc, succ_neqb.
  destruct (k (S pos) rest (clear [] cs)) eqn:E; [discriminate |].
  exfalso. exact (Hk _ E).
Qed.

Lemma repeat_class neg items k ws : forall n pos rest,
  String.length ws <= n ->
  (forall c, In c (list_ascii_of_string ws) -> class_match fl neg items c = true) ->
  accepts k (pos + String.length ws) rest ->
  forall cs,
    repeat (fun p s c k' => rmatch fl (RClass neg items) p s (clear [] c) k') k
      n pos (ws ++ rest) cs <> None.
Proof.
  induction ws as [| c ws IH]; intros n pos rest Hn Hall Hk cs.
  - simpl in Hk. rewrite Nat.add_0_r in Hk.
    destruct n as [| n]; simpl; [apply Hk |].
    match goal with
    | |- match ?x with _ => _ end <> None => destruct x; [discriminate | apply Hk]
    end.
  - destruct n as [| n]; [simpl in Hn; lia |].
    cbn [repeat rmatch append]. rewrite (Hall c (or_introl eq_refl)), succ_neqb.
    match goal with
    | |- match ?x with _ => _ end <> None => destruct x eqn:E; [discriminate |]
    end.
    exfalso. revert E. apply IH.
    + simpl in Hn. lia.
    + intros d Hd. apply Hall. right. exact Hd.
    + simpl in Hk. rewrite Nat.add_succ_r in Hk. exact Hk.
Qed.

Lemma rmatch_star a pos rest cs k :
  rmatch fl (RStar a) pos rest cs k
  = repeat (fun p s c k' => rmatch fl a p s (clear (groups a) c) k') k
      (S (String.length rest)) pos rest cs.
Proof. reflexivity. Qed.

(** A starred class may take a run of its characters. *)
Lemma matchesAt_star_class neg items k ws pos rest :
  (forall c, In c (list_ascii_of_string ws) -> class_match fl neg items c = true) ->
  accepts k (pos + String.length ws) rest ->
  matchesAt fl (RStar (RClass neg items)) k pos (ws ++ rest).
Proof.
  intros Hall Hk cs. rewrite rmatch_star.
  apply (repeat_class neg items k ws); try assumption.
  rewrite length_app. lia.
Qed.

(** A search finds a match when the pattern matches further on. *)
Lemma search_from_finds r pre : forall pos rest,
  matchesAt fl r final (pos + String.length pre) rest ->
  search_from fl r pos (pre ++ rest) <> None.
Proof.
  induction pre as [| c pre IH]; intros pos rest H.
  - simpl in *. rewrite Nat.add_0_r in H.
    destruct rest; simpl;
      (destruct (rmatch fl r pos _ [] _) as [[e cs] |] eqn:E;
       [discriminate | exfalso; exact (H _ E)]).
  - simpl. destruct (rmatch fl r pos _ [] _) as [[e cs] |]; [discriminate |].
    apply IH. simpl in H. rewrite Nat.add_succ_r in H. exact H.
Qed.

Lemma test_finds r pre rest :
  matchesAt fl r final (String.length pre) rest ->
  test (search fl r) (pre ++ rest) = true.
Proof.
  intros H. unfold test, search. simpl.
  pose proof (search_from_finds r pre 0 rest H) as Hs.
  destruct (search_from fl r 0 (pre ++ rest)); [reflexivity | congruence].
Qed.

End Matching.

(** ** The key pattern of a plain tag finds the keys the specification means *)

Section TagKey.
Import RegExpEngine JSRegExp.


Lemma space_class c :
  is_space (nat_of_ascii c) = true ->
  class_match Patterns.flag_i false [CSpace] c = true.
Proof.
  destruct c as [[] [] [] [] [] [] [] []]; intros H;
    solve [reflexivity | discriminate H].
Qed.

Lemma blanks_class ws :
  blanks ws = true ->
  forall c, In c (list_ascii_of_string ws) ->
            class_match Patterns.flag_i false [CSpace] c = true.
Proof.
  induction ws as [| d ws IH]; simpl; intros H c Hin; [contradiction |].
  apply andb_prop in H. destruct H as [Hd Hws].
  destruct Hin as [<- | Hin]; [apply space_class, Hd | apply IH; assumption].
Qed.

Lemma equals_sign_matches pos post :
  matchesAt Patterns.flag_i (seq [RChar "="]) final pos ("=" ++ post).
Proof.
  apply matchesAt_seq_cons. apply matchesAt_char; [reflexivity |].
  intros cs. simpl. discriminate.
Qed.

Lemma assignment_matches pos ws post :
  blanks ws = true ->
  matchesAt Patterns.flag_i (seq [RStar Patterns.sp; RChar "="]) final pos (ws ++ "=" ++ post).
Proof.
  intros Hws. apply matchesAt_seq_cons.
  apply matchesAt_star_class; [apply blanks_class, Hws |].
  exact (equals_sign_matches _ post).
Qed.

Lemma optional_quote_matches q ts pos rest :
  optionalQuote q ->
  (forall p, matchesAt Patterns.flag_i (seq ts) final p rest) ->
  matchesAt Patterns.flag_i (seq (ROpt Patterns.quote :: ts)) final pos (q ++ rest).
Proof.
  intros Hq H. apply matchesAt_seq_cons.
  destruct Hq as [-> | [-> | ->]].
  - apply matchesAt_opt_skip. exact (H pos).
  - apply matchesAt_opt_class; [reflexivity | exact (H (S pos))].
  - apply matchesAt_opt_class; [reflexivity | exact (H (S pos))].
Qed.

Lemma literal_matches ts rest : forall key tag pos,
  ci_equal key tag = true ->
  (forall p, matchesAt Patterns.flag_i (seq ts) final p rest) ->
  matchesAt Patterns.flag_i (seq (lit tag ++ ts)) final pos (key ++ rest).
Proof.
  induction key as [| c key IH]; intros [| d tag] pos Heq H; simpl in Heq;
    try discriminate.
  - exact (H pos).
  - apply andb_prop in Heq. destruct Heq as [Hc Hrest].
    simpl. apply matchesAt_seq_cons. apply matchesAt_char.
    + unfold char_match. simpl. rewrite Ascii.eqb_sym. exact Hc.
    + exact (IH tag (S pos) Hrest H).
Qed.

(** Where the specification sees the key of a tag, the pattern [tagKey]
    of that tag finds a match. *)
Lemma tagKey_finds_key tag content :
  keyPresent tag content ->
  test (search Patterns.flag_i (tagKey tag)) content = true.
Proof.
  intros (pre & q1 & key & q2 & ws & post & -> & Hq1 & Hq2 & Hkey & Hws).
  apply test_finds. unfold tagKey.
  apply (optional_quote_matches q1 _ _ _ Hq1). intros p1.
  apply (literal_matches _ _ key tag p1 Hkey). intros p2.
  apply (optional_quote_matches q2 _ _ _ Hq2). intros p3.
  apply assignment_matches. exact Hws.
Qed.

End TagKey.

(** ** Reading the key template of a plain tag *)

Section ParsePlain.
Import RegExpEngine JSRegExp.

Lemma p_quantifier_none_ahead a s :
  noQuantifierAhead s = true -> p_quantifier a s = Some (a, s).
Proof.
  destruct s as [| q s]; [reflexivity |]. unfold noQuantifierAhead, p_quantifier.
  intros H. apply negb_true_iff in H. rewrite H. reflexivity.
Qed.

Lemma plainChar_no_quantifier c s :
  plainChar c = true -> noQuantifierAhead (String c s) = true.
Proof.
  destruct c as [[] [] [] [] [] [] [] []]; intros H;
    solve [reflexivity | discriminate H].
Qed.

Lemma plainChar_not_question c :
  plainChar c = true -> c <> "?"%char.
Proof. intros H ->. discriminate H. Qed.

Lemma plainChar_not_delimiter c :
  plainChar c = true -> mem_char c "|)" = false.
Proof.
  destruct c as [[] [] [] [] [] [] [] []]; intros H;
    solve [reflexivity | discriminate H].
Qed.

Lemma p_term_plain c n s g :
  plainChar c = true ->
  p_term (S n) (String c s) g
  = match p_quantifier (RChar c) s with
    | Some (t, s2) => Some (t, s2, g)
    | None => None
    end.
Proof.
  destruct c as [[] [] [] [] [] [] [] []]; intros H;
    solve [reflexivity | discriminate H].
Qed.

Lemma noQuantifierAhead_app tag rest :
  plainTag tag = true ->
  noQuantifierAhead rest = true ->
  noQuantifierAhead (tag ++ rest) = true.
Proof.
  destruct tag as [| c tag]; simpl; intros Ht Hr; [exact Hr |].
  apply andb_prop in Ht. destruct Ht as [Hc _].
  exact (plainChar_no_quantifier c (tag ++ rest) Hc).
Qed.

Lemma p_alt_cons n c s g :
  p_alt (S n) (String c s) g
  = if mem_char c "|)" then Some ([], String c s, g)
    else match p_term n (String c s) g with
         | Some (t, s1, g1) =>
             match p_alt n s1 g1 with
             | Some (ts, s2, g2) => Some (t :: ts, s2, g2)
             | None => None
             end
         | None => None
         end.
Proof. reflexivity. Qed.

Lemma p_alt_plain rest : forall tag n g,
  plainTag tag = true ->
  noQuantifierAhead rest = true ->
  String.length tag < n ->
  p_alt n (tag ++ rest) g
  = match p_alt (n - String.length tag) rest g with
    | Some (ts, s, g') => Some ((lit tag ++ ts)%list, s, g')
    | None => None
    end.
Proof.
  induction tag as [| c tag IH]; intros n g Ht Hr Hn.
  - simpl. rewrite Nat.sub_0_r.
    destruct (p_alt n rest g) as [[[ts s] g'] |]; reflexivity.
  - simpl in Ht. apply andb_prop in Ht. destruct Ht as [Hc Htag].
    simpl in Hn.
    destruct n as [| n]; [lia |]. destruct n as [| n]; [lia |].
    change (String.length (String c tag)) with (S (String.length tag)).
    change (S (S n) - S (String.length tag)) with (S n - String.length tag).
    change (String c tag ++ rest) with (String c (tag ++ rest)).
    rewrite p_alt_cons, (plainChar_not_delimiter c Hc).
    rewrite (p_term_plain c n (tag ++ rest) g Hc).
    rewrite (p_quantifier_none_ahead (RChar c) (tag ++ rest)
               (noQuantifierAhead_app tag rest Htag Hr)).
    rewrite (IH (S n) g Htag Hr) by lia.
    destruct (p_alt (S n - String.length tag) rest g) as [[[ts s] g'] |];
      reflexivity.
Qed.

Lemma p_alt_keySuffix n g :
  4 <= n ->
  p_alt n keySuffix g
  = Some ([ROpt Patterns.quote; RStar Patterns.sp; RChar "="], EmptyString, g).
Proof.
  intros H. do 4 (destruct n as [| n]; [lia |]). reflexivity.
Qed.

Lemma p_term_quote_class n s g :
  p_term (S n) (String "[" (dq ++ String "'" (String "]" s))) g
  = match p_quantifier Patterns.quote s with
    | Some (t, s2) => Some (t, s2, g)
    | None => None
    end.
Proof. reflexivity. Qed.

Lemma p_quantifier_question a s :
  noQuantifierAhead s = true ->
  p_quantifier a (String "?" s) = Some (ROpt a, s).
Proof.
  destruct s as [| q s]; [reflexivity |].
  destruct q as [[] [] [] [] [] [] [] []]; intros H;
    solve [reflexivity | discriminate H].
Qed.

Lemma tagPattern_src_unfold tag :
  Patterns.tagPattern_src tag
  = String "[" (dq ++ String "'" (String "]" (String "?" (tag ++ keySuffix)))).
Proof. reflexivity. Qed.

(** [new RegExp] reads the key template of a plain tag as [tagKey]. *)
Lemma parse_tagPattern tag :
  plainTag tag = true ->
  parse (Patterns.tagPattern_src tag) = Some (tagKey tag).
Proof.
  intros Ht. unfold parse.
  assert (Hlen : String.length (Patterns.tagPattern_src tag)
                 = 14 + String.length tag).
  { unfold Patterns.tagPattern_src, dq. rewrite !length_app. simpl. lia. }
  rewrite Hlen.
  replace (3 * S (14 + String.length tag))
    with (S (S (S (String.length tag + (42 + 2 * String.length tag))))) by lia.
  set (n := String.length tag + (42 + 2 * String.length tag)).
  assert (Hq : noQuantifierAhead keySuffix = true) by reflexivity.
  assert (Halt : p_alt (S (S n)) (Patterns.tagPattern_src tag) 0
                 = Some (ROpt Patterns.quote
                           :: (lit tag ++ [ROpt Patterns.quote; RStar Patterns.sp;
                                           RChar "="])%list,
                         EmptyString, 0)).
  { rewrite tagPattern_src_unfold, p_alt_cons.
    change (mem_char "[" "|)") with false. cbv iota.
    rewrite p_term_quote_class.
    rewrite (p_quantifier_question _ _ (noQuantifierAhead_app tag keySuffix Ht Hq)).
    rewrite (p_alt_plain keySuffix tag (S n) 0 Ht Hq) by (unfold n; lia).
    rewrite p_alt_keySuffix by (unfold n; lia).
    reflexivity. }
  cbn [p_disj]. rewrite Halt. reflexivity.
Qed.

End ParsePlain.

(** ** The matches of the fragment's engine are well formed *)

Section WellFormed.
Import RegExpEngine JSRegExp.
Variable fl : flags.

Lemma repeat_forward atom k :
  forward atom ->
  forall n pos rest cs z,
    repeat atom k n pos rest cs = Some z ->
    exists pos' rest' cs', pos <= pos' /\ k pos' rest' cs' = Some z.
Proof.
  intros Hatom. induction n as [| n IH]; intros pos rest cs z H; simpl in H.
  - exists pos, rest, cs. split; [lia | exact H].
  - match type of H with
    | match ?x with _ => _ end = _ => destruct x as [z' |] eqn:E
    end.
    + inversion H. subst z'.
      apply Hatom in E. destruct E as (p1 & r1 & c1 & Hle & E).
      destruct (p1 =? pos); [discriminate E |].
      apply IH in E. destruct E as (p2 & r2 & c2 & Hle2 & E).
      exists p2, r2, c2. split; [lia | exact E].
    + exists pos, rest, cs. split; [lia | exact H].
Qed.

Lemma rmatch_forward r : forward (fun pos rest cs k => rmatch fl r pos rest cs k).
Proof.
  induction r as [| c | | neg items | a IHa b IHb | a IHa b IHb
                  | a IHa | a IHa | a IHa | g a IHa];
    intros pos rest cs k z H; cbn [rmatch] in H.
  - exists pos, rest, cs. split; [lia | exact H].
  - destruct rest as [| ch rest]; [discriminate H |].
    destruct (char_match fl c ch); [| discriminate H].
    exists (S pos), rest, cs. split; [lia | exact H].
  - destruct rest as [| ch rest]; [discriminate H |].
    destruct (any_match fl ch); [| discriminate H].
    exists (S pos), rest, cs. split; [lia | exact H].
  - destruct rest as [| ch rest]; [discriminate H |].
    destruct (class_match fl neg items ch); [| discriminate H].
    exists (S pos), rest, cs. split; [lia | exact H].
  - apply IHa in H. destruct H as (p1 & r1 & c1 & Hle & H).
    apply IHb in H. destruct H as (p2 & r2 & c2 & Hle2 & H).
    exists p2, r2, c2. split; [lia | exact H].
  - destruct (rmatch fl a pos rest cs k) as [z' |] eqn:E.
    + inversion H. subst z'. exact (IHa _ _ _ _ _ E).
    + exact (IHb _ _ _ _ _ H).
  - apply (repeat_forward _ k) in H; [exact H |].
    intros p s c k' z' H'. exact (IHa _ _ _ _ _ H').
  - apply IHa in H. destruct H as (p1 & r1 & c1 & Hle & H).
    apply (repeat_forward _ k) in H.
    + destruct H as (p2 & r2 & c2 & Hle2 & H).
      exists p2, r2, c2. split; [lia | exact H].
    + intros p s c k' z' H'. exact (IHa _ _ _ _ _ H').
  - match type of H with
    | match ?x with _ => _ end = _ => destruct x as [z' |] eqn:E
    end.
    + inversion H. subst z'.
      apply IHa in E. destruct E as (p1 & r1 & c1 & Hle & E).
      destruct (p1 =? pos); [discriminate E |].
      exists p1, r1, c1. split; [lia | exact E].
    + exists pos, rest, cs. split; [lia | exact H].
  - apply IHa in H. destruct H as (p1 & r1 & c1 & Hle & H).
    eexists p1, r1, _. split; [lia | exact H].
Qed.

Lemma drop_drop i : forall j s,
  JSString.drop (i + j) s = JSString.drop j (JSString.drop i s).
Proof.
  induction i as [| i IH]; intros j s; [reflexivity |].
  destruct s as [| c s]; simpl.
  - destruct j; reflexivity.
  - apply IH.
Qed.

Lemma length_drop i : forall s,
  String.length (JSString.drop i s) = String.length s - i.
Proof.
  induction i as [| i IH]; intros s; simpl; [lia |].
  destruct s as [| c s]; simpl; [reflexivity | apply IH].
Qed.

Lemma search_from_found r : forall rest pos res,
  search_from fl r pos rest = Some res ->
  exists j,
    j <= String.length rest
    /\ m_index res = pos + j
    /\ m_index res <= m_end res
    /\ search_from fl r (pos + j) (JSString.drop j rest) = Some res.
Proof.
  induction rest as [| c rest IH]; intros pos res H.
  - simpl in H.
    destruct (rmatch fl r pos EmptyString [] final)
      as [[e cs] |] eqn:E; [| discriminate H].
    inversion H. subst res. exists 0. simpl. rewrite Nat.add_0_r.
    pose proof E as E0.
    apply rmatch_forward in E. destruct E as (p1 & r1 & c1 & Hle & E).
    inversion E. subst.
    repeat split; try lia.
    rewrite E0. reflexivity.
  - simpl in H.
    destruct (rmatch fl r pos (String c rest) [] final)
      as [[e cs] |] eqn:E.
    + inversion H. subst res. exists 0. simpl. rewrite Nat.add_0_r.
      pose proof E as E0.
      apply rmatch_forward in E. destruct E as (p1 & r1 & c1 & Hle & E).
      inversion E. subst.
      repeat split; try lia.
      rewrite E0. reflexivity.
    + apply IH in H. destruct H as (j & Hj & Hi & Hie & Hs).
      exists (S j). simpl. rewrite Nat.add_succ_r.
      repeat split; try lia. exact Hs.
Qed.

(** The matcher of every pattern of the fragment is well formed. *)
Lemma search_wellFormed r : wellFormed (search fl r).
Proof.
  intros s from res H. unfold search in H.
  destruct (Nat.ltb_spec (String.length s) from) as [Hgt | Hle];
    [discriminate H |].
  apply search_from_found in H. destruct H as (j & Hj & Hi & Hie & Hs).
  rewrite length_drop in Hj.
  repeat split; try lia.
  unfold search. rewrite Hi.
  destruct (Nat.ltb_spec (String.length s) (from + j)) as [Hgt | _]; [lia |].
  rewrite drop_drop. exact Hs.
Qed.

Lemma compile_wellFormed src m :
  RegExpEngine.compile src fl = Some m -> wellFormed m.
Proof.
  unfold RegExpEngine.compile. destruct (parse src) as [r |]; [| discriminate].
  intros H. inversion H. apply search_wellFormed.
Qed.

End WellFormed.

(** ** The patterns of the source, read by [parse] *)

(** Each pattern written in the source as a literal or as a constant
    string is the value of [Patterns] that stands for it. *)
Lemma patterns_read_as_written :
  RegExpEngine.parse Patterns.tagsBlock_src = Some Patterns.tagsBlock
  /\ RegExpEngine.parse Patterns.s3Marker_src = Some Patterns.s3Marker
  /\ RegExpEngine.parse Patterns.rdsMarker_src = Some Patterns.rdsMarker
  /\ RegExpEngine.parse Patterns.blockPublicAcls_src = Some Patterns.blockPublicAcls
  /\ RegExpEngine.parse Patterns.blockPublicPolicy_src = Some Patterns.blockPublicPolicy
  /\ RegExpEngine.parse Patterns.versioning_src = Some Patterns.versioning
  /\ RegExpEngine.parse "encryption" = Some Patterns.encryption
  /\ RegExpEngine.parse Patterns.storageEncrypted_src = Some Patterns.storageEncrypted
  /\ RegExpEngine.parse "backup_retention_period" = Some Patterns.backupRetention
  /\ RegExpEngine.parse Patterns.placeholder_src = Some Patterns.placeholder
  /\ RegExpEngine.parse Patterns.nameAssign_src = Some Patterns.nameAssign
  /\ RegExpEngine.parse "<project>" = Some Patterns.project
  /\ RegExpEngine.parse "<env>" = Some Patterns.env_
  /\ RegExpEngine.parse "<component>" = Some Patterns.component
  /\ RegExpEngine.parse Patterns.extra_src = Some Patterns.extra
  /\ RegExpEngine.parse "--" = Some Patterns.doubleHyphen.
Proof. repeat split; vm_compute; reflexivity. Qed.

(** ** The bound on the rounds of a starred atom is never reached *)

Section StarFuel.
Import RegExpEngine JSRegExp.
Variable fl : flags.

Lemma agree_here k k' pos rest cs :
  agree k k' pos rest -> k pos rest cs = k' pos rest cs.
Proof.
  intros H. specialize (H 0 cs (Nat.le_0_l _)).
  rewrite Nat.add_0_r in H. exact H.
Qed.

Lemma agree_later k k' pos rest j :
  agree k k' pos rest ->
  j <= String.length rest ->
  agree k k' (pos + j) (JSString.drop j rest).
Proof.
  intros H Hj j2 cs Hj2. rewrite length_drop in Hj2.
  rewrite <- Nat.add_assoc, <- drop_drop. apply H. lia.
Qed.

Lemma agree_next k k' pos ch rest :
  agree k k' pos (String ch rest) -> forall cs, k (S pos) rest cs = k' (S pos) rest cs.
Proof.
  intros H cs. specialize (H 1 cs). simpl in H.
  rewrite Nat.add_1_r in H. apply H. lia.
Qed.

Lemma repeat_local atom k k' :
  local atom ->
  forall n pos rest cs,
    agree k k' pos rest ->
    repeat atom k n pos rest cs = repeat atom k' n pos rest cs.
Proof.
  intros Hatom. induction n as [| n IH]; intros pos rest cs H; simpl.
  - apply agree_here, H.
  - rewrite (agree_here _ _ _ _ cs H).
    erewrite Hatom; [reflexivity |].
    intros j cs' Hj. destruct (pos + j =? pos); [reflexivity |].
    apply IH. apply agree_later; assumption.
Qed.

Lemma rmatch_local r : local (rmatch fl r).
Proof.
  induction r as [| c | | neg items | a IHa b IHb | a IHa b IHb
                  | a IHa | a IHa | a IHa | g a IHa];
    intros pos rest cs k k' H; cbn [rmatch].
  - apply agree_here, H.
  - destruct rest as [| ch rest]; [reflexivity |].
    destruct (char_match fl c ch); [apply (agree_next _ _ _ _ _ H) | reflexivity].
  - destruct rest as [| ch rest]; [reflexivity |].
    destruct (any_match fl ch); [apply (agree_next _ _ _ _ _ H) | reflexivity].
  - destruct rest as [| ch rest]; [reflexivity |].
    destruct (class_match fl neg items ch); [apply (agree_next _ _ _ _ _ H) | reflexivity].
  - apply IHa. intros j cs' Hj. apply IHb. apply agree_later; assumption.
  - rewrite (IHa _ _ _ _ _ H), (IHb _ _ _ _ _ H). reflexivity.
  - apply repeat_local; [| exact H].
    intros p s c k1 k2 H12. apply IHa, H12.
  - apply IHa. intros j cs' Hj. apply repeat_local.
    + intros p s c k1 k2 H12. apply IHa, H12.
    + apply agree_later; assumption.
  - rewrite (agree_here _ _ _ _ cs H).
    erewrite IHa; [reflexivity |].
    intros j cs' Hj. destruct (pos + j =? pos); [reflexivity |].
    apply H. exact Hj.
  - apply IHa. intros j cs' Hj. apply H. exact Hj.
Qed.

(** With more rounds allowed than the input has characters, the number
    allowed does not matter. *)
Lemma repeat_fuel atom k :
  local atom ->
  forall n m pos rest cs,
    String.length rest < n ->
    String.length rest < m ->
    repeat atom k n pos rest cs = repeat atom k m pos rest cs.
Proof.
  intros Hatom. induction n as [| n IH]; intros m pos rest cs Hn Hm; [lia |].
  destruct m as [| m]; [lia |]. simpl.
  erewrite Hatom; [reflexivity |].
  intros j cs' Hj. destruct (Nat.eqb_spec (pos + j) pos) as [| Hne]; [reflexivity |].
  apply IH; rewrite length_drop; lia.
Qed.

Lemma star_fuel_adequate a n pos rest cs k :
  String.length rest < n ->
  rmatch fl (RStar a) pos rest cs k
  = repeat (fun p s c k' => rmatch fl a p s (clear (groups a) c) k') k n pos rest cs.
Proof.
  intros Hn. rewrite rmatch_star. apply repeat_fuel; [| lia | exact Hn].
  intros p s c k1 k2 H12. apply rmatch_local, H12.
Qed.

End StarFuel.

(** ** A text without the word [tags] has no tag block *)

Section NoTagsWord.
Import RegExpEngine JSRegExp.

Lemma prefix_cons c d s t :
  String.prefix (String c s) (String d t)
  = if Ascii.eqb c d then String.prefix s t else false.
Proof.
  simpl. destruct (ascii_dec c d) as [-> | Hne].
  - rewrite Ascii.eqb_refl. reflexivity.
  - destruct (Ascii.eqb_spec c d); [contradiction | reflexivity].
Qed.

Lemma literal_needs_prefix fl word ts : forall rest pos cs k,
  ignoreCase fl = false ->
  String.prefix word rest = false ->
  rmatch fl (seq (lit word ++ ts)) pos rest cs k = None.
Proof.
  induction word as [| c word IH]; intros rest pos cs k Hfl H.
  - destruct rest; discriminate H.
  - destruct rest as [| d rest]; [reflexivity |].
    rewrite prefix_cons in H. cbn [lit app seq fold_right rmatch].
    unfold char_match. rewrite Hfl.
    destruct (Ascii.eqb c d); [| reflexivity].
    apply (IH rest (S pos) cs k Hfl H).
Qed.

Lemma search_from_needs_word fl word ts : forall rest pos,
  ignoreCase fl = false ->
  JSString.includes word rest = false ->
  search_from fl (seq (lit word ++ ts)) pos rest = None.
Proof.
  induction rest as [| d rest IH]; intros pos Hfl H.
  - change (JSString.includes word EmptyString)
      with (String.prefix word EmptyString || false) in H.
    apply orb_false_elim in H. destruct H as [H _].
    cbn [search_from].
    rewrite (literal_needs_prefix fl word ts _ _ _ _ Hfl H). reflexivity.
  - change (JSString.includes word (String d rest))
      with (String.prefix word (String d rest) || JSString.includes word rest) in H.
    apply orb_false_elim in H. destruct H as [H Hrest].
    cbn [search_from].
    rewrite (literal_needs_prefix fl word ts _ _ _ _ Hfl H).
    apply IH; assumption.
Qed.

(** The tag block starts with the word [tags]: a text that does not
    contain it has no tag block. *)
Lemma no_tags_word_no_block code :
  JSString.includes "tags" code = false -> tagsBlockMatch code = None.
Proof.
  intros H. unfold tagsBlockMatch, search. simpl.
  exact (search_from_needs_word Patterns.flag_s "tags" _ code 0 eq_refl H).
Qed.

End NoTagsWord.

(** ** The engine on small inputs *)

Section EngineExamples.
Import RegExpEngine JSRegExp.

(** [/a*ab/.exec("xaaab")]: the star gives back one [a]. *)
Example star_gives_back :
  search Patterns.flag_none (seq [RStar (RChar "a"); RChar "a"; RChar "b"]) "xaaab" 0
  = Some {| m_index := 1; m_end := 5; m_captures := [] |}.
Proof. vm_compute. reflexivity. Qed.

(** [/(a|ab)c/.exec("abc")]: the second alternative is taken when the
    first does not lead to a match. *)
Example second_alternative :
  search Patterns.flag_none
    (seq [RGroup 1 (RAlt (seq [RChar "a"]) (seq [RChar "a"; RChar "b"])); RChar "c"])
    "abc" 0
  = Some {| m_index := 0; m_end := 3; m_captures := [(1, (0, 2))] |}.
Proof. vm_compute. reflexivity. Qed.

(** The flag [i] folds the case of letters and of nothing else. *)
Example ignore_case :
  test (search Patterns.flag_i Patterns.encryption) "Server_Side_ENCRYPTION" = true
  /\ test (search Patterns.flag_none Patterns.encryption) "Server_Side_ENCRYPTION" = false
  /\ test (search Patterns.flag_i (seq (lit "a_b"))) "A-B" = false.
Proof. repeat split; vm_compute; reflexivity. Qed.

(** The tag block ends at the first closing brace. *)
Example tag_block_ends_at_first_brace :
  option_map (group1 "tags = { a = 1 } }")
    (search Patterns.flag_s Patterns.tagsBlock "tags = { a = 1 } }" 0)
  = Some " a = 1 ".
Proof. vm_compute. reflexivity. Qed.

(** ["a--b---c".replace(/--/g, "-")]: one pass, from left to right. *)
Example replace_is_one_pass :
  Generator.replace_g Patterns.doubleHyphen "-" "a--b---c" = "a-b--c".
Proof. vm_compute. reflexivity. Qed.

(** The replacement text may refer to the match. *)
Example replacement_patterns :
  Generator.replace_g Patterns.env_ "[$&]" "x-<env>-y" = "x-[<env>]-y"
  /\ Generator.replace_g Patterns.env_ "$$" "x-<env>-y" = "x-$-y"
  /\ Generator.replace_g Patterns.env_ "${e}" "x-<env>-y" = "x-${e}-y"
  /\ Generator.replace_g Patterns.env_ "$1" "x-<env>-y" = "x-$1-y".
Proof. repeat split; vm_compute; reflexivity. Qed.

(** A global search goes one index further after an empty match. *)
Example matchAll_steps_over_empty_matches :
  map (fun m => (m_index m, m_end m))
    (matchAll (search Patterns.flag_none (seq [RStar Patterns.sp])) "a = 1")
  = [(0, 0); (1, 2); (2, 2); (3, 4); (4, 4); (5, 5)].
Proof. vm_compute. reflexivity. Qed.

(** Sources that [new RegExp] rejects. *)
Example syntax_errors :
  parse "(password" = None
  /\ parse "a)" = None
  /\ parse "*a" = None
  /\ parse "a**" = None
  /\ parse "c++" = None
  /\ parse "[z-a]" = None
  /\ parse "[abc" = None.
Proof. repeat split; vm_compute; reflexivity. Qed.

End EngineExamples.

(** ** Outcomes and rule identifiers *)

Lemma bind_Returned {A B : Type} (c : outcome A) (k : A -> outcome B) (b : B) :
  bind c k = Returned b -> exists a, c = Returned a /\ k a = Returned b.
Proof.
  destruct c as [a | e | ]; simpl; intros H; try discriminate.
  exists a. split; [reflexivity | exact H].
Qed.

Lemma emits_nil ids sev : emits ids sev [].
Proof. constructor. Qed.

Lemma emits_app ids sev xs ys :
  emits ids sev xs -> emits ids sev ys -> emits ids sev (xs ++ ys).
Proof. unfold emits. intros Hx Hy. apply Forall_app. split; assumption. Qed.

Lemma emits_one ids sev v :
  In (ruleId v) ids -> severity v = sev -> emits ids sev [v].
Proof. intros Hi Hs. constructor; [split; assumption | constructor]. Qed.

Lemma emits_weaken ids ids' sev vs :
  incl ids ids' -> emits ids sev vs -> emits ids' sev vs.
Proof.
  intros Hincl H. unfold emits in *. eapply Forall_impl; [| exact H].
  intros v [Hin Hs]. split; [apply Hincl, Hin | exact Hs].
Qed.

Lemma filter_rule_emits id ids sev vs :
  emits ids sev vs -> ~ In id ids -> filter (has_rule id) vs = [].
Proof.
  intros H Hid. induction H as [| v vs [Hin _] _ IH]; simpl; [reflexivity |].
  unfold has_rule at 1. destruct (String.eqb_spec (ruleId v) id) as [E | _].
  - exfalso. apply Hid. rewrite <- E. exact Hin.
  - exact IH.
Qed.

Lemma filter_severity_emits sev vs ids (f : Violation -> bool) :
  emits ids sev vs ->
  (forall v, severity v = sev -> f v = false) ->
  filter f vs = [].
Proof.
  intros H Hf. induction H as [| v vs [_ Hs] _ IH]; simpl; [reflexivity |].
  rewrite (Hf v Hs). exact IH.
Qed.

(** ** The four checks only append, each under its own rule identifiers *)

Section Checks.
Import RegExpEngine JSRegExp.
Variable compile : string -> flags -> option matcher.

Lemma validateRequiredTags_appends code config vs vs' :
  validateRequiredTags compile code config vs = Returned vs' ->
  exists added,
    vs' = (vs ++ added)%list
    /\ emits ["missing_tags_block"; "required_tag_missing"] Error added.
Proof.
  unfold validateRequiredTags.
  destruct (length (requiredTagsOf config) =? 0).
  - intros H. inversion H. exists []. rewrite app_nil_r. split; [reflexivity | apply emits_nil].
  - destruct (tagsBlockMatch code) as [m |].
    + intros H. apply bind_Returned in H. destruct H as (missing & _ & H).
      destruct (0 <? length missing); inversion H.
      * eexists. split; [reflexivity |].
        apply emits_one; simpl; auto.
      * exists []. rewrite app_nil_r. split; [reflexivity | apply emits_nil].
    + intros H. inversion H. eexists. split; [reflexivity |].
      apply emits_one; simpl; auto.
Qed.

Lemma execLoop_appends fuel : forall regex code pattern vs vs',
  execLoop fuel regex code pattern vs = Returned vs' ->
  exists added,
    vs' = (vs ++ added)%list /\ emits ["forbidden_pattern"] Error added.
Proof.
  induction fuel as [| fuel IH]; intros regex code pattern vs vs'; simpl.
  - discriminate.
  - destruct (exec regex code) as [[m |] regex'].
    + intros H. apply IH in H. destruct H as (added & -> & Hadd).
      exists (forbiddenViolation code pattern m :: added). split.
      * unfold push. rewrite <- app_assoc. reflexivity.
      * constructor; [simpl; auto | exact Hadd].
    + intros H. inversion H. exists []. rewrite app_nil_r.
      split; [reflexivity | apply emits_nil].
Qed.

Lemma forEachPattern_appends fuel code patterns : forall vs vs',
  forEachPattern compile fuel code patterns vs = Returned vs' ->
  exists added,
    vs' = (vs ++ added)%list /\ emits ["forbidden_pattern"] Error added.
Proof.
  induction patterns as [| p ps IH]; intros vs vs'; simpl.
  - intros H. inversion H. exists []. rewrite app_nil_r.
    split; [reflexivity | apply emits_nil].
  - destruct (RegExp_g compile (match_ p)) as [regex |].
    + intros H. apply bind_Returned in H. destruct H as (vs1 & H1 & H2).
      apply execLoop_appends in H1. destruct H1 as (a1 & -> & Ha1).
      apply IH in H2. destruct H2 as (a2 & -> & Ha2).
      exists (a1 ++ a2)%list. split.
      * rewrite app_assoc. reflexivity.
      * apply emits_app; assumption.
    + apply IH.
Qed.

Lemma s3CheckLoop_appends code d checks : forall vs,
  exists added,
    s3CheckLoop code d checks vs = (vs ++ added)%list
    /\ emits ["s3_security_default"; "rds_security_default"] Warn added.
Proof.
  induction checks as [| [[key pattern] sug] checks IH]; intros vs; simpl.
  - exists []. rewrite app_nil_r. split; [reflexivity | apply emits_nil].
  - destruct (truthy (lookup key d) && negb (test (search Patterns.flag_i pattern) code)).
    + match goal with
      | |- context [s3CheckLoop _ _ _ (push vs ?v)] =>
          destruct (IH (push vs v)) as (added & -> & Hadd); exists (v :: added)
      end.
      split.
      * unfold push. rewrite <- app_assoc. reflexivity.
      * constructor; [simpl; auto | exact Hadd].
    + apply IH.
Qed.

Lemma validateS3Bucket_appends code d vs :
  exists added,
    validateS3Bucket code d vs = (vs ++ added)%list
    /\ emits ["s3_security_default"; "rds_security_default"] Warn added.
Proof.
  unfold validateS3Bucket.
  destruct (s3CheckLoop_appends code d s3Checks vs) as (a1 & -> & Ha1).
  destruct (lookup "encryption" d) as [enc |].
  - destruct (truthy (Some enc) && negb (test (search Patterns.flag_i Patterns.encryption) code)).
    + eexists. split.
      * unfold push. rewrite <- app_assoc. reflexivity.
      * apply emits_app; [exact Ha1 |]. apply emits_one; simpl; auto.
    + exists a1. split; [reflexivity | exact Ha1].
  - exists a1. split; [reflexivity | exact Ha1].
Qed.

Lemma validateRDS_appends code d vs :
  exists added,
    validateRDS code d vs = (vs ++ added)%list
    /\ emits ["s3_security_default"; "rds_security_default"] Warn added.
Proof.
  unfold validateRDS.
  destruct (truthy (lookup "storage_encrypted" d)
            && negb (test (search Patterns.flag_i Patterns.storageEncrypted) code));
    destruct (truthy (lookup "backup_retention_period" d)
              && negb (test (search Patterns.flag_i Patterns.backupRetention) code));
    unfold push.
  - eexists. split; [rewrite <- app_assoc; reflexivity |].
    apply emits_app; apply emits_one; simpl; auto.
  - eexists. split; [reflexivity |]. apply emits_one; simpl; auto.
  - eexists. split; [reflexivity |]. apply emits_one; simpl; auto.
  - exists []. rewrite app_nil_r. split; [reflexivity | apply emits_nil].
Qed.

Lemma validateSecurityDefaults_appends code config vs :
  exists added,
    validateSecurityDefaults code config vs = (vs ++ added)%list
    /\ emits ["s3_security_default"; "rds_security_default"] Warn added.
Proof.
  unfold validateSecurityDefaults.
  set (s3 := match security_defaults config with Some d => s3_bucket d | None => None end).
  set (rd := match security_defaults config with Some d => rds d | None => None end).
  assert (H1 : exists a1,
             match s3 with
             | Some d => if test (search Patterns.flag_i Patterns.s3Marker) code
                         then validateS3Bucket code d vs else vs
             | None => vs
             end = (vs ++ a1)%list
             /\ emits ["s3_security_default"; "rds_security_default"] Warn a1).
  { destruct s3 as [d |].
    - destruct (test (search Patterns.flag_i Patterns.s3Marker) code).
      + apply validateS3Bucket_appends.
      + exists []. rewrite app_nil_r. split; [reflexivity | apply emits_nil].
    - exists []. rewrite app_nil_r. split; [reflexivity | apply emits_nil]. }
  destruct H1 as (a1 & -> & Ha1).
  destruct rd as [d |].
  - destruct (test (search Patterns.flag_i Patterns.rdsMarker) code).
    + destruct (validateRDS_appends code d (vs ++ a1)%list) as (a2 & -> & Ha2).
      exists (a1 ++ a2)%list. split; [rewrite app_assoc; reflexivity |].
      apply emits_app; assumption.
    + exists a1. split; [reflexivity | exact Ha1].
  - exists a1. split; [reflexivity | exact Ha1].
Qed.

Lemma namingLoop_appends code fmt n ms : forall vs,
  exists added,
    namingLoop code fmt n ms vs = (vs ++ added)%list
    /\ emits ["naming_convention"] Info added.
Proof.
  induction ms as [| m ms IH]; intros vs; simpl.
  - exists []. rewrite app_nil_r. split; [reflexivity | apply emits_nil].
  - destruct (JSString.startsWith "${" (group1 code m)
              || JSString.startsWith "var." (group1 code m)); [apply IH |].
    destruct (JSString.split_length "-" (group1 code m) <? n); [| apply IH].
    match goal with
    | |- context [namingLoop _ _ _ _ (push vs ?v)] =>
        destruct (IH (push vs v)) as (added & -> & Hadd); exists (v :: added)
    end.
    split.
    + unfold push. rewrite <- app_assoc. reflexivity.
    + constructor; [simpl; auto | exact Hadd].
Qed.

Lemma validateNamingConventions_appends code config vs :
  exists added,
    validateNamingConventions code config vs = (vs ++ added)%list
    /\ emits ["naming_convention"] Info added.
Proof.
  unfold validateNamingConventions.
  destruct (match naming config with Some n => resource_format n | None => None end)
    as [fmt |].
  - destruct (String.eqb fmt EmptyString).
    + exists []. rewrite app_nil_r. split; [reflexivity | apply emits_nil].
    + match goal with
      | |- context [if ?c <? 2 then _ else _] => destruct (c <? 2)
      end.
      * exists []. rewrite app_nil_r. split; [reflexivity | apply emits_nil].
      * apply namingLoop_appends.
  - exists []. rewrite app_nil_r. split; [reflexivity | apply emits_nil].
Qed.

(** The result of a call that returns, check by check. *)
Lemma validateSnippet_Returned fuel code config filePath r :
  validateSnippet compile fuel code config filePath = Returned r ->
  exists tags forbidden security naming_,
    validateRequiredTags compile code config [] = Returned tags
    /\ validateForbiddenPatterns compile fuel code config tags
       = Returned (tags ++ forbidden)%list
    /\ emits ["missing_tags_block"; "required_tag_missing"] Error tags
    /\ emits ["forbidden_pattern"] Error forbidden
    /\ emits ["s3_security_default"; "rds_security_default"] Warn security
    /\ emits ["naming_convention"] Info naming_
    /\ violations r = (tags ++ forbidden ++ security ++ naming_)%list
    /\ valid r = (length (filter is_error (violations r)) =? 0).
Proof.
  unfold validateSnippet. intros H.
  apply bind_Returned in H. destruct H as (vs1 & H1 & H).
  apply bind_Returned in H. destruct H as (vs2 & H2 & H).
  pose proof (validateRequiredTags_appends _ _ _ _ H1) as (tags & -> & Ht).
  simpl in *.
  pose proof (forEachPattern_appends _ _ _ _ _ H2) as (forb & -> & Hf).
  destruct (validateSecurityDefaults_appends code config (tags ++ forb)%list)
    as (sec & Es & Hs).
  destruct (validateNamingConventions_appends code config
              ((tags ++ forb) ++ sec)%list) as (nam & En & Hn).
  rewrite Es, En in H. inversion H. subst r. simpl.
  exists tags, forb, sec, nam.
  repeat split; try assumption.
  rewrite <- !app_assoc. reflexivity.
Qed.

End Checks.

(** ** When the forbidden-pattern loops end *)

Section Loops.
Import RegExpEngine JSRegExp.
Variable compile : string -> flags -> option matcher.

Lemma forEachPattern_cons fuel code p ps vs :
  forEachPattern compile fuel code (p :: ps) vs
  = match compile (match_ p) Patterns.flag_none with
    | Some m =>
        bind (execLoop fuel (globalRegExp m 0) code p vs)
             (forEachPattern compile fuel code ps)
    | None => forEachPattern compile fuel code ps vs
    end.
Proof.
  simpl. unfold RegExp_g.
  destruct (compile (match_ p) Patterns.flag_none); reflexivity.
Qed.

Lemma scanProgress_spec m code from r :
  scanProgress m code = true ->
  from <= String.length code ->
  m code from = Some r ->
  from < m_end r.
Proof.
  unfold scanProgress. intros H Hle Hm.
  rewrite forallb_forall in H.
  specialize (H from). rewrite Hm in H.
  apply Nat.ltb_lt. apply H. apply in_seq. lia.
Qed.

(** A loop whose searches all move on ends within [length code + 2]
    rounds. *)
Lemma execLoop_returns m code pattern :
  scanProgress m code = true ->
  forall fuel from vs,
    S (S (String.length code) - from) <= fuel ->
    exists vs', execLoop fuel (globalRegExp m from) code pattern vs = Returned vs'.
Proof.
  intros Hp. induction fuel as [| fuel IH]; intros from vs Hfuel; [lia |].
  simpl. unfold exec. simpl.
  destruct (Nat.ltb_spec (String.length code) from) as [Hgt | Hle].
  - eexists. reflexivity.
  - destruct (m code from) as [r |] eqn:Hm.
    + pose proof (scanProgress_spec _ _ _ _ Hp Hle Hm) as Hadv.
      apply (IH (m_end r)). lia.
    + eexists. reflexivity.
Qed.

(** A search that finds an empty match at the very index it starts from
    keeps the loop at that index for ever. *)
Lemma execLoop_stalls m code pattern from r :
  from <= String.length code ->
  m code from = Some r ->
  m_end r = from ->
  forall fuel vs,
    execLoop fuel (globalRegExp m from) code pattern vs = OutOfFuel.
Proof.
  intros Hle Hm He. induction fuel as [| fuel IH]; intros vs; [reflexivity |].
  simpl. unfold exec. simpl.
  destruct (Nat.ltb_spec (String.length code) from) as [Hgt | _]; [lia |].
  rewrite Hm. unfold with_lastIndex. simpl. rewrite He. apply IH.
Qed.

Lemma execLoop_never_throws fuel : forall regex code pattern vs e,
  execLoop fuel regex code pattern vs <> Threw e.
Proof.
  induction fuel as [| fuel IH]; intros regex code pattern vs e; simpl.
  - discriminate.
  - destruct (exec regex code) as [[m |] regex']; [apply IH | discriminate].
Qed.

Lemma forEachPattern_never_throws fuel code patterns : forall vs e,
  forEachPattern compile fuel code patterns vs <> Threw e.
Proof.
  induction patterns as [| p ps IH]; intros vs e; simpl.
  - discriminate.
  - destruct (RegExp_g compile (match_ p)) as [regex |]; [| apply IH].
    destruct (execLoop fuel regex code p vs) as [vs1 | e1 |] eqn:E; simpl.
    + apply IH.
    + exfalso. exact (execLoop_never_throws _ _ _ _ _ _ E).
    + discriminate.
Qed.

Lemma forEachPattern_returns code patterns :
  allScansProgress compile code patterns ->
  forall vs,
    exists vs',
      forEachPattern compile (S (S (String.length code))) code patterns vs
      = Returned vs'.
Proof.
  induction patterns as [| p ps IH]; intros Hall vs.
  - eexists. reflexivity.
  - assert (Hps : allScansProgress compile code ps).
    { intros q m Hq. apply Hall. right. exact Hq. }
    rewrite forEachPattern_cons.
    destruct (compile (match_ p) Patterns.flag_none) as [m |] eqn:Hc.
    + destruct (execLoop_returns m code p (Hall p m (or_introl eq_refl) Hc)
                  (S (S (String.length code))) 0 vs) as (vs1 & E); [lia |].
      rewrite E. simpl bind. apply IH. exact Hps.
    + apply IH. exact Hps.
Qed.

(** Dropping a pattern that does not compile changes nothing. *)
Lemma forEachPattern_skips fuel code bad after :
  compile (match_ bad) Patterns.flag_none = None ->
  forall before vs,
    forEachPattern compile fuel code (before ++ bad :: after) vs
    = forEachPattern compile fuel code (before ++ after) vs.
Proof.
  intros Hbad. induction before as [| p ps IH]; intros vs; simpl.
  - unfold RegExp_g. rewrite Hbad. reflexivity.
  - destruct (RegExp_g compile (match_ p)) as [regex |]; [| apply IH].
    destruct (execLoop fuel regex code p vs) as [vs1 | e1 |]; simpl;
      [apply IH | reflexivity | reflexivity].
Qed.

End Loops.

(** ** The result of [validateSnippet] *)

Section Results.
Import RegExpEngine JSRegExp.
Variable compile : string -> flags -> option matcher.

Lemma filter_nil_iff {A : Type} (f : A -> bool) (l : list A) :
  (length (filter f l) =? 0) = true <-> forall x, In x l -> f x = false.
Proof.
  rewrite Nat.eqb_eq. induction l as [| a l IH]; simpl.
  - split; [intros _ x [] | reflexivity].
  - destruct (f a) eqn:Ea; simpl.
    + split; [discriminate |].
      intros H. specialize (H a (or_introl eq_refl)). congruence.
    + rewrite IH. split.
      * intros H x [<- | Hx]; [exact Ea | apply H, Hx].
      * intros H x Hx. apply H. right. exact Hx.
Qed.

(** C3.  Whatever the text and the policy, the result that
    [validateSnippet] returns has [valid = true] exactly when none of its
    violations has severity [Error]; violations of severity [Warn] or
    [Info] do not count. *)
Theorem validateSnippet_valid_iff_no_error fuel code config filePath r :
  validateSnippet compile fuel code config filePath = Returned r ->
  (valid r = true <-> forall v, In v (violations r) -> severity v <> Error).
Proof.
  intros H. apply validateSnippet_Returned in H.
  destruct H as (_ & _ & _ & _ & _ & _ & _ & _ & _ & _ & _ & Hv).
  rewrite Hv, filter_nil_iff. unfold is_error.
  split; intros H v Hin; specialize (H v Hin); destruct (severity v);
    congruence.
Qed.

(** C9.  The file-path hint does not interfere: two calls that differ
    only in [filePath], given or not, come to the same outcome, hence to
    the same [valid] and the same violations in the same order. *)
Theorem filePath_does_not_interfere fuel code config filePath1 filePath2 :
  validateSnippet compile fuel code config filePath1
  = validateSnippet compile fuel code config filePath2.
Proof. unfold validateSnippet. reflexivity. Qed.

(** C7.  A forbidden pattern that does not compile is skipped and nothing
    else: the call comes to the outcome it has under the policy without
    that pattern, so the patterns before and after it and the three other
    checks contribute as they would, and the forbidden-pattern check
    never throws. *)
Theorem uncompilable_pattern_is_skipped fuel code config filePath before bad after :
  forbiddenPatternsOf config = (before ++ bad :: after)%list ->
  compile (match_ bad) Patterns.flag_none = None ->
  validateSnippet compile fuel code config filePath
  = validateSnippet compile fuel code
      (withForbiddenPatterns config (before ++ after)%list) filePath
  /\ forall vs e, validateForbiddenPatterns compile fuel code config vs <> Threw e.
Proof.
  intros Hps Hbad. split.
  - unfold validateSnippet, validateForbiddenPatterns.
    rewrite Hps.
    change (forbiddenPatternsOf (withForbiddenPatterns config (before ++ after)%list))
      with (before ++ after)%list.
    change (validateRequiredTags compile code
              (withForbiddenPatterns config (before ++ after)%list) [])
      with (validateRequiredTags compile code config []).
    destruct (validateRequiredTags compile code config []) as [vs1 | e |]; simpl;
      try reflexivity.
    rewrite (forEachPattern_skips compile fuel code bad after Hbad).
    reflexivity.
  - intros vs e. apply forEachPattern_never_throws.
Qed.

(** When the policy declares a required tag and the text has no tag
    block, the required-tag check returns the single violation
    [missing_tags_block], of severity [Error] and without a line; no call
    of [validateSnippet] throws; every result it returns has that one
    violation under this rule identifier and [valid = false]; and it does
    return, within [length code + 2] rounds of each loop, whenever the
    scans of the forbidden patterns move on. *)
Theorem missing_tags_block_reported code config :
  requiredTagsOf config <> [] ->
  tagsBlockMatch code = None ->
  let v := missingTagsBlock (requiredTagsOf config) in
  validateRequiredTags compile code config [] = Returned [v]
  /\ ruleId v = "missing_tags_block" /\ severity v = Error /\ line v = None
  /\ (forall fuel filePath e,
        validateSnippet compile fuel code config filePath <> Threw e)
  /\ (forall fuel filePath r,
        validateSnippet compile fuel code config filePath = Returned r ->
        filter (has_rule "missing_tags_block") (violations r) = [v]
        /\ valid r = false)
  /\ (forall filePath,
        allScansProgress compile code (forbiddenPatternsOf config) ->
        exists r,
          validateSnippet compile (S (S (String.length code))) code config filePath
          = Returned r).
Proof.
  intros Hreq Hnone v.
  assert (Htags : validateRequiredTags compile code config [] = Returned [v]).
  { unfold validateRequiredTags. rewrite Hnone.
    destruct (requiredTagsOf config) as [| t ts]; [congruence | reflexivity]. }
  split; [exact Htags |].
  split; [reflexivity |]. split; [reflexivity |]. split; [reflexivity |].
  split; [| split].
  - intros fuel filePath e. unfold validateSnippet. rewrite Htags. simpl.
    unfold validateForbiddenPatterns.
    destruct (forEachPattern compile fuel code (forbiddenPatternsOf config) [v])
      as [vs | e' |] eqn:E; simpl; try discriminate.
    exfalso. exact (forEachPattern_never_throws _ _ _ _ _ _ E).
  - intros fuel filePath r H.
    apply validateSnippet_Returned in H.
    destruct H as (tags & forb & sec & nam & Ht & _ & _ & Hf & Hs & Hn & Hv & Hvalid).
    rewrite Htags in Ht. inversion Ht. subst tags.
    split.
    + rewrite Hv. rewrite !filter_app.
      rewrite (filter_rule_emits _ _ _ _ Hf), (filter_rule_emits _ _ _ _ Hs),
        (filter_rule_emits _ _ _ _ Hn).
      * reflexivity.
      * simpl. intros [E | []]. discriminate.
      * simpl. intros [E | [E | []]]; discriminate.
      * simpl. intros [E | []]. discriminate.
    + rewrite Hvalid, Hv. reflexivity.
  - intros filePath Hall. unfold validateSnippet. rewrite Htags. simpl.
    unfold validateForbiddenPatterns.
    destruct (forEachPattern_returns compile code _ Hall [v]) as (vs & E).
    rewrite E. simpl. eexists. reflexivity.
Qed.

End Results.

(** ** Required tags whose names are plain *)

Section PlainTags.
Import RegExpEngine JSRegExp.
Variable compile : string -> flags -> option matcher.

(** On the key template of a plain tag, [new RegExp] builds what the
    fragment of [RegExpEngine] reads there. *)
Hypothesis compile_key :
  forall tag,
    plainTag tag = true ->
    compile (Patterns.tagPattern_src tag) Patterns.flag_i
    = RegExpEngine.compile (Patterns.tagPattern_src tag) Patterns.flag_i.

Lemma tagMissing_plain content tag :
  plainTag tag = true ->
  keyPresent tag content ->
  tagMissing compile content tag = Returned false.
Proof.
  intros Hp Hk. unfold tagMissing.
  rewrite (compile_key tag Hp). unfold RegExpEngine.compile.
  rewrite (parse_tagPattern tag Hp).
  rewrite (tagKey_finds_key tag content Hk). reflexivity.
Qed.

Lemma filterMissing_plain content tags :
  Forall (fun tag => plainTag tag = true) tags ->
  (forall tag, In tag tags -> keyPresent tag content) ->
  filterMissing compile content tags = Returned [].
Proof.
  induction tags as [| tag tags IH]; intros Hp Hk; [reflexivity |].
  inversion Hp as [| ? ? Hp1 Hp2]. subst.
  simpl. rewrite (tagMissing_plain content tag Hp1 (Hk tag (or_introl eq_refl))).
  simpl. rewrite IH; [reflexivity | exact Hp2 |].
  intros t Ht. apply Hk. right. exact Ht.
Qed.

(** Where the names of the required tags hold none of the syntax
    characters of patterns, the check does what the specification says:
    when the first tag block of the text has, for each required tag, a
    key equal to the tag name up to case, quoted or not, followed by
    blanks or nothing and [=], the required-tag check returns without a
    violation, and no result of [validateSnippet] has a violation
    [required_tag_missing]. *)
Lemma plain_required_tags_found code config block :
  Forall (fun tag => plainTag tag = true) (requiredTagsOf config) ->
  tagsBlockMatch code = Some block ->
  (forall tag, In tag (requiredTagsOf config) ->
               keyPresent tag (group1 code block)) ->
  validateRequiredTags compile code config [] = Returned []
  /\ forall fuel filePath r,
       validateSnippet compile fuel code config filePath = Returned r ->
       filter (has_rule "required_tag_missing") (violations r) = [].
Proof.
  intros Hplain Hblock Hkeys.
  assert (Htags : validateRequiredTags compile code config [] = Returned []).
  { unfold validateRequiredTags. rewrite Hblock.
    rewrite (filterMissing_plain _ _ Hplain Hkeys). simpl.
    destruct (length (requiredTagsOf config) =? 0); reflexivity. }
  split; [exact Htags |].
  intros fuel filePath r H.
  apply validateSnippet_Returned in H.
  destruct H as (tags & forb & sec & nam & Ht & _ & _ & Hf & Hs & Hn & Hv & _).
  rewrite Htags in Ht. inversion Ht. subst tags.
  rewrite Hv. simpl. rewrite !filter_app.
  rewrite (filter_rule_emits _ _ _ _ Hf), (filter_rule_emits _ _ _ _ Hs),
    (filter_rule_emits _ _ _ _ Hn).
  - reflexivity.
  - simpl. intros [E | []]. discriminate.
  - simpl. intros [E | [E | []]]; discriminate.
  - simpl. intros [E | []]. discriminate.
Qed.

End PlainTags.

(** ** The violations of the forbidden-pattern check, when it returns *)

Section ForbiddenMatches.
Import RegExpEngine JSRegExp.
Variable compile : string -> flags -> option matcher.

(** The matchers that [new RegExp] builds are well formed. *)
Hypothesis built_wellFormed :
  forall src fl m, compile src fl = Some m -> wellFormed m.

Lemma matches_from_past n m code from :
  String.length code < from -> matches_from n m code from = [].
Proof.
  intros H. destruct n as [| n]; [reflexivity |]. simpl.
  destruct (Nat.ltb_spec (String.length code) from); [reflexivity | lia].
Qed.

(** A loop that returns has pushed one violation for each match of the
    global search, in their order. *)
Lemma execLoop_matches m code pattern :
  wellFormed m ->
  forall fuel from vs vs' n,
    S (S (String.length code) - from) <= n ->
    execLoop fuel (globalRegExp m from) code pattern vs = Returned vs' ->
    vs' = (vs ++ map (forbiddenViolation code pattern)
                   (matches_from n m code from))%list.
Proof.
  intros Hwf. induction fuel as [| fuel IH]; intros from vs vs' n Hn H;
    [discriminate H |].
  destruct n as [| n]; [lia |].
  simpl in H. unfold exec in H. simpl in H. simpl matches_from.
  destruct (Nat.ltb_spec (String.length code) from) as [Hgt | Hle].
  - inversion H. rewrite app_nil_r. reflexivity.
  - destruct (m code from) as [r |] eqn:Hm.
    + destruct (Hwf code from r Hm) as (Hfrom & Hie & Hagain).
      change (with_lastIndex (globalRegExp m from) (m_end r))
        with (globalRegExp m (m_end r)) in H.
      destruct (Nat.eqb_spec (m_end r) (m_index r)) as [Hempty | Hne].
      * destruct (Nat.le_gt_cases (m_end r) (String.length code)) as [Hin | Hout].
        -- exfalso.
           rewrite (execLoop_stalls m code pattern (m_end r) r Hin) in H;
             [discriminate H | rewrite Hempty; exact Hagain | reflexivity].
        -- destruct fuel as [| fuel]; [discriminate H |].
           simpl in H. unfold exec in H. simpl in H.
           destruct (Nat.ltb_spec (String.length code) (m_end r)); [| lia].
           inversion H. rewrite matches_from_past by lia. reflexivity.
      * rewrite (IH (m_end r) _ vs' n ltac:(lia) H).
        unfold push. rewrite <- app_assoc. reflexivity.
    + inversion H. rewrite app_nil_r. reflexivity.
Qed.

Lemma forEachPattern_matches fuel code patterns : forall vs vs',
  forEachPattern compile fuel code patterns vs = Returned vs' ->
  vs' = (vs ++ flat_map (expectedForbidden compile code) patterns)%list.
Proof.
  induction patterns as [| p ps IH]; intros vs vs' H.
  - inversion H. rewrite app_nil_r. reflexivity.
  - rewrite forEachPattern_cons in H. simpl flat_map.
    unfold expectedForbidden at 1.
    destruct (compile (match_ p) Patterns.flag_none) as [m |] eqn:Hc.
    + apply bind_Returned in H. destruct H as (vs1 & H1 & H2).
      apply (execLoop_matches m code p (built_wellFormed _ _ _ Hc)
               fuel 0 vs vs1 (S (S (String.length code)))) in H1; [| lia].
      rewrite (IH _ _ H2), H1. unfold matchAll.
      rewrite <- app_assoc. reflexivity.
    + exact (IH _ _ H).
Qed.

Lemma filter_rule_all id vs sev :
  emits [id] sev vs -> filter (has_rule id) vs = vs.
Proof.
  intros H. induction H as [| v vs [Hin _] _ IH]; simpl; [reflexivity |].
  destruct Hin as [E | []]. unfold has_rule at 1. rewrite <- E, String.eqb_refl.
  rewrite IH. reflexivity.
Qed.

(** The forbidden-pattern violations of a result are those the
    specification asks for: the patterns in the order of the policy, the
    matches of each in the order of the text, each with the description
    of its pattern and the line where the match starts. *)
Lemma forbidden_violations_are_the_matches fuel code config filePath r :
  validateSnippet compile fuel code config filePath = Returned r ->
  filter (has_rule "forbidden_pattern") (violations r)
  = flat_map (expectedForbidden compile code) (forbiddenPatternsOf config).
Proof.
  intros H. apply validateSnippet_Returned in H.
  destruct H as (tags & forb & sec & nam & _ & Hforb & Ht & Hf & Hs & Hn & Hv & _).
  apply forEachPattern_matches in Hforb. apply app_inv_head in Hforb.
  rewrite Hv, !filter_app.
  rewrite (filter_rule_emits _ _ _ _ Ht), (filter_rule_emits _ _ _ _ Hs),
    (filter_rule_emits _ _ _ _ Hn), (filter_rule_all _ _ _ Hf).
  - rewrite app_nil_r. exact Hforb.
  - simpl. intros [E | []]. discriminate.
  - simpl. intros [E | [E | []]]; discriminate.
  - simpl. intros [E | [E | []]]; discriminate.
Qed.

End ForbiddenMatches.

(** ** The claims at concrete policies and texts *)

Section Concrete.
Import RegExpEngine JSRegExp Generator Examples.

(** C1.  The round trip fails on the code.  Under the S3 defaults
    [block_public_acls: true, versioning: true, encryption: "aws:kms"],
    with default tags that cover the required tags and a forbidden
    pattern that matches nothing, the text that [generateResource] writes
    for [aws_s3_bucket] does not meet the versioning pattern of
    [validateS3Bucket], and [validateSnippet] returns one violation of
    severity [Warn] for it. *)
Theorem generated_bucket_draws_versioning_warning :
  let code := generateResource bucketRequest policy in
  let r := {| valid := true;
              violations := [s3Violation "S3 bucket should have versioning enabled"
                               "Enable versioning"] |} in
  (forall fuel, validateSnippet engine (S fuel) code policy None = Returned r)
  /\ length (filter is_warn (violations r)) = 1
  /\ length (filter is_error (violations r)) = 0
  /\ test (search Patterns.flag_i Patterns.versioning) code = false
  /\ expectedForbidden engine code openCidr = []
  /\ forallb (fun tag => existsb (String.eqb tag) (map fst (defaultTagsOf policy)))
       (requiredTagsOf policy) = true.
Proof.
  cbv zeta. split; [intros fuel; vm_compute; reflexivity |].
  repeat split; vm_compute; reflexivity.
Qed.

(** With the default tags of the README the round trip also ends in an
    error: the tag block of the generated text is read up to the first
    closing brace, which is the one of the interpolation, and the tag
    [owner] after it is reported as missing. *)
Lemma interpolated_default_tag_hides_later_tags :
  forall fuel,
    validateSnippet engine (S fuel) (generateResource bucketRequest policyReadme)
      policyReadme None
    = Returned
        {| valid := false;
           violations :=
             [ {| ruleId := "required_tag_missing";
                  severity := Error;
                  message := "Missing required tags: owner";
                  line := Some 4;
                  suggestion := Some ("Add the following tags: owner = "
                                      ++ quoted "...") |};
               s3Violation "S3 bucket should have versioning enabled"
                 "Enable versioning" ] |}.
Proof. intros fuel. vm_compute. reflexivity. Qed.

(** Without a naming format and without a purpose the name is the service
    and the environment with a hyphen between them. *)
Lemma fallback_name service env config :
  naming config = None ->
  buildResourceName service env None config = service ++ "-" ++ env.
Proof. intros H. unfold buildResourceName. rewrite H. reflexivity. Qed.

(** On the fragment of [RegExpEngine] the forbidden-pattern violations of
    every result are the matches of a global search. *)
Lemma forbidden_violations_on_the_fragment fuel code config filePath r :
  validateSnippet engine fuel code config filePath = Returned r ->
  filter (has_rule "forbidden_pattern") (violations r)
  = flat_map (expectedForbidden engine code) (forbiddenPatternsOf config).
Proof.
  apply forbidden_violations_are_the_matches.
  intros src fl m H. exact (compile_wellFormed fl src m H).
Qed.

(** C2.  With the naming format [<project>-<env>-<component>-<extra?>]
    and no purpose, or an empty one, the name that [buildResourceName]
    returns ends in a hyphen; it has no doubled hyphen; and without a
    naming format the request [env: "prod", service: "analytics"] gives
    [analytics-prod]. *)
Theorem name_without_purpose_ends_in_hyphen :
  buildResourceName "analytics" "prod" None policy = "${local.project}-prod-analytics-"
  /\ buildResourceName "analytics" "prod" (Some EmptyString) policy
     = "${local.project}-prod-analytics-"
  /\ JSString.ends_with_char "-" (buildResourceName "analytics" "prod" None policy) = true
  /\ JSString.includes "--" (buildResourceName "analytics" "prod" None policy) = false
  /\ buildResourceName "analytics" "prod" None policyNoFormat = "analytics-prod".
Proof. repeat split; vm_compute; reflexivity. Qed.

Lemma engine_blanks :
  engine (match_ anyRunOfBlanks) Patterns.flag_none
  = Some (search Patterns.flag_none (seq [RStar Patterns.sp])).
Proof.
  unfold engine, RegExpEngine.compile.
  replace (parse (match_ anyRunOfBlanks)) with (Some (seq [RStar Patterns.sp]))
    by (vm_compute; reflexivity).
  reflexivity.
Qed.

(** C6.  The count fails on the code.  The one forbidden pattern of
    [policyBlanks] compiles and a global search finds six matches of it
    in [oneLine], but the first is empty, the loop of
    [validateForbiddenPatterns] searches again from the same index, and
    [validateSnippet] never returns a result to count in. *)
Theorem empty_match_leaves_nothing_to_count :
  engine (match_ anyRunOfBlanks) Patterns.flag_none <> None
  /\ length (expectedForbidden engine oneLine anyRunOfBlanks) = 6
  /\ forall fuel filePath,
       validateSnippet engine fuel oneLine policyBlanks filePath = OutOfFuel.
Proof.
  split; [rewrite engine_blanks; discriminate |].
  split; [vm_compute; reflexivity |].
  intros fuel filePath. unfold validateSnippet.
  change (validateRequiredTags engine oneLine policyBlanks []) with (Returned (@nil Violation)).
  cbn [bind]. unfold validateForbiddenPatterns.
  change (forbiddenPatternsOf policyBlanks) with [anyRunOfBlanks].
  rewrite forEachPattern_cons, engine_blanks.
  rewrite (execLoop_stalls (search Patterns.flag_none (seq [RStar Patterns.sp])) oneLine
             anyRunOfBlanks 0 {| m_index := 0; m_end := 0; m_captures := [] |});
    [reflexivity | vm_compute; lia | vm_compute; reflexivity | reflexivity].
Qed.

(** C8.  Termination fails on the code.  In [indented] the forbidden
    pattern of [policyBlanks] first matches the two leading blanks, then
    the empty string at index 2; [exec] leaves [lastIndex] at 2, every
    later round finds the same empty match, and no amount of fuel lets
    [validateSnippet] return. *)
Theorem empty_match_never_returns :
  forall fuel filePath,
    validateSnippet engine fuel indented policyBlanks filePath = OutOfFuel.
Proof.
  intros fuel filePath. unfold validateSnippet.
  change (validateRequiredTags engine indented policyBlanks []) with (Returned (@nil Violation)).
  cbn [bind]. unfold validateForbiddenPatterns.
  change (forbiddenPatternsOf policyBlanks) with [anyRunOfBlanks].
  rewrite forEachPattern_cons, engine_blanks.
  destruct fuel as [| fuel]; [reflexivity |].
  cbn [execLoop].
  change (exec (globalRegExp (search Patterns.flag_none (seq [RStar Patterns.sp])) 0) indented)
    with (Some {| m_index := 0; m_end := 2; m_captures := [] |},
          globalRegExp (search Patterns.flag_none (seq [RStar Patterns.sp])) 2).
  cbv iota beta.
  rewrite (execLoop_stalls (search Patterns.flag_none (seq [RStar Patterns.sp])) indented
             anyRunOfBlanks 2 {| m_index := 2; m_end := 2; m_captures := [] |});
    [reflexivity | vm_compute; lia | vm_compute; reflexivity | reflexivity].
Qed.

(** A required tag whose key template is not a pattern makes the call
    throw once the text has a tag block. *)
Lemma uncompilable_tag_throws fuel filePath :
  validateSnippet engine fuel taggedBucket policyParenTag filePath
  = Threw "SyntaxError".
Proof. vm_compute. reflexivity. Qed.

(** C10.  The tag block of [teamOwnerBucket] has the single key
    [team_owner]; the required tag is [owner]; and [validateSnippet]
    returns no violation at all, so none under [required_tag_missing]:
    the key pattern finds [owner] inside the longer key. *)
Theorem longer_key_passes_for_required_tag :
  requiredTagsOf policyOwner = ["owner"]
  /\ (exists block,
        tagsBlockMatch teamOwnerBucket = Some block
        /\ group1 teamOwnerBucket block
           = nl ++ "    team_owner = " ++ quoted "data" ++ nl ++ "  ")
  /\ forall fuel filePath,
       validateSnippet engine fuel teamOwnerBucket policyOwner filePath
       = Returned {| valid := true; violations := [] |}.
Proof.
  split; [reflexivity |]. split.
  - eexists. split; vm_compute; reflexivity.
  - intros fuel filePath. vm_compute. reflexivity.
Qed.

(** C5.  The claim fails on the code where a tag name has a syntax
    character of patterns.  The only required tag is [c+d]; the first tag
    block of [plusTagged] has the quoted key [c+d] followed by a blank and
    [=]; and every call of [validateSnippet] returns the violation
    [required_tag_missing] for that tag: the key template takes [c+] as
    one or more [c]. *)
Theorem metacharacter_tag_reported_missing :
  requiredTagsOf policyPlusTag = ["c+d"]
  /\ (exists block,
        tagsBlockMatch plusTagged = Some block
        /\ group1 plusTagged block
           = nl ++ "    " ++ quoted "c+d" ++ " = " ++ quoted "x" ++ nl ++ "  "
        /\ keyPresent "c+d" (group1 plusTagged block))
  /\ forall fuel filePath,
       validateSnippet engine fuel plusTagged policyPlusTag filePath
       = Returned
           {| valid := false;
              violations :=
                [ {| ruleId := "required_tag_missing";
                     severity := Error;
                     message := "Missing required tags: c+d";
                     line := Some 2;
                     suggestion := Some ("Add the following tags: c+d = "
                                         ++ quoted "...") |} ] |}.
Proof.
  split; [reflexivity |]. split.
  - eexists. split; [vm_compute; reflexivity |]. split; [vm_compute; reflexivity |].
    exists (nl ++ "    "), dq, "c+d", dq, " ", (" " ++ quoted "x" ++ nl ++ "  ").
    repeat split; try (vm_compute; reflexivity).
    + right. left. reflexivity.
    + right. left. reflexivity.
  - intros fuel filePath. vm_compute. reflexivity.
Qed.

(** *** The theorems with hypotheses, at the examples *)

(** C3 at the tagged bucket: the call returns a result with three
    warnings, and it is valid. *)
Lemma validateSnippet_valid_iff_no_error_witness :
  exists r,
    validateSnippet engine 1 taggedBucket policy None = Returned r
    /\ (valid r = true <-> forall v, In v (violations r) -> severity v <> Error).
Proof.
  eexists. split; [vm_compute; reflexivity |].
  apply (validateSnippet_valid_iff_no_error engine 1 taggedBucket policy None).
  vm_compute. reflexivity.
Defined.

(** [missing_tags_block_reported] at the security group without tags:
    the call returns, with the one
    violation [missing_tags_block] among its three violations, and the
    result is not valid. *)
Lemma missing_tags_block_reported_witness :
  requiredTagsOf policy <> []
  /\ tagsBlockMatch untaggedGroup = None
  /\ validateRequiredTags engine untaggedGroup policy []
     = Returned [missingTagsBlock (requiredTagsOf policy)]
  /\ exists r,
       validateSnippet engine 5 untaggedGroup policy None = Returned r
       /\ length (violations r) = 3
       /\ filter (has_rule "missing_tags_block") (violations r)
          = [missingTagsBlock (requiredTagsOf policy)]
       /\ valid r = false.
Proof.
  assert (H1 : requiredTagsOf policy <> []) by (vm_compute; discriminate).
  assert (H2 : tagsBlockMatch untaggedGroup = None) by (vm_compute; reflexivity).
  pose proof (missing_tags_block_reported engine untaggedGroup policy H1 H2) as H.
  cbv zeta in H. destruct H as (Htags & _ & _ & _ & _ & Hres & _).
  split; [exact H1 |]. split; [exact H2 |]. split; [exact Htags |].
  eexists. split; [vm_compute; reflexivity |].
  split; [reflexivity |].
  apply (Hres 5 None). vm_compute. reflexivity.
Defined.

(** C7 at a policy whose second forbidden pattern has an unterminated
    group: the call returns the violations of the first and of the third
    pattern, as it does under the policy without the second. *)
Lemma uncompilable_pattern_is_skipped_witness :
  forbiddenPatternsOf policyBrokenRule
  = ([openCidr] ++ unterminatedGroup :: [hardcodedSecret])%list
  /\ engine (match_ unterminatedGroup) Patterns.flag_none = None
  /\ validateSnippet engine 5 leakyGroup policyBrokenRule None
     = validateSnippet engine 5 leakyGroup
         (withForbiddenPatterns policyBrokenRule [openCidr; hardcodedSecret]) None
  /\ exists r,
       validateSnippet engine 5 leakyGroup policyBrokenRule None = Returned r
       /\ map message (violations r)
          = [description openCidr; description hardcodedSecret].
Proof.
  assert (H1 : forbiddenPatternsOf policyBrokenRule
               = ([openCidr] ++ unterminatedGroup :: [hardcodedSecret])%list)
    by reflexivity.
  assert (H2 : engine (match_ unterminatedGroup) Patterns.flag_none = None)
    by (vm_compute; reflexivity).
  split; [exact H1 |]. split; [exact H2 |]. split.
  - exact (proj1 (uncompilable_pattern_is_skipped engine 5 leakyGroup policyBrokenRule
                    None [openCidr] unterminatedGroup [hardcodedSecret] H1 H2)).
  - eexists. split; vm_compute; reflexivity.
Defined.

(** The policy and the tagged bucket of the examples meet the conditions
    of [plain_required_tags_found]. *)
Lemma plain_required_tags_found_example :
  Forall (fun tag => plainTag tag = true) (requiredTagsOf policy)
  /\ (exists block,
        tagsBlockMatch taggedBucket = Some block
        /\ (forall tag, In tag (requiredTagsOf policy) ->
                        keyPresent tag (group1 taggedBucket block)))
  /\ validateRequiredTags engine taggedBucket policy [] = Returned [].
Proof.
  assert (H1 : Forall (fun tag => plainTag tag = true) (requiredTagsOf policy)).
  { repeat constructor. }
  assert (H2 : tagsBlockMatch taggedBucket
               = Some {| m_index := 64; m_end := 128; m_captures := [(1, (72, 127))] |})
    by (vm_compute; reflexivity).
  assert (H3 : forall tag, In tag (requiredTagsOf policy) ->
                 keyPresent tag
                   (group1 taggedBucket
                      {| m_index := 64; m_end := 128; m_captures := [(1, (72, 127))] |})).
  { intros tag [<- | [<- | []]].
    - exists (nl ++ "    "), EmptyString, "Environment", EmptyString, " ",
        (" " ++ quoted "prod" ++ nl ++ "    " ++ quoted "owner" ++ " = "
         ++ quoted "infra-team" ++ nl ++ "  ").
      repeat split; try (vm_compute; reflexivity); left; reflexivity.
    - exists (nl ++ "    Environment = " ++ quoted "prod" ++ nl ++ "    "),
        dq, "owner", dq, " ", (" " ++ quoted "infra-team" ++ nl ++ "  ").
      repeat split; try (vm_compute; reflexivity); right; left; reflexivity. }
  split; [exact H1 |]. split; [eexists; split; [exact H2 | exact H3] |].
  exact (proj1 (plain_required_tags_found engine (fun tag _ => eq_refl)
                  taggedBucket policy _ H1 H2 H3)).
Defined.

End Concrete.

(** * Further properties of the rule engine *)

(** ** What every violation of a result looks like *)

Section Invariant.
Import RegExpEngine JSRegExp.
Variable compile : string -> flags -> option matcher.
Variable P : Violation -> Prop.

Hypothesis P_missingTagsBlock : forall tags, P (missingTagsBlock tags).
Hypothesis P_requiredTagMissing :
  forall code index tags, P (requiredTagMissing code index tags).
Hypothesis P_forbidden : forall code pattern m, P (forbiddenViolation code pattern m).
Hypothesis P_s3 : forall msg sug, P (s3Violation msg sug).
Hypothesis P_rds : forall msg sug, P (rdsViolation msg sug).
Hypothesis P_naming :
  forall code fmt name count parts index,
    P (namingViolation code fmt name count parts index).

Lemma Forall_push vs v : Forall P vs -> P v -> Forall P (push vs v).
Proof.
  intros Hvs Hv. unfold push. apply Forall_app. split; [exact Hvs |].
  constructor; [exact Hv | constructor].
Qed.

Lemma validateRequiredTags_keeps code config vs vs' :
  Forall P vs ->
  validateRequiredTags compile code config vs = Returned vs' ->
  Forall P vs'.
Proof.
  intros Hvs. unfold validateRequiredTags.
  destruct (length (requiredTagsOf config) =? 0); [intros H; inversion H; subst; exact Hvs |].
  destruct (tagsBlockMatch code) as [m |].
  - intros H. apply bind_Returned in H. destruct H as (missing & _ & H).
    destruct (0 <? length missing); inversion H; subst;
      [apply Forall_push; [exact Hvs | apply P_requiredTagMissing] | exact Hvs].
  - intros H. inversion H. subst.
    apply Forall_push; [exact Hvs | apply P_missingTagsBlock].
Qed.

Lemma execLoop_keeps fuel : forall regex code pattern vs vs',
  Forall P vs ->
  execLoop fuel regex code pattern vs = Returned vs' ->
  Forall P vs'.
Proof.
  induction fuel as [| fuel IH]; intros regex code pattern vs vs' Hvs; simpl;
    [discriminate |].
  destruct (exec regex code) as [[m |] regex'].
  - apply IH. apply Forall_push; [exact Hvs | apply P_forbidden].
  - intros H. inversion H. subst. exact Hvs.
Qed.

Lemma forEachPattern_keeps fuel code patterns : forall vs vs',
  Forall P vs ->
  forEachPattern compile fuel code patterns vs = Returned vs' ->
  Forall P vs'.
Proof.
  induction patterns as [| p ps IH]; intros vs vs' Hvs; simpl.
  - intros H. inversion H. subst. exact Hvs.
  - destruct (RegExp_g compile (match_ p)) as [regex |]; [| apply IH, Hvs].
    intros H. apply bind_Returned in H. destruct H as (vs1 & H1 & H2).
    apply (IH vs1 vs'); [| exact H2].
    exact (execLoop_keeps _ _ _ _ _ _ Hvs H1).
Qed.

Lemma s3CheckLoop_keeps code d checks : forall vs,
  Forall P vs -> Forall P (s3CheckLoop code d checks vs).
Proof.
  induction checks as [| [[key pattern] sug] checks IH]; intros vs Hvs; simpl;
    [exact Hvs |].
  apply IH.
  destruct (truthy (lookup key d) && negb (test (search Patterns.flag_i pattern) code));
    [apply Forall_push; [exact Hvs | apply P_s3] | exact Hvs].
Qed.

Lemma validateS3Bucket_keeps code d vs :
  Forall P vs -> Forall P (validateS3Bucket code d vs).
Proof.
  intros Hvs. unfold validateS3Bucket.
  pose proof (s3CheckLoop_keeps code d s3Checks vs Hvs) as H.
  destruct (lookup "encryption" d) as [enc |]; [| exact H].
  destruct (truthy (Some enc)
            && negb (test (search Patterns.flag_i Patterns.encryption) code));
    [apply Forall_push; [exact H | apply P_s3] | exact H].
Qed.

Lemma validateRDS_keeps code d vs :
  Forall P vs -> Forall P (validateRDS code d vs).
Proof.
  intros Hvs. unfold validateRDS.
  destruct (truthy (lookup "storage_encrypted" d)
            && negb (test (search Patterns.flag_i Patterns.storageEncrypted) code));
    destruct (truthy (lookup "backup_retention_period" d)
              && negb (test (search Patterns.flag_i Patterns.backupRetention) code));
    repeat (apply Forall_push; [| apply P_rds]); exact Hvs.
Qed.

Lemma validateSecurityDefaults_keeps code config vs :
  Forall P vs -> Forall P (validateSecurityDefaults code config vs).
Proof.
  intros Hvs. unfold validateSecurityDefaults.
  set (s3 := match security_defaults config with Some d => s3_bucket d | None => None end).
  set (rd := match security_defaults config with Some d => rds d | None => None end).
  assert (H1 : Forall P
                 match s3 with
                 | Some d => if test (search Patterns.flag_i Patterns.s3Marker) code
                             then validateS3Bucket code d vs else vs
                 | None => vs
                 end).
  { destruct s3 as [d |]; [| exact Hvs].
    destruct (test (search Patterns.flag_i Patterns.s3Marker) code);
      [apply validateS3Bucket_keeps, Hvs | exact Hvs]. }
  destruct rd as [d |]; [| exact H1].
  destruct (test (search Patterns.flag_i Patterns.rdsMarker) code);
    [apply validateRDS_keeps, H1 | exact H1].
Qed.

Lemma namingLoop_keeps code fmt n ms : forall vs,
  Forall P vs -> Forall P (namingLoop code fmt n ms vs).
Proof.
  induction ms as [| m ms IH]; intros vs Hvs; simpl; [exact Hvs |].
  apply IH.
  destruct (JSString.startsWith "${" (group1 code m)
            || JSString.startsWith "var." (group1 code m)); [exact Hvs |].
  destruct (JSString.split_length "-" (group1 code m) <? n); [| exact Hvs].
  apply Forall_push; [exact Hvs | apply P_naming].
Qed.

Lemma validateNamingConventions_keeps code config vs :
  Forall P vs -> Forall P (validateNamingConventions code config vs).
Proof.
  intros Hvs. unfold validateNamingConventions.
  destruct (match naming config with Some n => resource_format n | None => None end)
    as [fmt |]; [| exact Hvs].
  destruct (String.eqb fmt EmptyString); [exact Hvs |].
  match goal with
  | |- context [if ?c <? 2 then _ else _] => destruct (c <? 2)
  end; [exact Hvs | apply namingLoop_keeps, Hvs].
Qed.

(** What holds of the violations that the six constructors build holds of
    every violation of a result. *)
Lemma validateSnippet_violations fuel code config filePath r :
  validateSnippet compile fuel code config filePath = Returned r ->
  Forall P (violations r).
Proof.
  unfold validateSnippet. intros H.
  apply bind_Returned in H. destruct H as (vs1 & H1 & H).
  apply bind_Returned in H. destruct H as (vs2 & H2 & H).
  inversion H. subst r. simpl.
  apply validateNamingConventions_keeps, validateSecurityDefaults_keeps.
  apply (forEachPattern_keeps _ _ _ _ _ (validateRequiredTags_keeps _ _ _ _
           (Forall_nil P) H1) H2).
Qed.

End Invariant.

Section Shape.
Import RegExpEngine JSRegExp.
Variable compile : string -> flags -> option matcher.

(** X1.  In every result of [validateSnippet], the rule identifier of a
    violation fixes its severity and whether it has a line: the two
    required-tag rules and [forbidden_pattern] are errors, the two
    security rules are warnings, [naming_convention] is information; a
    line is absent exactly for [missing_tags_block] and the two security
    rules. *)
Theorem rule_fixes_severity_and_line fuel code config filePath r :
  validateSnippet compile fuel code config filePath = Returned r ->
  forall v, In v (violations r) ->
    lookup (ruleId v) ruleTable = Some (severity v, hasLine v).
Proof.
  intros H. apply Forall_forall.
  refine (validateSnippet_violations compile conforms _ _ _ _ _ _
            fuel code config filePath r H);
    intros; reflexivity.
Qed.

Lemma validateRequiredTags_at_most_one code config vs :
  validateRequiredTags compile code config [] = Returned vs -> length vs <= 1.
Proof.
  unfold validateRequiredTags.
  destruct (length (requiredTagsOf config) =? 0); [intros H; inversion H; simpl; lia |].
  destruct (tagsBlockMatch code) as [m |].
  - intros H. apply bind_Returned in H. destruct H as (missing & _ & H).
    destruct (0 <? length missing); inversion H; simpl; lia.
  - intros H. inversion H. simpl. lia.
Qed.

(** X2.  The violations of a result stand in the order of the four
    checks: at most one violation of the required-tag check, then those
    of the forbidden patterns, then the security warnings, then the naming
    findings. *)
Theorem violations_follow_the_checks fuel code config filePath r :
  validateSnippet compile fuel code config filePath = Returned r ->
  exists tags forbidden security naming_,
    violations r = (tags ++ forbidden ++ security ++ naming_)%list
    /\ length tags <= 1
    /\ emits ["missing_tags_block"; "required_tag_missing"] Error tags
    /\ emits ["forbidden_pattern"] Error forbidden
    /\ emits ["s3_security_default"; "rds_security_default"] Warn security
    /\ emits ["naming_convention"] Info naming_.
Proof.
  intros H. apply validateSnippet_Returned in H.
  destruct H as (tags & forb & sec & nam & Ht & _ & Het & Hf & Hs & Hn & Hv & _).
  exists tags, forb, sec, nam.
  repeat split; try assumption.
  exact (validateRequiredTags_at_most_one _ _ _ Ht).
Qed.

End Shape.

(** X1 at the security group without tags: the call returns three
    violations, and each has the severity and the line of its rule. *)
Lemma rule_fixes_severity_and_line_witness :
  exists r,
    validateSnippet Examples.engine 5 Examples.untaggedGroup Examples.policy None
    = Returned r
    /\ length (violations r) = 3
    /\ forall v, In v (violations r) ->
                 lookup (ruleId v) ruleTable = Some (severity v, hasLine v).
Proof.
  eexists. split; [vm_compute; reflexivity |]. split; [reflexivity |].
  apply (rule_fixes_severity_and_line Examples.engine 5 Examples.untaggedGroup
           Examples.policy None).
  vm_compute. reflexivity.
Defined.

(** X2 at the tagged bucket: the call returns, and its violations fall
    into the four runs. *)
Lemma violations_follow_the_checks_witness :
  exists r,
    validateSnippet Examples.engine 5 Examples.taggedBucket Examples.policy None
    = Returned r
    /\ exists tags forbidden security naming_,
         violations r = (tags ++ forbidden ++ security ++ naming_)%list
         /\ length tags <= 1
         /\ emits ["missing_tags_block"; "required_tag_missing"] Error tags
         /\ emits ["forbidden_pattern"] Error forbidden
         /\ emits ["s3_security_default"; "rds_security_default"] Warn security
         /\ emits ["naming_convention"] Info naming_.
Proof.
  eexists. split; [vm_compute; reflexivity |].
  apply (violations_follow_the_checks Examples.engine 5 Examples.taggedBucket
           Examples.policy None).
  vm_compute. reflexivity.
Defined.

(** ** When a call throws, and when it returns *)

Section ThrowsAndReturns.
Import RegExpEngine JSRegExp.
Variable compile : string -> flags -> option matcher.

Lemma filterMissing_throws content tags e :
  filterMissing compile content tags = Threw e <->
  e = "SyntaxError"
  /\ exists tag, In tag tags
                 /\ compile (Patterns.tagPattern_src tag) Patterns.flag_i = None.
Proof.
  induction tags as [| tag tags IH]; simpl.
  - split; [discriminate | intros (_ & t & [] & _)].
  - unfold tagMissing at 1.
    destruct (compile (Patterns.tagPattern_src tag) Patterns.flag_i) as [m |] eqn:Hc;
      simpl.
    + destruct (filterMissing compile content tags) as [rest | e' |] eqn:Hrest; simpl.
      * split; [discriminate |].
        intros (He & t & [<- | Ht] & Hnone); [congruence |].
        destruct IH as [_ IH]. discriminate IH.
        split; [exact He | exists t; split; assumption].
      * split.
        -- intros H. inversion H. subst e'.
           destruct IH as [IH _]. destruct (IH eq_refl) as (He & t & Ht & Hnone).
           split; [exact He | exists t; split; [right; exact Ht | exact Hnone]].
        -- intros (He & t & [<- | Ht] & Hnone); [congruence |].
           destruct IH as [_ IH]. apply IH.
           split; [exact He | exists t; split; assumption].
      * split; [discriminate |].
        intros (He & t & [<- | Ht] & Hnone); [congruence |].
        destruct IH as [_ IH]. discriminate IH.
        split; [exact He | exists t; split; assumption].
    + split.
      * intros H. inversion H. split; [reflexivity |].
        exists tag. split; [left; reflexivity | exact Hc].
      * intros (-> & _). reflexivity.
Qed.

Lemma validateSnippet_throws_with_tags fuel code config filePath e :
  validateSnippet compile fuel code config filePath = Threw e <->
  validateRequiredTags compile code config [] = Threw e.
Proof.
  unfold validateSnippet.
  destruct (validateRequiredTags compile code config []) as [vs1 | e1 |]; simpl.
  - unfold validateForbiddenPatterns.
    destruct (forEachPattern compile fuel code (forbiddenPatternsOf config) vs1)
      as [vs2 | e2 |] eqn:E; simpl; try (split; discriminate).
    exfalso. exact (forEachPattern_never_throws _ _ _ _ _ _ E).
  - split; intros H; inversion H; reflexivity.
  - split; discriminate.
Qed.

Lemma validateRequiredTags_throws_iff code config e :
  validateRequiredTags compile code config [] = Threw e <->
  e = "SyntaxError"
  /\ requiredTagsOf config <> []
  /\ tagsBlockMatch code <> None
  /\ exists tag,
       In tag (requiredTagsOf config)
       /\ compile (Patterns.tagPattern_src tag) Patterns.flag_i = None.
Proof.
  unfold validateRequiredTags.
  destruct (requiredTagsOf config) as [| t ts] eqn:Hreq.
  - simpl. split; [discriminate | intros (_ & H & _); congruence].
  - change (length (t :: ts) =? 0) with false. cbv iota.
    destruct (tagsBlockMatch code) as [m |].
    + destruct (filterMissing compile (group1 code m) (t :: ts)) as [missing | e' |] eqn:E.
      * simpl bind. split.
        -- destruct (0 <? length missing); discriminate.
        -- intros (He & _ & _ & Hex).
           assert (Hthrow : filterMissing compile (group1 code m) (t :: ts) = Threw e)
             by (apply filterMissing_throws; split; assumption).
           congruence.
      * simpl bind. split.
        -- intros H. inversion H. subst e'.
           apply filterMissing_throws in E. destruct E as (He & Hex).
           repeat split; try assumption; discriminate.
        -- intros (He & _ & _ & Hex).
           assert (Hthrow : filterMissing compile (group1 code m) (t :: ts) = Threw e)
             by (apply filterMissing_throws; split; assumption).
           congruence.
      * simpl bind. split; [discriminate |].
        intros (He & _ & _ & Hex).
        assert (Hthrow : filterMissing compile (group1 code m) (t :: ts) = Threw e)
          by (apply filterMissing_throws; split; assumption).
        congruence.
    + split; [discriminate | intros (_ & _ & H & _); congruence].
Qed.

(** X3.  A call of [validateSnippet] throws in one case only: the policy
    has required tags, the text has a tag block, and the key template of
    some required tag is not a pattern that [new RegExp] accepts; what is
    thrown is that SyntaxError. *)
Theorem validateSnippet_throws_iff fuel code config filePath e :
  validateSnippet compile fuel code config filePath = Threw e <->
  e = "SyntaxError"
  /\ requiredTagsOf config <> []
  /\ tagsBlockMatch code <> None
  /\ exists tag,
       In tag (requiredTagsOf config)
       /\ compile (Patterns.tagPattern_src tag) Patterns.flag_i = None.
Proof.
  rewrite validateSnippet_throws_with_tags. apply validateRequiredTags_throws_iff.
Qed.

Lemma execLoop_more_fuel fuel : forall regex code pattern vs vs' extra,
  execLoop fuel regex code pattern vs = Returned vs' ->
  execLoop (fuel + extra) regex code pattern vs = Returned vs'.
Proof.
  induction fuel as [| fuel IH]; intros regex code pattern vs vs' extra; simpl;
    [discriminate |].
  destruct (exec regex code) as [[m |] regex']; [apply IH | trivial].
Qed.

Lemma forEachPattern_more_fuel code patterns fuel extra : forall vs vs',
  forEachPattern compile fuel code patterns vs = Returned vs' ->
  forEachPattern compile (fuel + extra) code patterns vs = Returned vs'.
Proof.
  induction patterns as [| p ps IH]; intros vs vs'; simpl; [trivial |].
  destruct (RegExp_g compile (match_ p)) as [regex |]; [| apply IH].
  intros H. apply bind_Returned in H. destruct H as (vs1 & H1 & H2).
  rewrite (execLoop_more_fuel _ _ _ _ _ _ extra H1). simpl. apply IH, H2.
Qed.

(** A result does not depend on the fuel that was enough for it. *)
Lemma validateSnippet_more_fuel fuel fuel' code config filePath r :
  fuel <= fuel' ->
  validateSnippet compile fuel code config filePath = Returned r ->
  validateSnippet compile fuel' code config filePath = Returned r.
Proof.
  intros Hle. replace fuel' with (fuel + (fuel' - fuel)) by lia.
  unfold validateSnippet. intros H.
  apply bind_Returned in H. destruct H as (vs1 & H1 & H).
  apply bind_Returned in H. destruct H as (vs2 & H2 & H).
  rewrite H1. simpl. unfold validateForbiddenPatterns in *.
  rewrite (forEachPattern_more_fuel _ _ _ _ _ _ H2). simpl. exact H.
Qed.

(** The matchers that [new RegExp] builds are well formed. *)
Hypothesis built_wellFormed :
  forall src fl m, compile src fl = Some m -> wellFormed m.

(** A loop ends within [length code + 2] rounds when the searches it
    makes all move on, whatever a search from another index would find. *)
Lemma execLoop_returns_scanned m code pattern :
  (forall from r,
     scans m code from -> from <= String.length code -> m code from = Some r ->
     from < m_end r) ->
  forall fuel from vs,
    scans m code from ->
    S (S (String.length code) - from) <= fuel ->
    exists vs', execLoop fuel (globalRegExp m from) code pattern vs = Returned vs'.
Proof.
  intros Hp. induction fuel as [| fuel IH]; intros from vs Hfrom Hfuel; [lia |].
  simpl. unfold exec. simpl.
  destruct (Nat.ltb_spec (String.length code) from) as [Hgt | Hle].
  - eexists. reflexivity.
  - destruct (m code from) as [r |] eqn:Hm.
    + pose proof (Hp from r Hfrom Hle Hm) as Hadv.
      apply (IH (m_end r)).
      * exact (scans_next m code from r Hfrom Hle Hm).
      * lia.
    + eexists. reflexivity.
Qed.

Lemma forEachPattern_returns_scanned code patterns :
  loopsProgress compile code patterns ->
  forall vs,
    exists vs',
      forEachPattern compile (S (S (String.length code))) code patterns vs
      = Returned vs'.
Proof.
  induction patterns as [| p ps IH]; intros Hall vs.
  - eexists. reflexivity.
  - assert (Hps : loopsProgress compile code ps).
    { intros q m Hq. apply Hall. right. exact Hq. }
    rewrite forEachPattern_cons.
    destruct (compile (match_ p) Patterns.flag_none) as [m |] eqn:Hc.
    + destruct (execLoop_returns_scanned m code p (Hall p m (or_introl eq_refl) Hc)
                  (S (S (String.length code))) 0 vs (scans_first m code))
        as (vs1 & E); [lia |].
      rewrite E. simpl bind. apply IH. exact Hps.
    + apply IH. exact Hps.
Qed.

(** Scans that move on from every index of the text move on from the
    indices that the loops reach. *)
Lemma allScansProgress_loopsProgress code patterns :
  allScansProgress compile code patterns -> loopsProgress compile code patterns.
Proof.
  intros Hall p m Hin Hc from r _ Hle Hm.
  exact (scanProgress_spec m code from r (Hall p m Hin Hc) Hle Hm).
Qed.

(** A call returns when every key template compiles and the searches
    of the loops move on. *)
Lemma validateSnippet_returns_when_loops_progress code config filePath :
  (forall tag, In tag (requiredTagsOf config) ->
               compile (Patterns.tagPattern_src tag) Patterns.flag_i <> None) ->
  loopsProgress compile code (forbiddenPatternsOf config) ->
  exists r,
    (forall fuel, S (S (String.length code)) <= fuel ->
                  validateSnippet compile fuel code config filePath = Returned r)
    /\ filter (has_rule "forbidden_pattern") (violations r)
       = flat_map (expectedForbidden compile code) (forbiddenPatternsOf config).
Proof.
  intros Htags Hscans.
  destruct (validateRequiredTags compile code config []) as [vs1 | e |] eqn:E1.
  - destruct (forEachPattern_returns_scanned _ _ Hscans vs1) as (vs2 & E2).
    assert (E : validateSnippet compile (S (S (String.length code))) code config filePath
                = Returned
                    {| valid := length (filter is_error
                                          (validateNamingConventions code config
                                             (validateSecurityDefaults code config vs2)))
                                =? 0;
                       violations := validateNamingConventions code config
                                       (validateSecurityDefaults code config vs2) |}).
    { unfold validateSnippet, validateForbiddenPatterns. rewrite E1. simpl bind.
      rewrite E2. reflexivity. }
    eexists. split.
    + intros fuel Hfuel. exact (validateSnippet_more_fuel _ _ _ _ _ _ Hfuel E).
    + exact (forbidden_violations_are_the_matches compile built_wellFormed _ _ _ _ _ E).
  - exfalso. apply validateRequiredTags_throws_iff in E1.
    destruct E1 as (_ & _ & _ & tag & Hin & Hnone).
    exact (Htags tag Hin Hnone).
  - exfalso. unfold validateRequiredTags in E1.
    destruct (length (requiredTagsOf config) =? 0); [discriminate E1 |].
    destruct (tagsBlockMatch code) as [m |]; [| discriminate E1].
    assert (Hno : forall tags, filterMissing compile (group1 code m) tags <> OutOfFuel).
    { induction tags as [| t ts IH]; simpl; [discriminate |].
      unfold tagMissing at 1.
      destruct (compile (Patterns.tagPattern_src t) Patterns.flag_i); simpl;
        [| discriminate].
      destruct (filterMissing compile (group1 code m) ts); simpl;
        [discriminate | discriminate | exact IH]. }
    destruct (filterMissing compile (group1 code m) (requiredTagsOf config))
      as [missing | e |] eqn:E; simpl in E1.
    + destruct (0 <? length missing); discriminate E1.
    + discriminate E1.
    + exact (Hno _ E).
Qed.

(** A loop that reaches an index from which it never returns does not
    return from the start either. *)
Lemma execLoop_stalls_from_start m code pattern from :
  scans m code from ->
  (forall fuel vs, execLoop fuel (globalRegExp m from) code pattern vs = OutOfFuel) ->
  forall fuel vs, execLoop fuel (globalRegExp m 0) code pattern vs = OutOfFuel.
Proof.
  induction 1 as [| from r Hs IH Hle Hm]; intros Hstall; [exact Hstall |].
  apply IH. intros [| fuel] vs; [reflexivity |].
  cbn [execLoop]. unfold exec. cbn [re_global globalRegExp lastIndex re_matcher].
  destruct (Nat.ltb_spec (String.length code) from) as [Hgt | _]; [lia |].
  rewrite Hm. apply Hstall.
Qed.

(** A loop that returns has moved on at each of its searches. *)
Lemma execLoop_returned_progress m code pattern fuel vs vs' :
  wellFormed m ->
  execLoop fuel (globalRegExp m 0) code pattern vs = Returned vs' ->
  forall from r,
    scans m code from -> from <= String.length code -> m code from = Some r ->
    from < m_end r.
Proof.
  intros Hwf Hret from r Hs Hle Hm.
  destruct (Nat.lt_ge_cases from (m_end r)) as [Hlt | Hge]; [exact Hlt |].
  exfalso. destruct (Hwf code from r Hm) as (H1 & H2 & _).
  assert (He : m_end r = from) by lia.
  rewrite (execLoop_stalls_from_start m code pattern from Hs
             (execLoop_stalls m code pattern from r Hle Hm He) fuel vs) in Hret.
  discriminate Hret.
Qed.

Lemma forEachPattern_returned_progress code fuel patterns : forall vs vs',
  forEachPattern compile fuel code patterns vs = Returned vs' ->
  loopsProgress compile code patterns.
Proof.
  induction patterns as [| p ps IH]; intros vs vs' Hret q m Hq Hc; [destruct Hq |].
  rewrite forEachPattern_cons in Hret.
  destruct (compile (match_ p) Patterns.flag_none) as [mp |] eqn:Hp.
  - apply bind_Returned in Hret. destruct Hret as (vs1 & Hloop & Hrest).
    destruct Hq as [<- | Hq].
    + rewrite Hc in Hp. inversion Hp. subst mp.
      exact (execLoop_returned_progress m code p fuel vs vs1
               (built_wellFormed _ _ _ Hc) Hloop).
    + exact (IH vs1 vs' Hrest q m Hq Hc).
  - destruct Hq as [<- | Hq]; [congruence |].
    exact (IH vs vs' Hret q m Hq Hc).
Qed.

(** X4.  Let every key template of a required tag compile.  Then
    [validateSnippet] returns exactly when every search that the loops of
    the forbidden-pattern check make of the text ends its match beyond
    the index it starts from: the search from 0, and each search from the
    end of the match found before it in the same loop; a search from an
    index that no loop reaches does not matter.  When it returns, there is
    one result that every call with at least [length code + 2] rounds per
    loop returns, and its forbidden-pattern violations are one for each
    match of a global search, the patterns in the order of the policy and
    the matches of each in the order of the text. *)
Theorem validateSnippet_returns_the_matches code config filePath :
  (forall tag, In tag (requiredTagsOf config) ->
               compile (Patterns.tagPattern_src tag) Patterns.flag_i <> None) ->
  ((exists fuel r, validateSnippet compile fuel code config filePath = Returned r)
   <-> loopsProgress compile code (forbiddenPatternsOf config))
  /\ (loopsProgress compile code (forbiddenPatternsOf config) ->
      exists r,
        (forall fuel, S (S (String.length code)) <= fuel ->
                      validateSnippet compile fuel code config filePath = Returned r)
        /\ filter (has_rule "forbidden_pattern") (violations r)
           = flat_map (expectedForbidden compile code) (forbiddenPatternsOf config)).
Proof.
  intros Htags. split; [split |].
  - intros (fuel & r & Hret). unfold validateSnippet in Hret.
    apply bind_Returned in Hret. destruct Hret as (vs1 & _ & Hret).
    apply bind_Returned in Hret. destruct Hret as (vs2 & Hloops & _).
    exact (forEachPattern_returned_progress _ _ _ _ _ Hloops).
  - intros Hloops.
    destruct (validateSnippet_returns_when_loops_progress code config filePath
                Htags Hloops) as (r & Hret & _).
    exists (S (S (String.length code))), r. apply Hret. lia.
  - exact (validateSnippet_returns_when_loops_progress code config filePath Htags).
Qed.

End ThrowsAndReturns.

Section ThrowsAndReturnsExamples.
Import RegExpEngine JSRegExp Examples.

(** X3 at a required tag that is an opening parenthesis: the key template
    is not a pattern, and the call on the tagged bucket throws. *)
Lemma validateSnippet_throws_iff_witness :
  validateSnippet engine 1 taggedBucket policyParenTag None = Threw "SyntaxError".
Proof.
  apply (validateSnippet_throws_iff engine 1 taggedBucket policyParenTag None).
  split; [reflexivity |].
  split; [vm_compute; discriminate |].
  split; [vm_compute; discriminate |].
  exists "(". split; [left; reflexivity | vm_compute; reflexivity].
Defined.

Lemma engine_compiles src fl :
  parse src <> None -> engine src fl <> None.
Proof.
  unfold engine, RegExpEngine.compile. destruct (parse src); [discriminate | congruence].
Qed.

Lemma engine_openCidr_progress m :
  engine (match_ openCidr) Patterns.flag_none = Some m ->
  scanProgress m untaggedGroup = true.
Proof.
  unfold engine, RegExpEngine.compile.
  destruct (parse (match_ openCidr)) as [r |] eqn:E; [| discriminate].
  vm_compute in E. inversion E. subst r. intros H. inversion H.
  vm_compute. reflexivity.
Qed.

(** X4 at the policy of the examples and the security group without
    tags: both key templates compile, the searches of the one loop move
    on, and from 86 rounds on every call returns the same result, with one
    forbidden-pattern violation. *)
Lemma validateSnippet_returns_the_matches_witness :
  (forall tag, In tag (requiredTagsOf policy) ->
               engine (Patterns.tagPattern_src tag) Patterns.flag_i <> None)
  /\ loopsProgress engine untaggedGroup (forbiddenPatternsOf policy)
  /\ ((exists fuel r, validateSnippet engine fuel untaggedGroup policy None = Returned r)
      <-> loopsProgress engine untaggedGroup (forbiddenPatternsOf policy))
  /\ exists r,
       (forall fuel, S (S (String.length untaggedGroup)) <= fuel ->
                     validateSnippet engine fuel untaggedGroup policy None = Returned r)
       /\ filter (has_rule "forbidden_pattern") (violations r)
          = flat_map (expectedForbidden engine untaggedGroup) (forbiddenPatternsOf policy).
Proof.
  assert (H1 : forall tag, In tag (requiredTagsOf policy) ->
                 engine (Patterns.tagPattern_src tag) Patterns.flag_i <> None).
  { intros tag [<- | [<- | []]]; apply engine_compiles; vm_compute; discriminate. }
  assert (H2 : loopsProgress engine untaggedGroup (forbiddenPatternsOf policy)).
  { apply allScansProgress_loopsProgress.
    intros p m [<- | []] Hm. exact (engine_openCidr_progress m Hm). }
  destruct (validateSnippet_returns_the_matches engine
              (fun src fl m H => compile_wellFormed fl src m H)
              untaggedGroup policy None H1) as (Hiff & Hret).
  split; [exact H1 |]. split; [exact H2 |]. split; [exact Hiff |].
  exact (Hret H2).
Defined.

End ThrowsAndReturnsExamples.

(** ** Line numbers *)

Section Lines.

Lemma take_app_length (a b : string) : JSString.take (String.length a) (a ++ b) = a.
Proof. induction a as [| c a IH]; simpl; [destruct b; reflexivity | rewrite IH; reflexivity]. Qed.

Lemma count_char_take_le c : forall s i j,
  i <= j -> JSString.count_char c (JSString.take i s) <= JSString.count_char c (JSString.take j s).
Proof.
  induction s as [| d s IH]; intros i j Hij.
  - destruct i, j; simpl; lia.
  - destruct i as [| i]; [simpl; lia |].
    destruct j as [| j]; [lia |]. simpl.
    specialize (IH i j ltac:(lia)). lia.
Qed.

Lemma count_char_take_all c : forall s i,
  JSString.count_char c (JSString.take i s) <= JSString.count_char c s.
Proof.
  induction s as [| d s IH]; intros i.
  - destruct i; simpl; lia.
  - destruct i as [| i]; simpl; [lia |]. specialize (IH i). lia.
Qed.

Lemma take_past_end : forall s i,
  String.length s <= i -> JSString.take i s = s.
Proof.
  induction s as [| d s IH]; intros i Hi.
  - destruct i; reflexivity.
  - destruct i as [| i]; [simpl in Hi; lia |]. simpl. rewrite IH; [reflexivity |].
    simpl in Hi. lia.
Qed.

(** The line of an index is one more than the number of line feeds
    before it: [getLineNumber] of the index where [before] ends, in a text
    that starts with [before], is that count plus one. *)
Lemma getLineNumber_counts_line_feeds before after :
  getLineNumber (before ++ after) (String.length before)
  = S (JSString.count_char (ascii_of_nat 10) before).
Proof. unfold getLineNumber, JSString.split_length. rewrite take_app_length. reflexivity. Qed.

(** X5.  The line of an index is one more than the number of line feeds
    before it: wherever the text is cut into [before] and [after], the
    index where [before] ends is on line 1 + the number of line feeds in
    [before].  Hence line numbers start at 1, do not decrease along the
    text, and never exceed the number of lines of the text; an index at or
    past the end of the text is on the last line. *)
Theorem getLineNumber_is_the_line_of_the_index code i j :
  i <= j ->
  (forall before after,
     code = before ++ after ->
     getLineNumber code (String.length before)
     = S (JSString.count_char (ascii_of_nat 10) before))
  /\ getLineNumber code 0 = 1
  /\ 1 <= getLineNumber code i
  /\ getLineNumber code i <= getLineNumber code j
  /\ getLineNumber code j <= JSString.split_length (ascii_of_nat 10) code
  /\ (String.length code <= j ->
      getLineNumber code j = JSString.split_length (ascii_of_nat 10) code).
Proof.
  intros Hij.
  split; [intros before after ->; apply getLineNumber_counts_line_feeds |].
  unfold getLineNumber, JSString.split_length.
  split; [destruct code; reflexivity |].
  split; [lia |].
  split; [apply le_n_S, count_char_take_le, Hij |].
  split; [apply le_n_S, count_char_take_all |].
  intros Hj. rewrite take_past_end by exact Hj. reflexivity.
Qed.

(** X5 on a text of three lines, [a], [bc] and [d]: the index 2, where
    the second line begins, is on line 2, the index 1 of the first line
    feed is still on line 1, and the index 5, where the third line begins,
    is on line 3. *)
Lemma getLineNumber_is_the_line_of_the_index_witness :
  3 <= 9
  /\ getLineNumber ("a" ++ nl ++ "bc" ++ nl ++ "d") 1 = 1
  /\ getLineNumber ("a" ++ nl ++ "bc" ++ nl ++ "d") 2 = 2
  /\ getLineNumber ("a" ++ nl ++ "bc" ++ nl ++ "d") 5 = 3
  /\ getLineNumber ("a" ++ nl ++ "bc" ++ nl ++ "d") 3
     <= getLineNumber ("a" ++ nl ++ "bc" ++ nl ++ "d") 9
  /\ getLineNumber ("a" ++ nl ++ "bc" ++ nl ++ "d") 9 = 3.
Proof.
  assert (H : 3 <= 9) by lia.
  destruct (getLineNumber_is_the_line_of_the_index
              ("a" ++ nl ++ "bc" ++ nl ++ "d") 3 9 H)
    as (Hcount & _ & _ & Hmono & _ & Hlast).
  split; [exact H |].
  split; [exact (Hcount "a" (nl ++ "bc" ++ nl ++ "d") eq_refl) |].
  split; [exact (Hcount ("a" ++ nl) ("bc" ++ nl ++ "d") eq_refl) |].
  split; [exact (Hcount ("a" ++ nl ++ "bc" ++ nl) "d" eq_refl) |].
  split; [exact Hmono |].
  exact (Hlast ltac:(vm_compute; lia)).
Defined.

End Lines.

(** * Further properties of the generator *)

(** ** Merging the default tags with the extra tags *)

Section Tags.
Import Generator.

Lemma lookup_unbound {A : Type} k (o : list (string * A)) :
  ~ In k (map fst o) -> lookup k o = None.
Proof.
  induction o as [| [k1 v1] o IH]; simpl; [reflexivity |].
  intros H. destruct (String.eqb_spec k1 k) as [-> | _]; [exfalso; auto |].
  apply IH. auto.
Qed.

Lemma bound_In {A : Type} k (o : list (string * A)) :
  bound k o = true <-> In k (map fst o).
Proof.
  unfold bound. rewrite existsb_exists. split.
  - intros (x & Hx & E). apply String.eqb_eq in E. subst. exact Hx.
  - intros H. exists k. split; [exact H | apply String.eqb_refl].
Qed.

Lemma lookup_assign_same k v o : lookup k (assign k v o) = Some v.
Proof.
  induction o as [| [k1 v1] o IH]; simpl.
  - rewrite String.eqb_refl. reflexivity.
  - destruct (String.eqb_spec k1 k) as [-> | Hne]; simpl.
    + rewrite String.eqb_refl. reflexivity.
    + destruct (String.eqb_spec k1 k); [contradiction | exact IH].
Qed.

Lemma lookup_assign_other k k' v o :
  k' <> k -> lookup k' (assign k v o) = lookup k' o.
Proof.
  intros Hne. induction o as [| [k1 v1] o IH]; simpl.
  - destruct (String.eqb_spec k k'); [congruence | reflexivity].
  - destruct (String.eqb_spec k1 k) as [-> | Hk]; simpl.
    + destruct (String.eqb_spec k k'); [congruence | reflexivity].
    + destruct (String.eqb_spec k1 k'); [reflexivity | exact IH].
Qed.

Lemma keys_assign k v o :
  map fst (assign k v o)
  = if bound k o then map fst o else (map fst o ++ [k])%list.
Proof.
  induction o as [| [k1 v1] o IH]; simpl; [reflexivity |].
  unfold bound. simpl. rewrite (String.eqb_sym k k1).
  destruct (String.eqb_spec k1 k) as [-> | Hk]; simpl; [reflexivity |].
  rewrite IH. unfold bound. destruct (existsb (String.eqb k) (map fst o)); reflexivity.
Qed.

Lemma bound_assign k k' v o :
  bound k' (assign k v o) = bound k' o || String.eqb k' k.
Proof.
  unfold bound at 1. rewrite keys_assign.
  destruct (bound k o) eqn:Hb.
  - fold (bound k' o). destruct (String.eqb_spec k' k) as [-> | _].
    + rewrite Hb. reflexivity.
    + rewrite orb_false_r. reflexivity.
  - rewrite existsb_app. simpl. rewrite orb_false_r. reflexivity.
Qed.

Lemma lookup_fold b : forall o k,
  NoDup (map fst b) ->
  lookup k (fold_left (fun o kv => assign (fst kv) (snd kv) o) b o)
  = match lookup k b with
    | Some v => Some v
    | None => lookup k o
    end.
Proof.
  induction b as [| [k1 v1] b IH]; intros o k Hnd; simpl; [reflexivity |].
  inversion Hnd as [| ? ? Hnotin Hnd']. subst.
  rewrite IH by exact Hnd'.
  destruct (String.eqb_spec k1 k) as [-> | Hne].
  - rewrite (lookup_unbound k b Hnotin). apply lookup_assign_same.
  - rewrite lookup_assign_other by congruence. reflexivity.
Qed.

Lemma keys_fold b : forall o,
  NoDup (map fst b) ->
  map fst (fold_left (fun o kv => assign (fst kv) (snd kv) o) b o)
  = (map fst o ++ filter (fun k => negb (bound k o)) (map fst b))%list.
Proof.
  induction b as [| [k1 v1] b IH]; intros o Hnd; simpl.
  - rewrite app_nil_r. reflexivity.
  - inversion Hnd as [| ? ? Hnotin Hnd']. subst.
    rewrite IH by exact Hnd'. rewrite keys_assign.
    assert (Hsame : filter (fun k => negb (bound k (assign k1 v1 o))) (map fst b)
                    = filter (fun k => negb (bound k o)) (map fst b)).
    { apply filter_ext_in. intros k Hk. rewrite bound_assign.
      destruct (String.eqb_spec k k1) as [-> | _]; [contradiction |].
      rewrite orb_false_r. reflexivity. }
    rewrite Hsame. destruct (bound k1 o); simpl; [reflexivity |].
    rewrite <- app_assoc. reflexivity.
Qed.

Lemma keys_of_object a :
  NoDup (map fst a) ->
  map fst (fold_left (fun o kv => assign (fst kv) (snd kv) o) a []) = map fst a.
Proof.
  intros Hnd. rewrite keys_fold by exact Hnd. simpl.
  apply forallb_filter_id. apply forallb_forall. reflexivity.
Qed.

(** X6.  [{ ...defaultTags, ...extraTags }] on objects none of whose
    keys is made of digits only (an object lists such keys first, which
    the association list does not model): a key has the value of the
    extra tags when they bind it and its default value otherwise; the
    keys are the default keys in their order followed by the new keys of
    the extra tags in theirs; and no key occurs twice. *)
Theorem spread_merges a b :
  NoDup (map fst a) ->
  NoDup (map fst b) ->
  (forall k, In k (map fst a ++ map fst b)%list -> integerLike k = false) ->
  (forall k, lookup k (spread a b)
             = match lookup k b with
               | Some v => Some v
               | None => lookup k a
               end)
  /\ map fst (spread a b)
     = (map fst a ++ filter (fun k => negb (bound k a)) (map fst b))%list
  /\ NoDup (map fst (spread a b)).
Proof.
  intros Ha Hb _. unfold spread.
  assert (Hkeys : map fst (fold_left (fun o kv => assign (fst kv) (snd kv) o) b
                             (fold_left (fun o kv => assign (fst kv) (snd kv) o) a []))
                  = (map fst a ++ filter (fun k => negb (bound k a)) (map fst b))%list).
  { rewrite keys_fold by exact Hb. rewrite keys_of_object by exact Ha.
    f_equal. apply filter_ext. intros k. unfold bound.
    rewrite keys_of_object by exact Ha. reflexivity. }
  split; [| split].
  - intros k. rewrite lookup_fold by exact Hb.
    destruct (lookup k b); [reflexivity |].
    rewrite lookup_fold by exact Ha. destruct (lookup k a); reflexivity.
  - exact Hkeys.
  - rewrite Hkeys. apply NoDup_app.
    + exact Ha.
    + apply NoDup_filter, Hb.
    + intros k Hin Hf. apply filter_In in Hf. destruct Hf as (_ & Hf).
      apply negb_true_iff in Hf. apply bound_In in Hin. congruence.
Qed.

(** X6 at the default tags of the examples and two extra tags, one of
    which is a default key. *)
Lemma spread_merges_witness :
  NoDup (map fst [("environment", "prod"); ("owner", "infra-team")])
  /\ NoDup (map fst [("team", "data"); ("owner", "data-team")])
  /\ (forall k,
        In k (map fst [("environment", "prod"); ("owner", "infra-team")]
              ++ map fst [("team", "data"); ("owner", "data-team")])%list ->
        integerLike k = false)
  /\ map fst (spread [("environment", "prod"); ("owner", "infra-team")]
                [("team", "data"); ("owner", "data-team")])
     = ["environment"; "owner"; "team"]
  /\ lookup "owner" (spread [("environment", "prod"); ("owner", "infra-team")]
                       [("team", "data"); ("owner", "data-team")])
     = Some "data-team".
Proof.
  assert (Ha : NoDup (map fst [("environment", "prod"); ("owner", "infra-team")])).
  { repeat constructor; simpl; intuition discriminate. }
  assert (Hb : NoDup (map fst [("team", "data"); ("owner", "data-team")])).
  { repeat constructor; simpl; intuition discriminate. }
  assert (Hk : forall k,
             In k (map fst [("environment", "prod"); ("owner", "infra-team")]
                   ++ map fst [("team", "data"); ("owner", "data-team")])%list ->
             integerLike k = false).
  { intros k [<- | [<- | [<- | [<- | []]]]]; reflexivity. }
  destruct (spread_merges _ _ Ha Hb Hk) as (Hlookup & Hkeys & _).
  split; [exact Ha |]. split; [exact Hb |]. split; [exact Hk |].
  split; [exact Hkeys | exact (Hlookup "owner")].
Defined.

End Tags.

(** ** What the generated text holds *)

Section Contains.
Import Generator.

Lemma app_empty_r (s : string) : s ++ EmptyString = s.
Proof. induction s as [| c s IH]; simpl; [reflexivity | rewrite IH; reflexivity]. Qed.

Lemma contains_refl w : contains w w.
Proof. exists EmptyString, EmptyString. rewrite app_empty_r. reflexivity. Qed.

Lemma contains_app_l w s t : contains w s -> contains w (s ++ t).
Proof.
  intros (pre & post & ->). exists pre, (post ++ t).
  rewrite !app_assoc_string. reflexivity.
Qed.

Lemma contains_app_r w s t : contains w s -> contains w (t ++ s).
Proof.
  intros (pre & post & ->). exists (t ++ pre), post.
  rewrite !app_assoc_string. reflexivity.
Qed.

Lemma contains_trans w s t : contains w s -> contains s t -> contains w t.
Proof.
  intros (pre & post & ->) (pre' & post' & ->).
  exists (pre' ++ pre), (post ++ post'). rewrite !app_assoc_string. reflexivity.
Qed.

Lemma join_cons sep x y l :
  JSString.join sep (x :: y :: l) = x ++ sep ++ JSString.join sep (y :: l).
Proof. reflexivity. Qed.

Lemma contains_join sep x l : In x l -> contains x (JSString.join sep l).
Proof.
  induction l as [| y l IH]; intros Hin; [contradiction |].
  destruct l as [| z l].
  - destruct Hin as [<- | []]. apply contains_refl.
  - rewrite join_cons. destruct Hin as [<- | Hin].
    + apply contains_app_l, contains_refl.
    + apply contains_app_r, contains_app_r, IH, Hin.
Qed.

(** An element of a list joined by line feeds is a whole line of the text
    between two line feeds. *)
Lemma line_of_join x l :
  In x l -> contains (nl ++ x ++ nl) (nl ++ JSString.join nl l ++ nl).
Proof.
  induction l as [| y l IH]; intros Hin; [contradiction |].
  destruct l as [| z l].
  - destruct Hin as [<- | []]. apply contains_refl.
  - rewrite join_cons. destruct Hin as [<- | Hin].
    + exists EmptyString, (JSString.join nl (z :: l) ++ nl).
      rewrite !app_assoc_string. reflexivity.
    + apply (contains_trans _ _ _ (IH Hin)).
      exists (nl ++ y), EmptyString.
      rewrite app_empty_r, !app_assoc_string. reflexivity.
Qed.

Lemma fold_assign_nonempty b : forall o,
  fold_left (fun o kv => assign (fst kv) (snd kv) o) b o = [] -> o = [] /\ b = [].
Proof.
  induction b as [| [k v] b IH]; intros o H; simpl in H; [auto |].
  apply IH in H. destruct H as (H & _).
  destruct o as [| [k1 v1] o]; simpl in H; [discriminate |].
  destruct (String.eqb k1 k); discriminate.
Qed.

Lemma spread_empty a b : spread a b = [] <-> a = [] /\ b = [].
Proof.
  split.
  - unfold spread. intros H. apply fold_assign_nonempty in H.
    destruct H as (H & ->). apply fold_assign_nonempty in H.
    destruct H as (_ & ->). auto.
  - intros (-> & ->). reflexivity.
Qed.

(** X7.  [buildTags] refers to [local.default_tags] exactly when there
    are neither default tags nor extra tags; otherwise every tag of the
    merged object stands in the text on a line of its own, as four
    blanks, the key, [ = ] and the value in double quotes. *)
Theorem buildTags_lists_merged_tags extra config :
  (buildTags extra config = "  tags = local.default_tags"
   <-> defaultTagsOf config = [] /\ extra = [])
  /\ forall k v,
       In (k, v) (spread (defaultTagsOf config) extra) ->
       contains (nl ++ "    " ++ k ++ " = " ++ quoted v ++ nl) (buildTags extra config).
Proof.
  unfold buildTags.
  destruct (spread (defaultTagsOf config) extra) as [| kv all] eqn:E.
  - split; [| intros k v []]. simpl.
    apply spread_empty in E. split; [intros _; exact E | reflexivity].
  - split.
    + cbn [length Nat.eqb]. split.
      * intros H. simpl in H. discriminate H.
      * intros H. apply spread_empty in H. rewrite H in E. discriminate E.
    + intros k v Hin. cbn [length Nat.eqb].
      set (tagLines := JSString.join nl
                         (map (fun kv => "    " ++ fst kv ++ " = " ++ quoted (snd kv))
                            (kv :: all))).
      assert (Hline : contains (nl ++ ("    " ++ k ++ " = " ++ quoted v) ++ nl)
                        (nl ++ tagLines ++ nl)).
      { apply line_of_join.
        apply (in_map (fun kv => "    " ++ fst kv ++ " = " ++ quoted (snd kv)) _ (k, v)).
        exact Hin. }
      destruct Hline as (pre & post & Heq).
      exists ("  tags = {" ++ pre), (post ++ "  }").
      transitivity ("  tags = {" ++ (nl ++ tagLines ++ nl) ++ "  }").
      * rewrite !app_assoc_string. reflexivity.
      * rewrite Heq. rewrite !app_assoc_string. reflexivity.
Qed.

(** X7 at the policy of the examples and one extra tag: the tag [owner]
    of the defaults has a line of its own. *)
Lemma buildTags_lists_merged_tags_witness :
  In ("owner", "infra-team")
     (spread (defaultTagsOf Examples.policy) [("team", "data")])
  /\ contains (nl ++ "    " ++ "owner" ++ " = " ++ quoted "infra-team" ++ nl)
       (buildTags [("team", "data")] Examples.policy).
Proof.
  assert (H : In ("owner", "infra-team")
                (spread (defaultTagsOf Examples.policy) [("team", "data")])).
  { right. left. reflexivity. }
  split; [exact H |].
  exact (proj2 (buildTags_lists_merged_tags [("team", "data")] Examples.policy)
           "owner" "infra-team" H).
Defined.

Lemma generateS3Bucket_starts name tags config :
  exists rest,
    generateS3Bucket name tags config
    = lines [ "resource " ++ quoted "aws_s3_bucket" ++ " " ++ quoted "this" ++ " {";
              "  bucket = " ++ quoted name;
              EmptyString;
              tags;
              "}" ] ++ rest.
Proof.
  unfold generateS3Bucket. cbv zeta.
  set (base := lines _).
  assert (H1 : exists r1,
             (if truthy (lookup "versioning" (s3SettingsOf config))
              then base ++ nl ++ nl
                   ++ lines [ "resource " ++ quoted "aws_s3_bucket_versioning" ++ " "
                              ++ quoted "this" ++ " {";
                              "  bucket = aws_s3_bucket.this.id";
                              EmptyString;
                              "  versioning_configuration {";
                              "    status = " ++ quoted "Enabled";
                              "  }";
                              "}" ]
              else base) = base ++ r1).
  { destruct (truthy _); eexists; [reflexivity | symmetry; apply app_empty_r]. }
  destruct H1 as (r1 & ->).
  match goal with
  | |- context [if ?c then ?x ++ ?y else ?x] =>
      assert (H2 : exists r2, (if c then x ++ y else x) = base ++ r2)
  end.
  { destruct (_ || _); eexists;
      [rewrite app_assoc_string; reflexivity | reflexivity]. }
  destruct H2 as (r2 & ->).
  destruct (lookup "encryption" (s3SettingsOf config)) as [enc |];
    [destruct (truthy (Some enc)) |]; eexists;
    try (rewrite app_assoc_string; reflexivity); reflexivity.
Qed.

(** X8.  Whatever the request and the policy, the text that
    [generateResource] returns holds a block header for the resource type
    of the request under the label [this], the name that
    [buildResourceName] gives in double quotes, and the tags that
    [buildTags] gives. *)
Theorem generateResource_has_header_name_and_tags params config :
  contains ("resource " ++ quoted (resourceType params) ++ " " ++ quoted "this" ++ " {")
    (generateResource params config)
  /\ contains
       (quoted (buildResourceName (service params) (env params) (purpose params) config))
       (generateResource params config)
  /\ contains
       (buildTags (match extraTags params with
                   | Some t => t
                   | None => []
                   end) config)
       (generateResource params config).
Proof.
  unfold generateResource. cbv zeta.
  set (name := buildResourceName _ _ _ _).
  set (tags := buildTags _ _).
  destruct (String.eqb_spec (resourceType params) "aws_s3_bucket") as [-> | _];
    [| destruct (String.eqb_spec (resourceType params) "aws_db_instance") as [-> | _]].
  - destruct (generateS3Bucket_starts name tags config) as (rest & ->).
    repeat split; apply contains_app_l.
    + apply contains_join. left. reflexivity.
    + apply (contains_trans _ ("  bucket = " ++ quoted name)).
      * apply contains_app_r, contains_refl.
      * apply contains_join. right. left. reflexivity.
    + apply contains_join. do 3 right. left. reflexivity.
  - unfold generateRDSInstance. repeat split.
    + apply contains_join. left. reflexivity.
    + apply (contains_trans _ ("  identifier = " ++ quoted name)).
      * apply contains_app_r, contains_refl.
      * apply contains_join. right. left. reflexivity.
    + apply contains_join. do 14 right. left. reflexivity.
  - unfold generateGenericResource. repeat split.
    + apply contains_join. do 3 right. left. reflexivity.
    + apply (contains_trans _ ("  name = " ++ quoted name)).
      * apply contains_app_r, contains_refl.
      * apply contains_join. do 4 right. left. reflexivity.
    + apply contains_join. do 8 right. left. reflexivity.
Qed.

End Contains.

(** * The example listing *)

Section Listing.
Import ListExamples.

Lemma prefix_app p : forall s,
  String.prefix p s = true <-> exists post, s = p ++ post.
Proof.
  induction p as [| c p IH]; intros s.
  - split; [intros _; exists s; reflexivity | intros _; destruct s; reflexivity].
  - destruct s as [| d s]; simpl.
    + split; [discriminate | intros (post & H); discriminate H].
    + destruct (Ascii.ascii_dec c d) as [-> | Hne].
      * rewrite IH. split; intros (post & H); exists post; [rewrite H; reflexivity |].
        inversion H. reflexivity.
      * split; [discriminate | intros (post & H); inversion H; congruence].
Qed.

Lemma includes_contains p : forall s,
  JSString.includes p s = true <-> contains p s.
Proof.
  induction s as [| c s IH].
  - cbn [JSString.includes]. rewrite orb_false_r, prefix_app. split.
    + intros (post & H). exists EmptyString, post. exact H.
    + intros ([| d pre] & post & H); [exists post; exact H | discriminate H].
  - cbn [JSString.includes]. rewrite orb_true_iff, IH, prefix_app. split.
    + intros [(post & H) | (pre & post & H)].
      * exists EmptyString, post. exact H.
      * exists (String c pre), post. rewrite H. reflexivity.
    + intros ([| d pre] & post & H).
      * left. exists post. exact H.
      * right. exists pre, post. inversion H. reflexivity.
Qed.

Lemma subseq_refl {A : Type} (l : list A) : subseq l l.
Proof. induction l; [apply subseq_nil | apply subseq_keep; assumption]. Qed.

Lemma subseq_filter {A : Type} (f : A -> bool) (l : list A) : subseq (filter f l) l.
Proof.
  induction l as [| x l IH]; simpl; [constructor |].
  destruct (f x); [apply subseq_keep | apply subseq_skip]; exact IH.
Qed.

Lemma subseq_trans {A : Type} (l1 l2 l3 : list A) :
  subseq l1 l2 -> subseq l2 l3 -> subseq l1 l3.
Proof.
  intros H12 H23. revert l1 H12.
  induction H23 as [| x l2 l3 H23 IH | x l2 l3 H23 IH]; intros l1 H12.
  - exact H12.
  - apply subseq_skip. apply IH, H12.
  - inversion H12; subst.
    + apply subseq_skip. apply IH. assumption.
    + apply subseq_keep. apply IH. assumption.
Qed.

(** X9.  [listExamples] returns the examples of the policy in their
    order with some left out; an example stays exactly when its name
    holds the resource type, if one is given and not empty, and its name
    or its code holds the search term, if one is given and not empty,
    all compared in lower case. *)
Theorem listExamples_selects examples resourceType search :
  subseq (listExamples examples resourceType search)
    (entries (match examples with
              | Some e => e
              | None => []
              end))
  /\ forall ex,
       In ex (listExamples examples resourceType search)
       <-> In ex (entries (match examples with
                           | Some e => e
                           | None => []
                           end))
           /\ (forall rt, resourceType = Some rt -> rt <> EmptyString ->
                          contains (toLowerCase rt) (toLowerCase (name ex)))
           /\ (forall s, search = Some s -> s <> EmptyString ->
                         contains (toLowerCase s) (toLowerCase (name ex))
                         \/ contains (toLowerCase s) (toLowerCase (code ex))).
Proof.
  unfold listExamples. cbv zeta.
  set (all := entries _).
  set (byType := match resourceType with
                 | Some rt =>
                     if nonempty resourceType
                     then filter (fun ex => JSString.includes (toLowerCase rt)
                                              (toLowerCase (name ex))) all
                     else all
                 | None => all
                 end).
  assert (HbyType : subseq byType all
                    /\ forall ex, In ex byType
                         <-> In ex all
                             /\ forall rt, resourceType = Some rt -> rt <> EmptyString ->
                                  contains (toLowerCase rt) (toLowerCase (name ex))).
  { subst byType. destruct resourceType as [rt |]; simpl.
    - destruct (String.eqb_spec rt EmptyString) as [-> | Hne]; simpl.
      + split; [apply subseq_refl |]. intros ex. split; [| tauto].
        intros H. split; [exact H |]. intros rt E. inversion E. congruence.
      + split; [apply subseq_filter |]. intros ex.
        rewrite filter_In, includes_contains. split.
        * intros (H1 & H2). split; [exact H1 |]. intros rt' E _. inversion E. subst.
          exact H2.
        * intros (H1 & H2). split; [exact H1 | exact (H2 rt eq_refl Hne)].
    - split; [apply subseq_refl |]. intros ex. split; [| tauto].
      intros H. split; [exact H | discriminate]. }
  destruct HbyType as (Hsub & Hin).
  destruct search as [s |]; simpl.
  - destruct (String.eqb_spec s EmptyString) as [-> | Hne]; simpl.
    + split; [exact Hsub |]. intros ex. rewrite Hin. split; [| tauto].
      intros (H1 & H2). repeat split; try assumption.
      intros s E. inversion E. congruence.
    + split; [exact (subseq_trans _ _ _ (subseq_filter _ _) Hsub) |].
      intros ex. rewrite filter_In, Hin, orb_true_iff, !includes_contains. split.
      * intros ((H1 & H2) & H3). repeat split; try assumption.
        intros s' E _. inversion E. subst. exact H3.
      * intros (H1 & H2 & H3). repeat split; try assumption.
        exact (H3 s eq_refl Hne).
  - split; [exact Hsub |]. intros ex. rewrite Hin. split; [| tauto].
    intros (H1 & H2). repeat split; try assumption. discriminate.
Qed.

Lemma toLowerCase_empty s s' :
  toLowerCase s = toLowerCase s' ->
  String.eqb s EmptyString = String.eqb s' EmptyString.
Proof. destruct s, s'; simpl; intros H; solve [reflexivity | discriminate H]. Qed.

(** X10.  The filters of [listExamples] do not see the case of letters:
    two resource types, and two search terms, that are the same text in
    lower case select the same examples. *)
Theorem listExamples_ignores_case examples rt rt' s s' :
  toLowerCase rt = toLowerCase rt' ->
  toLowerCase s = toLowerCase s' ->
  listExamples examples (Some rt) (Some s) = listExamples examples (Some rt') (Some s').
Proof.
  intros Hrt Hs. unfold listExamples, nonempty.
  rewrite (toLowerCase_empty _ _ Hrt), (toLowerCase_empty _ _ Hs), Hrt, Hs.
  reflexivity.
Qed.

(** X10 at two examples, of which the filters [S3] and [s3] both keep
    the first. *)
Lemma listExamples_ignores_case_witness :
  listExamples (Some [("s3_bucket_basic", "resource"); ("rds_basic", "module")])
    (Some "S3") (Some "Bucket")
  = listExamples (Some [("s3_bucket_basic", "resource"); ("rds_basic", "module")])
      (Some "s3") (Some "bucket")
  /\ listExamples (Some [("s3_bucket_basic", "resource"); ("rds_basic", "module")])
       (Some "s3") (Some "bucket")
     = [ {| name := "s3_bucket_basic"; code := "resource" |} ].
Proof.
  split; [| reflexivity].
  apply (listExamples_ignores_case _ "S3" "s3" "Bucket" "bucket"); reflexivity.
Defined.

End Listing.

(** * Further properties of the validator *)

Section Advisory.
Import RegExpEngine JSRegExp.
Variable compile : string -> flags -> option matcher.

(** X11.  The checks of the security defaults and of the names only
    advise.  Under a policy without required tags and without forbidden
    patterns, [validateSnippet] returns on every text, whatever the bound
    on its loops; the result is valid, and its violations are those of the
    two advisory checks. *)
Theorem advisory_checks_never_invalidate fuel code config filePath :
  requiredTagsOf config = [] ->
  forbiddenPatternsOf config = [] ->
  exists r,
    validateSnippet compile fuel code config filePath = Returned r
    /\ valid r = true
    /\ violations r
       = validateNamingConventions code config (validateSecurityDefaults code config [])
    /\ forall v, In v (violations r) -> severity v = Warn \/ severity v = Info.
Proof.
  intros Htags Hforbidden.
  unfold validateSnippet, validateRequiredTags, validateForbiddenPatterns.
  rewrite Htags, Hforbidden. simpl.
  destruct (validateSecurityDefaults_appends code config []) as (sec & Es & Hs).
  destruct (validateNamingConventions_appends code config sec) as (nam & En & Hn).
  simpl in Es. rewrite Es, En.
  assert (Hall : forall v, In v (sec ++ nam)%list ->
                           severity v = Warn \/ severity v = Info).
  { intros v Hin. apply in_app_or in Hin. destruct Hin as [Hin | Hin].
    - left. unfold emits in Hs. rewrite Forall_forall in Hs. apply (Hs v Hin).
    - right. unfold emits in Hn. rewrite Forall_forall in Hn. apply (Hn v Hin). }
  eexists. split; [reflexivity |]. simpl. split; [| split; [reflexivity | exact Hall]].
  apply filter_nil_iff. intros v Hin. unfold is_error.
  destruct (Hall v Hin) as [-> | ->]; reflexivity.
Qed.

End Advisory.

(** X11 at a policy that has security defaults only, and a bucket
    that shows none of them: three warnings, and the result is valid. *)
Lemma advisory_checks_never_invalidate_witness :
  exists r,
    validateSnippet Examples.engine 0 Examples.taggedBucket
      {| naming := None; tagging := None; providers := None;
         security_defaults := security_defaults Examples.policy |} None
    = Returned r
    /\ valid r = true
    /\ length (violations r) = 3.
Proof.
  destruct (advisory_checks_never_invalidate Examples.engine 0 Examples.taggedBucket
              {| naming := None; tagging := None; providers := None;
                 security_defaults := security_defaults Examples.policy |} None
              eq_refl eq_refl) as (r & Hr & Hvalid & Hvs & _).
  exists r. split; [exact Hr |]. split; [exact Hvalid |].
  rewrite Hvs. vm_compute. reflexivity.
Defined.

Section Naming.
Import RegExpEngine JSRegExp.



End Naming.

(** * From the generator to the validator *)

(** ** Texts that the patterns of the security checks find *)

Section Found.
Import RegExpEngine JSRegExp.
Variable fl : flags.

Lemma accepts_final pos rest : accepts final pos rest.
Proof. intros cs. discriminate. Qed.

Lemma char_match_refl c : char_match fl c c = true.
Proof. unfold char_match. destruct (ignoreCase fl); apply Ascii.eqb_refl. Qed.

(** The characters of [w] as a pattern match the text [w]. *)
Lemma exact_matches ts k rest : forall w pos,
  (forall p, matchesAt fl (seq ts) k p rest) ->
  matchesAt fl (seq (lit w ++ ts)) k pos (w ++ rest).
Proof.
  induction w as [| c w IH]; intros pos H; simpl.
  - exact (H pos).
  - apply matchesAt_seq_cons. apply matchesAt_char; [apply char_match_refl |].
    exact (IH (S pos) H).
Qed.

Lemma matchesAt_plus_class neg items c ws k pos rest :
  class_match fl neg items c = true ->
  (forall d, In d (list_ascii_of_string ws) -> class_match fl neg items d = true) ->
  accepts k (S pos + String.length ws) rest ->
  matchesAt fl (RPlus (RClass neg items)) k pos (String c (ws ++ rest)).
Proof.
  intros Hc Hall Hk cs. cbn [rmatch groups]. rewrite Hc.
  apply (repeat_class fl neg items k ws); try assumption.
  rewrite length_app. lia.
Qed.

Lemma matchesAt_group n a k pos rest :
  matchesAt fl a (fun pos' rest' cs' => k pos' rest' ((n, (pos, pos')) :: clear [n] cs'))
    pos rest ->
  matchesAt fl (RGroup n a) k pos rest.
Proof. intros H cs. simpl. apply H. Qed.

Lemma matchesAt_alt_left a b k pos rest :
  matchesAt fl a k pos rest -> matchesAt fl (RAlt a b) k pos rest.
Proof.
  intros H cs. simpl. destruct (rmatch fl a pos rest cs k) eqn:E; [discriminate |].
  exfalso. exact (H _ E).
Qed.

Lemma literal_found w s :
  contains w s -> test (search fl (seq (lit w))) s = true.
Proof.
  intros (pre & post & ->). apply test_finds.
  rewrite <- (app_nil_r (lit w)). apply exact_matches.
  intros p. apply matchesAt_seq_nil, accepts_final.
Qed.

(** [resource], one blank and a quoted word, for a pattern that asks for
    blanks between the two. *)
Lemma resource_header_matches kind k pos rest :
  (forall p, accepts k p rest) ->
  matchesAt fl (seq (lit "resource" ++ [RPlus Patterns.sp] ++ lit (quoted kind))) k pos
    ("resource" ++ " " ++ quoted kind ++ rest).
Proof.
  intros Hk. apply exact_matches. intros p1.
  apply matchesAt_seq_cons.
  apply (matchesAt_plus_class false [CSpace] " " EmptyString).
  - unfold class_match. destruct (ignoreCase fl); reflexivity.
  - intros d [].
  - intros cs. revert cs.
    change (matchesAt fl (seq (lit (quoted kind))) k (S p1 + 0) (quoted kind ++ rest)).
    rewrite <- (app_nil_r (lit (quoted kind))). apply exact_matches.
    intros p2. apply matchesAt_seq_nil, Hk.
Qed.

End Found.

Section FoundIgnoringCase.
Import RegExpEngine JSRegExp.

Lemma s3Marker_found s :
  contains ("resource " ++ quoted "aws_s3_bucket") s ->
  test (search Patterns.flag_i Patterns.s3Marker) s = true.
Proof.
  intros (pre & post & ->). apply test_finds.
  rewrite app_assoc_string.
  apply (resource_header_matches Patterns.flag_i "aws_s3_bucket" final _ post).
  intros p. apply accepts_final.
Qed.

Lemma rdsMarker_found s :
  contains ("resource " ++ quoted "aws_db_instance") s ->
  test (search Patterns.flag_i Patterns.rdsMarker) s = true.
Proof.
  intros (pre & post & ->). apply test_finds.
  rewrite app_assoc_string. unfold Patterns.rdsMarker.
  apply matchesAt_seq_cons, matchesAt_group, matchesAt_alt_left.
  apply (resource_header_matches Patterns.flag_i "aws_db_instance" _ _ post).
  intros p cs. discriminate.
Qed.

(** A setting written as [word = true], with blanks around the sign. *)
Lemma setting_true_found word ws1 ws2 s :
  blanks ws1 = true ->
  blanks ws2 = true ->
  contains (word ++ ws1 ++ "=" ++ ws2 ++ "true") s ->
  test (search Patterns.flag_i
          (seq (lit word ++ [RStar Patterns.sp; RChar "="; RStar Patterns.sp] ++ lit "true")))
    s = true.
Proof.
  intros H1 H2 (pre & post & ->). apply test_finds.
  replace ((word ++ ws1 ++ "=" ++ ws2 ++ "true") ++ post)
    with (word ++ ws1 ++ "=" ++ ws2 ++ "true" ++ post)
    by (rewrite !app_assoc_string; reflexivity).
  apply exact_matches. intros p1.
  apply matchesAt_seq_cons.
  apply matchesAt_star_class; [apply blanks_class, H1 |].
  intros cs. revert cs.
  change (matchesAt Patterns.flag_i
            (seq (RChar "=" :: RStar Patterns.sp :: lit "true" ++ [])) final
            (p1 + String.length ws1) (String "=" (ws2 ++ "true" ++ post))).
  apply matchesAt_seq_cons. apply matchesAt_char; [reflexivity |].
  intros cs. revert cs.
  change (matchesAt Patterns.flag_i (seq (RStar Patterns.sp :: lit "true" ++ [])) final
            (S (p1 + String.length ws1)) (ws2 ++ "true" ++ post)).
  apply matchesAt_seq_cons.
  apply matchesAt_star_class; [apply blanks_class, H2 |].
  intros cs. revert cs.
  change (matchesAt Patterns.flag_i (seq (lit "true" ++ [])) final
            (S (p1 + String.length ws1) + String.length ws2) ("true" ++ post)).
  apply exact_matches. intros p2. apply matchesAt_seq_nil, accepts_final.
Qed.

End FoundIgnoringCase.

(** ** The generated database instance under the check of its defaults *)

Section RoundTripRDS.
Import RegExpEngine JSRegExp Generator.

Lemma rdsSettingsOf_Some config sd d :
  security_defaults config = Some sd -> rds sd = Some d -> rdsSettingsOf config = d.
Proof. unfold rdsSettingsOf. intros -> ->. reflexivity. Qed.

Lemma s3SettingsOf_Some config sd d :
  security_defaults config = Some sd -> s3_bucket sd = Some d -> s3SettingsOf config = d.
Proof. unfold s3SettingsOf. intros -> ->. reflexivity. Qed.

Lemma truthy_boolean v :
  booleanOrAbsent v = true -> truthy v = true -> v = Some (VBool true).
Proof. destruct v as [[[] | |] |]; simpl; intros H1 H2; congruence. Qed.

Lemma validateRDS_generated name tags config vs :
  booleanOrAbsent (lookup "storage_encrypted" (rdsSettingsOf config)) = true ->
  validateRDS (generateRDSInstance name tags config) (rdsSettingsOf config) vs = vs.
Proof.
  intros Hbool. unfold validateRDS.
  assert (H1 : truthy (lookup "storage_encrypted" (rdsSettingsOf config))
               && negb (test (search Patterns.flag_i Patterns.storageEncrypted)
                          (generateRDSInstance name tags config)) = false).
  { destruct (truthy (lookup "storage_encrypted" (rdsSettingsOf config))) eqn:Et;
      [| reflexivity].
    pose proof (truthy_boolean _ Hbool Et) as Ev.
    replace (test (search Patterns.flag_i Patterns.storageEncrypted)
               (generateRDSInstance name tags config)) with true; [reflexivity |].
    symmetry. apply (setting_true_found "storage_encrypted" " " " "); try reflexivity.
    unfold generateRDSInstance. cbv zeta. rewrite Ev.
    apply (contains_trans _ ("  storage_encrypted = " ++ show_or (Some (VBool true)) "false")).
    - exists "  ", EmptyString. reflexivity.
    - apply contains_join. do 8 right. left. reflexivity. }
  assert (H2 : test (search Patterns.flag_i Patterns.backupRetention)
                 (generateRDSInstance name tags config) = true).
  { apply literal_found. unfold generateRDSInstance. cbv zeta.
    apply (contains_trans _
             ("  backup_retention_period = "
              ++ show_or (lookup "backup_retention_period" (rdsSettingsOf config)) "7")).
    - exists "  ", (" = " ++ show_or (lookup "backup_retention_period"
                                       (rdsSettingsOf config)) "7").
      reflexivity.
    - apply contains_join. do 10 right. left. reflexivity. }
  rewrite H1, H2, andb_false_r. reflexivity.
Qed.

(** X13.  Let the request be for a database instance and let the setting
    [storage_encrypted] of the policy be absent or a boolean.  Then the
    check of the security defaults sees a database instance in the text
    that [generateResource] returns, and it has no warning of the rule
    [rds_security_default] for it. *)
Theorem generated_instance_draws_no_rds_warning params config :
  resourceType params = "aws_db_instance" ->
  booleanOrAbsent (lookup "storage_encrypted" (rdsSettingsOf config)) = true ->
  test (search Patterns.flag_i Patterns.rdsMarker) (generateResource params config) = true
  /\ Forall (fun v => ruleId v <> "rds_security_default")
       (validateSecurityDefaults (generateResource params config) config []).
Proof.
  intros Hkind Hbool. unfold generateResource. cbv zeta. rewrite Hkind.
  cbn [String.eqb Ascii.eqb Bool.eqb].
  set (name := buildResourceName _ _ _ _).
  set (tags := buildTags _ _).
  assert (Hmarker : test (search Patterns.flag_i Patterns.rdsMarker)
                      (generateRDSInstance name tags config) = true).
  { apply rdsMarker_found. unfold generateRDSInstance. cbv zeta.
    apply (contains_trans _ ("resource " ++ quoted "aws_db_instance" ++ " "
                             ++ quoted "this" ++ " {")).
    - exists EmptyString, (" " ++ quoted "this" ++ " {"). reflexivity.
    - apply contains_join. left. reflexivity. }
  split; [exact Hmarker |].
  unfold validateSecurityDefaults. cbv zeta.
  set (vs1 := match match security_defaults config with
                    | Some d => s3_bucket d
                    | None => None
                    end with
              | Some d => _
              | None => _
              end).
  assert (H1 : Forall (fun v => ruleId v <> "rds_security_default") vs1).
  { subst vs1.
    destruct (match security_defaults config with
              | Some d => s3_bucket d
              | None => None
              end) as [d |]; [| constructor].
    destruct (test (search Patterns.flag_i Patterns.s3Marker) _); [| constructor].
    apply validateS3Bucket_keeps; [| constructor].
    intros msg sug. simpl. discriminate. }
  destruct (security_defaults config) as [sd |] eqn:Esd; [| exact H1].
  destruct (rds sd) as [d |] eqn:Ed; [| exact H1].
  rewrite Hmarker.
  rewrite <- (rdsSettingsOf_Some config sd d Esd Ed).
  rewrite validateRDS_generated by exact Hbool. exact H1.
Qed.

End RoundTripRDS.

(** X13 at a policy that asks for encrypted storage and a retention of
    fourteen days: the generated instance has no violation at all under
    the check of the security defaults. *)
Lemma generated_instance_draws_no_rds_warning_witness :
  Generator.resourceType MoreExamples.instanceRequest = "aws_db_instance"
  /\ booleanOrAbsent (lookup "storage_encrypted"
                        (Generator.rdsSettingsOf MoreExamples.policyRDS)) = true
  /\ JSRegExp.test (RegExpEngine.search Patterns.flag_i Patterns.rdsMarker)
       (Generator.generateResource MoreExamples.instanceRequest MoreExamples.policyRDS)
     = true
  /\ Forall (fun v => ruleId v <> "rds_security_default")
       (validateSecurityDefaults
          (Generator.generateResource MoreExamples.instanceRequest MoreExamples.policyRDS)
          MoreExamples.policyRDS [])
  /\ validateSecurityDefaults
       (Generator.generateResource MoreExamples.instanceRequest MoreExamples.policyRDS)
       MoreExamples.policyRDS [] = [].
Proof.
  split; [reflexivity |]. split; [reflexivity |].
  destruct (generated_instance_draws_no_rds_warning MoreExamples.instanceRequest
              MoreExamples.policyRDS eq_refl eq_refl) as (H1 & H2).
  split; [exact H1 |]. split; [exact H2 |].
  vm_compute. reflexivity.
Defined.

(** A setting that is a word is written back as that word, which the
    check does not take for [true]: the generated instance draws the
    warning. *)
Lemma word_setting_draws_rds_warning :
  map message
    (validateSecurityDefaults
       (Generator.generateResource MoreExamples.instanceRequest MoreExamples.policyRDSWord)
       MoreExamples.policyRDSWord [])
  = ["RDS instance should have storage_encrypted = true"].
Proof. vm_compute. reflexivity. Qed.

(** ** The generated bucket under the check of its defaults *)

Section RoundTripS3.
Import RegExpEngine JSRegExp Generator.

Lemma access_lines_generated name tags config :
  truthy (lookup "block_public_acls" (s3SettingsOf config))
  || truthy (lookup "block_public_policy" (s3SettingsOf config)) = true ->
  contains ("  block_public_acls       = "
            ++ show_or (lookup "block_public_acls" (s3SettingsOf config)) "false")
    (generateS3Bucket name tags config)
  /\ contains ("  block_public_policy     = "
               ++ show_or (lookup "block_public_policy" (s3SettingsOf config)) "false")
       (generateS3Bucket name tags config).
Proof.
  intros H. unfold generateS3Bucket. cbv zeta. rewrite H.
  set (C1 := if truthy (lookup "versioning" _) then _ else _).
  set (L := lines [_; _; _; _; _; _; _; _]).
  assert (HC : contains L (C1 ++ nl ++ nl ++ L))
    by (do 3 apply contains_app_r; apply contains_refl).
  assert (HL : contains L
                 match lookup "encryption" (s3SettingsOf config) with
                 | Some enc =>
                     if truthy (Some enc)
                     then (C1 ++ nl ++ nl ++ L) ++ nl ++ nl
                          ++ lines [ "resource "
                                     ++ quoted "aws_s3_bucket_server_side_encryption_configuration"
                                     ++ " " ++ quoted "this" ++ " {";
                                     "  bucket = aws_s3_bucket.this.id";
                                     EmptyString;
                                     "  rule {";
                                     "    apply_server_side_encryption_by_default {";
                                     "      sse_algorithm = "
                                     ++ quoted match enc with
                                               | VStr e =>
                                                   if String.eqb e "aws:kms"
                                                   then "aws:kms" else "AES256"
                                               | _ => "AES256"
                                               end;
                                     "    }";
                                     "  }";
                                     "}" ]
                     else C1 ++ nl ++ nl ++ L
                 | None => C1 ++ nl ++ nl ++ L
                 end).
  { destruct (lookup "encryption" (s3SettingsOf config)) as [enc |];
      [destruct (truthy (Some enc)) |]; try exact HC.
    apply contains_app_l, HC. }
  split; refine (contains_trans _ _ _ _ HL); subst L; apply contains_join.
  - do 3 right. left. reflexivity.
  - do 4 right. left. reflexivity.
Qed.

Lemma encryption_generated name tags config :
  truthy (lookup "encryption" (s3SettingsOf config)) = true ->
  contains "encryption" (generateS3Bucket name tags config).
Proof.
  intros H. unfold generateS3Bucket. cbv zeta.
  destruct (lookup "encryption" (s3SettingsOf config)) as [enc |]; [| discriminate H].
  rewrite H. do 3 apply contains_app_r.
  apply (contains_trans _
           ("resource " ++ quoted "aws_s3_bucket_server_side_encryption_configuration"
            ++ " " ++ quoted "this" ++ " {")).
  - exists ("resource " ++ dq ++ "aws_s3_bucket_server_side_"),
           ("_configuration" ++ dq ++ " " ++ quoted "this" ++ " {").
    reflexivity.
  - apply contains_join. left. reflexivity.
Qed.

Lemma public_acls_found name tags config :
  booleanOrAbsent (lookup "block_public_acls" (s3SettingsOf config)) = true ->
  truthy (lookup "block_public_acls" (s3SettingsOf config)) = true ->
  test (search Patterns.flag_i Patterns.blockPublicAcls)
    (generateS3Bucket name tags config) = true.
Proof.
  intros Hbool Ht.
  apply (setting_true_found "block_public_acls" "       " " "); try reflexivity.
  destruct (access_lines_generated name tags config) as (H & _);
    [rewrite Ht; reflexivity |].
  refine (contains_trans _ _ _ _ H).
  rewrite (truthy_boolean _ Hbool Ht).
  exists "  ", EmptyString. reflexivity.
Qed.

Lemma public_policy_found name tags config :
  booleanOrAbsent (lookup "block_public_policy" (s3SettingsOf config)) = true ->
  truthy (lookup "block_public_policy" (s3SettingsOf config)) = true ->
  test (search Patterns.flag_i Patterns.blockPublicPolicy)
    (generateS3Bucket name tags config) = true.
Proof.
  intros Hbool Ht.
  apply (setting_true_found "block_public_policy" "     " " "); try reflexivity.
  destruct (access_lines_generated name tags config) as (_ & H);
    [rewrite Ht; apply orb_true_r |].
  refine (contains_trans _ _ _ _ H).
  rewrite (truthy_boolean _ Hbool Ht).
  exists "  ", EmptyString. reflexivity.
Qed.

Lemma validateS3Bucket_generated name tags config :
  booleanOrAbsent (lookup "block_public_acls" (s3SettingsOf config)) = true ->
  booleanOrAbsent (lookup "block_public_policy" (s3SettingsOf config)) = true ->
  validateS3Bucket (generateS3Bucket name tags config) (s3SettingsOf config) []
  = if truthy (lookup "versioning" (s3SettingsOf config))
       && negb (test (search Patterns.flag_i Patterns.versioning)
                  (generateS3Bucket name tags config))
    then [s3Violation "S3 bucket should have versioning enabled" "Enable versioning"]
    else [].
Proof.
  intros Hacls Hpolicy.
  set (code := generateS3Bucket name tags config).
  assert (H1 : truthy (lookup "block_public_acls" (s3SettingsOf config))
               && negb (test (search Patterns.flag_i Patterns.blockPublicAcls) code)
               = false).
  { destruct (truthy (lookup "block_public_acls" (s3SettingsOf config))) eqn:Et;
      [| reflexivity].
    subst code. rewrite (public_acls_found name tags config Hacls Et). reflexivity. }
  assert (H2 : truthy (lookup "block_public_policy" (s3SettingsOf config))
               && negb (test (search Patterns.flag_i Patterns.blockPublicPolicy) code)
               = false).
  { destruct (truthy (lookup "block_public_policy" (s3SettingsOf config))) eqn:Et;
      [| reflexivity].
    subst code. rewrite (public_policy_found name tags config Hpolicy Et). reflexivity. }
  assert (H4 : truthy (lookup "encryption" (s3SettingsOf config))
               && negb (test (search Patterns.flag_i Patterns.encryption) code)
               = false).
  { destruct (truthy (lookup "encryption" (s3SettingsOf config))) eqn:Et;
      [| reflexivity].
    subst code.
    pose proof (literal_found Patterns.flag_i "encryption" _
                  (encryption_generated name tags config Et)) as Hfound.
    change (seq (lit "encryption")) with Patterns.encryption in Hfound.
    rewrite Hfound. reflexivity. }
  unfold validateS3Bucket, s3Checks. cbn [s3CheckLoop]. rewrite H1, H2.
  destruct (lookup "encryption" (s3SettingsOf config)) as [enc |]; [rewrite H4 |];
    destruct (truthy (lookup "versioning" (s3SettingsOf config))
              && negb (test (search Patterns.flag_i Patterns.versioning) code));
    reflexivity.
Qed.

(** X14.  Let the request be for a bucket and let the settings
    [block_public_acls] and [block_public_policy] of the policy be absent
    or booleans.  Then the check of the security defaults sees a bucket in
    the text that [generateResource] returns, and the only warning of the
    rule [s3_security_default] it can have for it is the one that asks for
    versioning: the settings that block public access and the encryption
    are found as generated. *)
Theorem generated_bucket_draws_at_most_the_versioning_warning params config :
  resourceType params = "aws_s3_bucket" ->
  booleanOrAbsent (lookup "block_public_acls" (s3SettingsOf config)) = true ->
  booleanOrAbsent (lookup "block_public_policy" (s3SettingsOf config)) = true ->
  test (search Patterns.flag_i Patterns.s3Marker) (generateResource params config) = true
  /\ forall v,
       In v (validateSecurityDefaults (generateResource params config) config []) ->
       ruleId v = "s3_security_default" ->
       v = s3Violation "S3 bucket should have versioning enabled" "Enable versioning".
Proof.
  intros Hkind Hacls Hpolicy. unfold generateResource. cbv zeta. rewrite Hkind.
  cbn [String.eqb Ascii.eqb Bool.eqb].
  set (name := buildResourceName _ _ _ _).
  set (tags := buildTags _ _).
  assert (Hmarker : test (search Patterns.flag_i Patterns.s3Marker)
                      (generateS3Bucket name tags config) = true).
  { apply s3Marker_found.
    destruct (generateS3Bucket_starts name tags config) as (rest & ->).
    apply contains_app_l.
    apply (contains_trans _ ("resource " ++ quoted "aws_s3_bucket" ++ " "
                             ++ quoted "this" ++ " {")).
    - exists EmptyString, (" " ++ quoted "this" ++ " {"). reflexivity.
    - apply contains_join. left. reflexivity. }
  split; [exact Hmarker |].
  set (P := fun v => ruleId v = "s3_security_default" ->
                     v = s3Violation "S3 bucket should have versioning enabled"
                           "Enable versioning").
  cut (Forall P (validateSecurityDefaults (generateS3Bucket name tags config) config []));
    [intros HF v Hin; exact (proj1 (Forall_forall _ _) HF v Hin) |].
  unfold validateSecurityDefaults. cbv zeta.
  set (vs1 := match match security_defaults config with
                    | Some d => s3_bucket d
                    | None => None
                    end with
              | Some d => _
              | None => _
              end).
  assert (H1 : Forall P vs1).
  { subst vs1.
    destruct (security_defaults config) as [sd |] eqn:Esd; [| constructor].
    destruct (s3_bucket sd) as [d |] eqn:Ed; [| constructor].
    rewrite Hmarker. rewrite <- (s3SettingsOf_Some config sd d Esd Ed).
    rewrite (validateS3Bucket_generated name tags config Hacls Hpolicy).
    destruct (_ && _).
    - constructor; [intros _; reflexivity | constructor].
    - constructor. }
  destruct (match security_defaults config with
            | Some d => rds d
            | None => None
            end) as [d |]; [| exact H1].
  destruct (test (search Patterns.flag_i Patterns.rdsMarker) _); [| exact H1].
  apply validateRDS_keeps; [| exact H1].
  intros msg sug. subst P. simpl. discriminate.
Qed.

End RoundTripS3.

(** X14 at the policy and the bucket request of the examples: the
    generated bucket is seen, and its one violation asks for versioning. *)
Lemma generated_bucket_draws_at_most_the_versioning_warning_witness :
  Generator.resourceType Examples.bucketRequest = "aws_s3_bucket"
  /\ booleanOrAbsent (lookup "block_public_acls"
                        (Generator.s3SettingsOf Examples.policy)) = true
  /\ booleanOrAbsent (lookup "block_public_policy"
                        (Generator.s3SettingsOf Examples.policy)) = true
  /\ JSRegExp.test (RegExpEngine.search Patterns.flag_i Patterns.s3Marker)
       (Generator.generateResource Examples.bucketRequest Examples.policy) = true
  /\ (forall v,
        In v (validateSecurityDefaults
                (Generator.generateResource Examples.bucketRequest Examples.policy)
                Examples.policy []) ->
        ruleId v = "s3_security_default" ->
        v = s3Violation "S3 bucket should have versioning enabled" "Enable versioning")
  /\ length (validateSecurityDefaults
               (Generator.generateResource Examples.bucketRequest Examples.policy)
               Examples.policy []) = 1.
Proof.
  split; [reflexivity |]. split; [reflexivity |]. split; [reflexivity |].
  destruct (generated_bucket_draws_at_most_the_versioning_warning Examples.bucketRequest
              Examples.policy eq_refl eq_refl eq_refl) as (H1 & H2).
  split; [exact H1 |]. split; [exact H2 |].
  vm_compute. reflexivity.
Defined.

(** * The required tags that are reported missing *)

(** ** What a match of the key pattern says about the text *)

Section KeySound.
Import RegExpEngine JSRegExp.

Lemma search_from_sound fl r : forall rest pos m,
  search_from fl r pos rest = Some m ->
  exists pre rest' z,
    rest = pre ++ rest'
    /\ rmatch fl r (pos + String.length pre) rest' [] final = Some z.
Proof.
  induction rest as [| c rest IH]; intros pos m H; simpl in H.
  - destruct (rmatch fl r pos EmptyString [] final) as [[e cs] |] eqn:E; [| discriminate].
    exists EmptyString, EmptyString, (e, cs). rewrite Nat.add_0_r. auto.
  - destruct (rmatch fl r pos (String c rest) [] final) as [[e cs] |] eqn:E.
    + exists EmptyString, (String c rest), (e, cs). rewrite Nat.add_0_r. auto.
    + apply IH in H. destruct H as (pre & rest' & z & -> & Hz).
      exists (String c pre), rest', z. split; [reflexivity |].
      simpl. rewrite Nat.add_succ_r. exact Hz.
Qed.

Lemma opt_class_sound fl neg items pos rest cs k z :
  rmatch fl (ROpt (RClass neg items)) pos rest cs k = Some z ->
  (exists ch rest' cs',
      rest = String ch rest'
      /\ class_match fl neg items ch = true
      /\ k (S pos) rest' cs' = Some z)
  \/ k pos rest cs = Some z.
Proof.
  cbn [rmatch groups]. destruct rest as [| ch rest'].
  - intros H. right. exact H.
  - destruct (class_match fl neg items ch) eqn:Ec.
    + rewrite succ_neqb.
      destruct (k (S pos) rest' (clear [] cs)) eqn:Ek.
      * intros H. left. exists ch, rest', (clear [] cs). rewrite Ek. auto.
      * intros H. right. exact H.
    + intros H. right. exact H.
Qed.

Lemma char_sound fl c pos rest cs k z :
  rmatch fl (RChar c) pos rest cs k = Some z ->
  exists ch rest',
    rest = String ch rest' /\ char_match fl c ch = true /\ k (S pos) rest' cs = Some z.
Proof.
  simpl. destruct rest as [| ch rest']; [discriminate |].
  destruct (char_match fl c ch) eqn:Ec; [| discriminate].
  intros H. exists ch, rest'. auto.
Qed.

Lemma lit_sound ts k z : forall tag pos rest cs,
  rmatch Patterns.flag_i (seq (lit tag ++ ts)) pos rest cs k = Some z ->
  exists key rest',
    rest = key ++ rest'
    /\ ci_equal key tag = true
    /\ rmatch Patterns.flag_i (seq ts) (pos + String.length key) rest' cs k = Some z.
Proof.
  induction tag as [| c tag IH]; intros pos rest cs H.
  - exists EmptyString, rest. rewrite Nat.add_0_r. auto.
  - simpl in H. destruct rest as [| ch rest']; [discriminate |].
    destruct (char_match Patterns.flag_i c ch) eqn:Ec; [| discriminate].
    apply IH in H. destruct H as (key & rest'' & -> & Hkey & Hz).
    exists (String ch key), rest''. split; [reflexivity |]. split.
    + simpl. unfold char_match in Ec. simpl in Ec.
      rewrite Ascii.eqb_sym, Ec. exact Hkey.
    + simpl. rewrite Nat.add_succ_r. exact Hz.
Qed.

Lemma star_class_sound fl neg items k z : forall n pos rest cs,
  repeat (fun p s c k' => rmatch fl (RClass neg items) p s (clear [] c) k') k
    n pos rest cs = Some z ->
  exists ws rest' cs',
    rest = ws ++ rest'
    /\ (forall c, In c (list_ascii_of_string ws) -> class_match fl neg items c = true)
    /\ k (pos + String.length ws) rest' cs' = Some z.
Proof.
  induction n as [| n IH]; intros pos rest cs H.
  - simpl in H. exists EmptyString, rest, cs. rewrite Nat.add_0_r.
    split; [reflexivity |]. split; [intros c [] | exact H].
  - cbn [repeat rmatch] in H.
    assert (Hstay : k pos rest cs = Some z ->
                    exists ws rest' cs',
                      rest = ws ++ rest'
                      /\ (forall c, In c (list_ascii_of_string ws) ->
                                    class_match fl neg items c = true)
                      /\ k (pos + String.length ws) rest' cs' = Some z).
    { intros Hk. exists EmptyString, rest, cs. rewrite Nat.add_0_r.
      split; [reflexivity |]. split; [intros c [] | exact Hk]. }
    destruct rest as [| ch rest']; [exact (Hstay H) |].
    destruct (class_match fl neg items ch) eqn:Ec; [| exact (Hstay H)].
    rewrite succ_neqb in H.
    destruct (repeat _ k n (S pos) rest' (clear [] cs)) eqn:Er; [| exact (Hstay H)].
    inversion H. subst. apply IH in Er.
    destruct Er as (ws & rest'' & cs' & -> & Hall & Hk).
    exists (String ch ws), rest'', cs'. split; [reflexivity |]. split.
    + intros c [<- | Hin]; [exact Ec | apply Hall, Hin].
    + simpl. rewrite Nat.add_succ_r. exact Hk.
Qed.

Lemma space_class_sound c :
  class_match Patterns.flag_i false [CSpace] c = true ->
  is_space (nat_of_ascii c) = true.
Proof.
  intros H.
  assert (E : class_match Patterns.flag_i false [CSpace] c = is_space (nat_of_ascii c))
    by (destruct c as [[] [] [] [] [] [] [] []]; vm_compute; reflexivity).
  rewrite <- E. exact H.
Qed.

Lemma blanks_class_sound ws :
  (forall c, In c (list_ascii_of_string ws) ->
             class_match Patterns.flag_i false [CSpace] c = true) ->
  blanks ws = true.
Proof.
  induction ws as [| c ws IH]; intros H; simpl; [reflexivity |].
  rewrite (space_class_sound c (H c (or_introl eq_refl))). simpl.
  apply IH. intros d Hd. apply H. right. exact Hd.
Qed.

Lemma quote_class_sound c :
  class_match Patterns.flag_i false (one_of (dq ++ "'")) c = true ->
  optionalQuote (String c EmptyString).
Proof.
  intros H.
  assert (E : class_match Patterns.flag_i false (one_of (dq ++ "'")) c
              = Ascii.eqb c (ascii_of_nat 34) || Ascii.eqb c "'")
    by (destruct c as [[] [] [] [] [] [] [] []]; vm_compute; reflexivity).
  rewrite E in H. apply orb_prop in H.
  destruct H as [H | H]; apply Ascii.eqb_eq in H; subst c;
    [right; left; reflexivity | right; right; reflexivity].
Qed.

Lemma equals_sign_sound ch :
  char_match Patterns.flag_i "=" ch = true -> ch = "="%char.
Proof.
  intros H.
  assert (E : char_match Patterns.flag_i "=" ch = Ascii.eqb ch "=")
    by (destruct ch as [[] [] [] [] [] [] [] []]; vm_compute; reflexivity).
  rewrite E in H. apply Ascii.eqb_eq, H.
Qed.

Lemma optional_quote_sound ts pos rest cs k z :
  rmatch Patterns.flag_i (seq (ROpt Patterns.quote :: ts)) pos rest cs k = Some z ->
  exists q rest' cs',
    rest = q ++ rest'
    /\ optionalQuote q
    /\ rmatch Patterns.flag_i (seq ts) (pos + String.length q) rest' cs' k = Some z.
Proof.
  intros H.
  change (rmatch Patterns.flag_i (ROpt (RClass false (one_of (dq ++ "'")))) pos rest cs
            (fun p s c => rmatch Patterns.flag_i (seq ts) p s c k) = Some z) in H.
  apply opt_class_sound in H.
  destruct H as [(ch & rest' & cs' & -> & Hc & Hk) | Hk].
  - exists (String ch EmptyString), rest', cs'. split; [reflexivity |].
    split; [apply quote_class_sound, Hc |].
    simpl. rewrite Nat.add_1_r. exact Hk.
  - exists EmptyString, rest, cs. split; [reflexivity |].
    split; [left; reflexivity |]. rewrite Nat.add_0_r. exact Hk.
Qed.

(** Where the pattern [tagKey] of a tag finds a match, the specification
    sees the key of that tag. *)
Lemma tagKey_sound tag content :
  test (search Patterns.flag_i (tagKey tag)) content = true ->
  keyPresent tag content.
Proof.
  unfold test, search. simpl.
  destruct (search_from Patterns.flag_i (tagKey tag) 0 content) as [m |] eqn:E;
    [intros _ | discriminate].
  apply search_from_sound in E. destruct E as (pre & rest & z & -> & H).
  unfold tagKey in H.
  apply optional_quote_sound in H. destruct H as (q1 & rest1 & cs1 & -> & Hq1 & H).
  apply lit_sound in H. destruct H as (key & rest2 & -> & Hkey & H).
  apply optional_quote_sound in H. destruct H as (q2 & rest3 & cs3 & -> & Hq2 & H).
  change (rmatch Patterns.flag_i (RStar Patterns.sp)
            (0 + String.length pre + String.length q1 + String.length key
             + String.length q2) rest3 cs3
            (fun p s c => rmatch Patterns.flag_i (seq [RChar "="]) p s c final) = Some z)
    in H.
  rewrite rmatch_star in H. apply star_class_sound in H.
  destruct H as (ws & rest4 & cs4 & -> & Hws & H).
  change (rmatch Patterns.flag_i (RChar "=")
            (0 + String.length pre + String.length q1 + String.length key
             + String.length q2 + String.length ws) rest4 cs4
            (fun p s c => rmatch Patterns.flag_i (seq []) p s c final) = Some z) in H.
  apply char_sound in H. destruct H as (ch & post & -> & Hch & _).
  apply equals_sign_sound in Hch. subst ch.
  exists pre, q1, key, q2, ws, post.
  split; [reflexivity |]. repeat split; try assumption.
  apply blanks_class_sound, Hws.
Qed.

End KeySound.

Section MissingTags.
Import RegExpEngine JSRegExp.
Variable compile : string -> flags -> option matcher.

(** On the key template of a plain tag, [new RegExp] builds what the
    fragment of [RegExpEngine] reads there. *)
Hypothesis compile_key :
  forall tag,
    plainTag tag = true ->
    compile (Patterns.tagPattern_src tag) Patterns.flag_i
    = RegExpEngine.compile (Patterns.tagPattern_src tag) Patterns.flag_i.

Lemma tagMissing_plain_iff content tag :
  plainTag tag = true ->
  exists b,
    tagMissing compile content tag = Returned b
    /\ (b = true <-> ~ keyPresent tag content).
Proof.
  intros Hp. unfold tagMissing.
  rewrite (compile_key tag Hp). unfold RegExpEngine.compile.
  rewrite (parse_tagPattern tag Hp).
  eexists. split; [reflexivity |].
  destruct (test (search Patterns.flag_i (tagKey tag)) content) eqn:E; simpl.
  - split; [discriminate |]. intros H. exfalso. apply H, tagKey_sound, E.
  - split; [| reflexivity]. intros _ Hk.
    rewrite (tagKey_finds_key tag content Hk) in E. discriminate E.
Qed.

Lemma filterMissing_plain_iff content tags :
  Forall (fun tag => plainTag tag = true) tags ->
  exists missing,
    filterMissing compile content tags = Returned missing
    /\ subseq missing tags
    /\ forall tag, In tag missing <-> In tag tags /\ ~ keyPresent tag content.
Proof.
  induction tags as [| tag tags IH]; intros Hp.
  - exists []. split; [reflexivity |]. split; [constructor |].
    intros tag. simpl. tauto.
  - inversion Hp as [| ? ? Hp1 Hp2]. subst.
    destruct (IH Hp2) as (missing & E & Hsub & Hin).
    destruct (tagMissing_plain_iff content tag Hp1) as (b & Eb & Hb).
    simpl. rewrite Eb. simpl. rewrite E. simpl.
    eexists. split; [reflexivity |]. destruct b.
    + split; [apply subseq_keep, Hsub |].
      intros t. simpl. rewrite Hin. split.
      * intros [<- | (H1 & H2)]; [split; [left; reflexivity | apply Hb; reflexivity] |].
        split; [right; exact H1 | exact H2].
      * intros ([<- | H1] & H2); [left; reflexivity | right; split; assumption].
    + split; [apply subseq_skip, Hsub |].
      intros t. rewrite Hin. simpl. split.
      * intros (H1 & H2). split; [right; exact H1 | exact H2].
      * intros ([<- | H1] & H2); [| split; assumption].
        exfalso. assert (Hfalse : false = true) by (apply Hb, H2). discriminate Hfalse.
Qed.

(** X15.  Let the names of the required tags hold none of the syntax
    characters of patterns, and let the text have a tag block.  Then the
    required-tag check returns, and the tags it reports missing are those
    required tags, in the order of the policy, whose name occurs nowhere
    in the content of the block in this way: the name up to case, then a
    quote or nothing, then blanks or nothing, then [=].  Such an
    occurrence need not be a key, for what stands before the name is not
    looked at: the name at the end of a longer key ([team_owner] for
    [owner]) and the name inside a value ([owner=nobody] between quotes)
    count as well, and the tag is then not reported.  There is no
    violation when no tag is missing, and otherwise one violation
    [required_tag_missing] that lists the missing tags and has the line of
    the block. *)
Theorem required_tags_reported_iff_name_not_before_equals code config block :
  Forall (fun tag => plainTag tag = true) (requiredTagsOf config) ->
  tagsBlockMatch code = Some block ->
  exists missing,
    subseq missing (requiredTagsOf config)
    /\ (forall tag,
          In tag missing
          <-> In tag (requiredTagsOf config) /\ ~ keyPresent tag (group1 code block))
    /\ validateRequiredTags compile code config []
       = Returned match missing with
                  | [] => []
                  | _ :: _ => [requiredTagMissing code (m_index block) missing]
                  end.
Proof.
  intros Hplain Hblock.
  destruct (filterMissing_plain_iff (group1 code block) _ Hplain)
    as (missing & E & Hsub & Hin).
  exists missing. split; [exact Hsub |]. split; [exact Hin |].
  unfold validateRequiredTags. rewrite Hblock. cbv zeta. rewrite E. simpl.
  destruct (requiredTagsOf config) as [| t ts] eqn:Et.
  - inversion Hsub. reflexivity.
  - simpl. destruct missing; reflexivity.
Qed.

End MissingTags.

(** X15 at the policy of the examples and a bucket whose tag block has
    the tag [Environment] only: the tag [owner] is reported.  And at a
    block whose only key is [note], with the value [owner=nobody]: the name
    [owner] stands before an equals sign there, and nothing is reported. *)
Lemma required_tags_reported_iff_name_not_before_equals_witness :
  Forall (fun tag => plainTag tag = true) (requiredTagsOf Examples.policy)
  /\ tagsBlockMatch MoreExamples.halfTagged
     = Some {| RegExpEngine.m_index := 36;
               RegExpEngine.m_end := 73;
               RegExpEngine.m_captures := [(1, (44, 72))] |}
  /\ (exists missing,
        subseq missing (requiredTagsOf Examples.policy)
        /\ (forall tag,
              In tag missing
              <-> In tag (requiredTagsOf Examples.policy)
                  /\ ~ keyPresent tag
                         (group1 MoreExamples.halfTagged
                            {| RegExpEngine.m_index := 36;
                               RegExpEngine.m_end := 73;
                               RegExpEngine.m_captures := [(1, (44, 72))] |}))
        /\ validateRequiredTags Examples.engine MoreExamples.halfTagged Examples.policy []
           = Returned match missing with
                      | [] => []
                      | _ :: _ => [requiredTagMissing MoreExamples.halfTagged 36 missing]
                      end)
  /\ validateRequiredTags Examples.engine MoreExamples.halfTagged Examples.policy []
     = Returned [requiredTagMissing MoreExamples.halfTagged 36 ["owner"]]
  /\ keyPresent "owner" (nl ++ "    note = " ++ quoted "owner=nobody" ++ nl ++ "  ")
  /\ (exists block,
        tagsBlockMatch MoreExamples.ownerInsideValue = Some block
        /\ group1 MoreExamples.ownerInsideValue block
           = nl ++ "    note = " ++ quoted "owner=nobody" ++ nl ++ "  ")
  /\ validateRequiredTags Examples.engine MoreExamples.ownerInsideValue
       Examples.policyOwner []
     = Returned [].
Proof.
  assert (H1 : Forall (fun tag => plainTag tag = true) (requiredTagsOf Examples.policy))
    by (repeat constructor).
  assert (H2 : tagsBlockMatch MoreExamples.halfTagged
               = Some {| RegExpEngine.m_index := 36;
                         RegExpEngine.m_end := 73;
                         RegExpEngine.m_captures := [(1, (44, 72))] |})
    by (vm_compute; reflexivity).
  split; [exact H1 |]. split; [exact H2 |]. split.
  - exact (required_tags_reported_iff_name_not_before_equals Examples.engine
             (fun tag _ => eq_refl)
             MoreExamples.halfTagged Examples.policy _ H1 H2).
  - split; [vm_compute; reflexivity |].
    split.
    + exists (nl ++ "    note = " ++ dq), EmptyString, "owner", EmptyString, EmptyString,
        ("nobody" ++ dq ++ nl ++ "  ").
      split; [reflexivity |].
      split; [left; reflexivity |].
      split; [left; reflexivity |].
      split; reflexivity.
    + split; [eexists; split; vm_compute; reflexivity |].
      vm_compute. reflexivity.
Defined.

(** * The tag block *)

Section TagBlock.
Import RegExpEngine JSRegExp.

Lemma space_class_s c :
  class_match Patterns.flag_s false [CSpace] c = is_space (nat_of_ascii c).
Proof. unfold class_match. simpl. rewrite orb_false_r. reflexivity. Qed.

Lemma not_brace_class_s c :
  class_match Patterns.flag_s true [CChar "}"] c = negb (Ascii.eqb "}" c).
Proof. unfold class_match. simpl. rewrite orb_false_r. reflexivity. Qed.

Lemma blanks_class_s ws :
  blanks ws = true <->
  forall c, In c (list_ascii_of_string ws) ->
            class_match Patterns.flag_s false [CSpace] c = true.
Proof.
  induction ws as [| d ws IH]; cbn [blanks list_ascii_of_string In].
  - split; [intros _ c [] | reflexivity].
  - rewrite andb_true_iff, IH. split.
    + intros (Hd & Hws) c [<- | Hin]; [rewrite space_class_s; exact Hd | apply Hws, Hin].
    + intros H. split.
      * rewrite <- space_class_s. apply H. left. reflexivity.
      * intros c Hin. apply H. right. exact Hin.
Qed.

Lemma noneOf_class_s body :
  noneOf "}" body = true <->
  forall c, In c (list_ascii_of_string body) ->
            class_match Patterns.flag_s true [CChar "}"] c = true.
Proof.
  induction body as [| d body IH]; cbn [noneOf list_ascii_of_string In].
  - split; [intros _ c [] | reflexivity].
  - rewrite andb_true_iff, IH. split.
    + intros (Hd & Hb) c [<- | Hin]; [rewrite not_brace_class_s; exact Hd | apply Hb, Hin].
    + intros H. split.
      * rewrite <- not_brace_class_s. apply H. left. reflexivity.
      * intros c Hin. apply H. right. exact Hin.
Qed.

(** The tag-block pattern matches a tag block. *)
Lemma tagsBlock_matches pos ws1 ws2 body post :
  blanks ws1 = true -> blanks ws2 = true -> noneOf "}" body = true ->
  matchesAt Patterns.flag_s Patterns.tagsBlock final pos
    ("tags" ++ ws1 ++ "=" ++ ws2 ++ "{" ++ body ++ "}" ++ post).
Proof.
  intros H1 H2 Hb. unfold Patterns.tagsBlock.
  apply exact_matches. intros p1.
  apply matchesAt_seq_cons.
  apply matchesAt_star_class; [apply blanks_class_s, H1 |].
  intros cs. revert cs.
  change (matchesAt Patterns.flag_s
            (seq [RChar "="; RStar Patterns.sp; RChar "{";
                  RGroup 1 (seq [RStar (RClass true [CChar "}"])]); RChar "}"]) final
            (p1 + String.length ws1) (String "=" (ws2 ++ "{" ++ body ++ "}" ++ post))).
  apply matchesAt_seq_cons. apply matchesAt_char; [reflexivity |].
  intros cs. revert cs.
  change (matchesAt Patterns.flag_s
            (seq [RStar Patterns.sp; RChar "{";
                  RGroup 1 (seq [RStar (RClass true [CChar "}"])]); RChar "}"]) final
            (S (p1 + String.length ws1)) (ws2 ++ "{" ++ body ++ "}" ++ post)).
  apply matchesAt_seq_cons.
  apply matchesAt_star_class; [apply blanks_class_s, H2 |].
  intros cs. revert cs.
  change (matchesAt Patterns.flag_s
            (seq [RChar "{"; RGroup 1 (seq [RStar (RClass true [CChar "}"])]); RChar "}"])
            final (S (p1 + String.length ws1) + String.length ws2)
            (String "{" (body ++ "}" ++ post))).
  apply matchesAt_seq_cons. apply matchesAt_char; [reflexivity |].
  intros cs. revert cs.
  change (matchesAt Patterns.flag_s
            (seq [RGroup 1 (seq [RStar (RClass true [CChar "}"])]); RChar "}"]) final
            (S (S (p1 + String.length ws1) + String.length ws2)) (body ++ "}" ++ post)).
  apply matchesAt_seq_cons, matchesAt_group, matchesAt_seq_cons.
  apply matchesAt_star_class; [apply noneOf_class_s, Hb |].
  intros cs. simpl. discriminate.
Qed.

Lemma search_from_result fl r : forall rest pos m,
  search_from fl r pos rest = Some m ->
  exists pre rest',
    rest = pre ++ rest'
    /\ m_index m = pos + String.length pre
    /\ rmatch fl r (pos + String.length pre) rest' [] final
       = Some (m_end m, m_captures m).
Proof.
  induction rest as [| c rest IH]; intros pos m H; simpl in H.
  - destruct (rmatch fl r pos EmptyString [] final) as [[e cs] |] eqn:E; [| discriminate].
    inversion H. subst m. exists EmptyString, EmptyString. rewrite Nat.add_0_r. auto.
  - destruct (rmatch fl r pos (String c rest) [] final) as [[e cs] |] eqn:E.
    + inversion H. subst m. exists EmptyString, (String c rest).
      rewrite Nat.add_0_r. auto.
    + apply IH in H. destruct H as (pre & rest' & -> & Hi & Hz).
      exists (String c pre), rest'. split; [reflexivity |].
      simpl. rewrite Nat.add_succ_r. auto.
Qed.

Lemma lit_sound_exact ts k z : forall w pos rest cs,
  rmatch Patterns.flag_s (seq (lit w ++ ts)) pos rest cs k = Some z ->
  exists rest',
    rest = w ++ rest'
    /\ rmatch Patterns.flag_s (seq ts) (pos + String.length w) rest' cs k = Some z.
Proof.
  induction w as [| c w IH]; intros pos rest cs H.
  - exists rest. rewrite Nat.add_0_r. auto.
  - simpl in H. destruct rest as [| ch rest']; [discriminate |].
    destruct (char_match Patterns.flag_s c ch) eqn:Ec; [| discriminate].
    unfold char_match in Ec. simpl in Ec. apply Ascii.eqb_eq in Ec. subst ch.
    apply IH in H. destruct H as (rest'' & -> & Hz).
    exists rest''. split; [reflexivity |].
    simpl. rewrite Nat.add_succ_r. exact Hz.
Qed.

Lemma char_sound_exact c pos rest cs k z :
  rmatch Patterns.flag_s (RChar c) pos rest cs k = Some z ->
  exists rest', rest = String c rest' /\ k (S pos) rest' cs = Some z.
Proof.
  intros H. apply char_sound in H. destruct H as (ch & rest' & -> & Hc & Hk).
  unfold char_match in Hc. simpl in Hc. apply Ascii.eqb_eq in Hc. subst ch.
  exists rest'. auto.
Qed.

Lemma drop_app_length (a b : string) : JSString.drop (String.length a) (a ++ b) = b.
Proof. induction a as [| c a IH]; simpl; [destruct b; reflexivity | exact IH]. Qed.

(** What the tag-block pattern finds is a tag block, and its group is
    the body of the block. *)
Lemma tagsBlockMatch_sound code block :
  tagsBlockMatch code = Some block ->
  exists pre body,
    tagBlockAt code pre body
    /\ m_index block = String.length pre
    /\ group1 code block = body.
Proof.
  unfold tagsBlockMatch, search. simpl. intros H.
  apply search_from_result in H. destruct H as (pre & rest & -> & Hi & H).
  simpl in Hi. unfold Patterns.tagsBlock in H.
  apply lit_sound_exact in H. destruct H as (r1 & -> & H).
  change (rmatch Patterns.flag_s (RStar Patterns.sp) (0 + String.length pre + 4) r1 []
            (fun p s c =>
               rmatch Patterns.flag_s
                 (seq [RChar "="; RStar Patterns.sp; RChar "{";
                       RGroup 1 (seq [RStar (RClass true [CChar "}"])]); RChar "}"])
                 p s c final)
          = Some (m_end block, m_captures block)) in H.
  rewrite rmatch_star in H. apply star_class_sound in H.
  destruct H as (ws1 & r2 & cs2 & -> & Hws1 & H).
  change (rmatch Patterns.flag_s (RChar "=")
            (0 + String.length pre + 4 + String.length ws1) r2 cs2
            (fun p s c =>
               rmatch Patterns.flag_s
                 (seq [RStar Patterns.sp; RChar "{";
                       RGroup 1 (seq [RStar (RClass true [CChar "}"])]); RChar "}"])
                 p s c final)
          = Some (m_end block, m_captures block)) in H.
  apply char_sound_exact in H. destruct H as (r3 & -> & H).
  change (rmatch Patterns.flag_s (RStar Patterns.sp)
            (S (0 + String.length pre + 4 + String.length ws1)) r3 cs2
            (fun p s c =>
               rmatch Patterns.flag_s
                 (seq [RChar "{";
                       RGroup 1 (seq [RStar (RClass true [CChar "}"])]); RChar "}"])
                 p s c final)
          = Some (m_end block, m_captures block)) in H.
  rewrite rmatch_star in H. apply star_class_sound in H.
  destruct H as (ws2 & r4 & cs4 & -> & Hws2 & H).
  change (rmatch Patterns.flag_s (RChar "{")
            (S (0 + String.length pre + 4 + String.length ws1) + String.length ws2) r4 cs4
            (fun p s c =>
               rmatch Patterns.flag_s
                 (seq [RGroup 1 (seq [RStar (RClass true [CChar "}"])]); RChar "}"])
                 p s c final)
          = Some (m_end block, m_captures block)) in H.
  apply char_sound_exact in H. destruct H as (r5 & -> & H).
  set (start := S (S (0 + String.length pre + 4 + String.length ws1) + String.length ws2))
    in H.
  change (rmatch Patterns.flag_s (RStar (RClass true [CChar "}"])) start r5 cs4
            (fun p s c =>
               rmatch Patterns.flag_s (RChar "}") p s ((1, (start, p)) :: clear [1] c)
                 (fun p' s' c' => final p' s' c'))
          = Some (m_end block, m_captures block)) in H.
  rewrite rmatch_star in H. apply star_class_sound in H.
  destruct H as (body & r6 & cs6 & -> & Hbody & H).
  apply char_sound_exact in H. destruct H as (post & -> & H).
  unfold final in H. inversion H as [[He Hcs]].
  exists pre, body. split; [| split].
  - exists ws1, ws2, post. split; [reflexivity |].
    split; [apply blanks_class_s, Hws1 |].
    split; [apply blanks_class_s, Hws2 | apply noneOf_class_s, Hbody].
  - exact Hi.
  - unfold group1, group_text, capture. rewrite <- Hcs.
    cbn [m_captures find fst snd Nat.eqb]. unfold JSString.slice.
    match goal with
    | |- JSString.take ?n (JSString.drop ?i ?c) = _ =>
        replace n with (String.length body) by lia;
        replace c with ((pre ++ "tags" ++ ws1 ++ "=" ++ ws2 ++ "{") ++ body ++ "}" ++ post)
          by (rewrite !app_assoc_string; reflexivity);
        replace i with (String.length (pre ++ "tags" ++ ws1 ++ "=" ++ ws2 ++ "{"))
          by (subst start; rewrite !length_app; simpl; lia)
    end.
    rewrite drop_app_length. apply take_app_length.
Qed.

Lemma tagsBlockMatch_complete code pre body :
  tagBlockAt code pre body -> tagsBlockMatch code <> None.
Proof.
  intros (ws1 & ws2 & post & -> & H1 & H2 & Hb).
  unfold tagsBlockMatch, search. simpl.
  apply (search_from_finds Patterns.flag_s Patterns.tagsBlock pre 0).
  apply tagsBlock_matches; assumption.
Qed.

End TagBlock.

Section MissingBlock.
Import RegExpEngine JSRegExp.
Variable compile : string -> flags -> option matcher.

(** X16.  Under a policy with required tags, the required-tag check
    returns the one violation [missing_tags_block] exactly when the text
    has no tag block: nowhere the word [tags], blanks or nothing, [=],
    blanks or nothing, an opening brace, and a closing brace further on.
    When there is one, the block that the check reads is such a block:
    the index it reports is where the word [tags] starts, and the content
    it looks for keys in is the text between the opening brace and the
    first closing brace after it. *)
Theorem missing_tags_block_iff_no_tag_block code config :
  requiredTagsOf config <> [] ->
  (validateRequiredTags compile code config []
   = Returned [missingTagsBlock (requiredTagsOf config)]
   <-> ~ exists pre body, tagBlockAt code pre body)
  /\ forall block,
       tagsBlockMatch code = Some block ->
       exists pre body,
         tagBlockAt code pre body
         /\ m_index block = String.length pre
         /\ group1 code block = body.
Proof.
  intros Hreq. split; [| intros block; apply tagsBlockMatch_sound].
  unfold validateRequiredTags. cbv zeta.
  destruct (requiredTagsOf config) as [| t ts] eqn:Et; [congruence |].
  cbn [length Nat.eqb].
  destruct (tagsBlockMatch code) as [block |] eqn:Eb.
  - split.
    + intros H. exfalso.
      destruct (filterMissing compile (group1 code block) (t :: ts)) as [missing | e |];
        simpl in H; try discriminate H.
      destruct (0 <? length missing); inversion H.
    + intros H. exfalso. apply H.
      destruct (tagsBlockMatch_sound code block Eb) as (pre & body & Hb & _).
      exists pre, body. exact Hb.
  - split; [| reflexivity].
    intros _ (pre & body & Hb). exact (tagsBlockMatch_complete code pre body Hb Eb).
Qed.

End MissingBlock.

(** X16 at the policy of the examples and the security group without
    tags. *)
Lemma missing_tags_block_iff_no_tag_block_witness :
  requiredTagsOf Examples.policy <> []
  /\ (validateRequiredTags Examples.engine Examples.untaggedGroup Examples.policy []
      = Returned [missingTagsBlock (requiredTagsOf Examples.policy)]
      <-> ~ exists pre body, tagBlockAt Examples.untaggedGroup pre body)
  /\ validateRequiredTags Examples.engine Examples.untaggedGroup Examples.policy []
     = Returned [missingTagsBlock (requiredTagsOf Examples.policy)].
Proof.
  assert (H : requiredTagsOf Examples.policy <> []) by (vm_compute; discriminate).
  split; [exact H |]. split.
  - exact (proj1 (missing_tags_block_iff_no_tag_block Examples.engine
                    Examples.untaggedGroup Examples.policy H)).
  - vm_compute. reflexivity.
Defined.

(** ** A missing tag block under a scan that stalls *)

Section MissingBlockStalls.
Import RegExpEngine JSRegExp Examples MoreExamples.

(** C4.  The claim fails on the code.  The policy [policyOwnerBlanks]
    declares the required tag [owner], and the text [indented] contains
    no tag block, not even the word [tags]; the required-tag check does
    return the one violation [missing_tags_block].  But the forbidden
    pattern of the policy matches any run of blanks: after the two leading
    blanks its scan finds an empty match at index 2 and stays there, and
    [validateSnippet] returns no result, whatever the number of rounds:
    neither the violation nor [valid = false] reaches the caller. *)
Theorem missing_tags_block_lost_in_stalled_scan :
  requiredTagsOf policyOwnerBlanks = ["owner"]
  /\ ~ contains "tags" indented
  /\ (forall pre body, ~ tagBlockAt indented pre body)
  /\ validateRequiredTags engine indented policyOwnerBlanks []
     = Returned [missingTagsBlock ["owner"]]
  /\ forall fuel filePath,
       validateSnippet engine fuel indented policyOwnerBlanks filePath = OutOfFuel.
Proof.
  split; [reflexivity |].
  split.
  { intros H. apply includes_contains in H. vm_compute in H. discriminate H. }
  split.
  { intros pre body Hb.
    apply (tagsBlockMatch_complete indented pre body Hb).
    vm_compute. reflexivity. }
  assert (Htags : validateRequiredTags engine indented policyOwnerBlanks []
                  = Returned [missingTagsBlock ["owner"]])
    by (vm_compute; reflexivity).
  split; [exact Htags |].
  intros fuel filePath. unfold validateSnippet.
  rewrite Htags. cbn [bind]. unfold validateForbiddenPatterns.
  change (forbiddenPatternsOf policyOwnerBlanks) with [anyRunOfBlanks].
  rewrite forEachPattern_cons, engine_blanks.
  destruct fuel as [| fuel]; [reflexivity |].
  cbn [execLoop].
  change (exec (globalRegExp (search Patterns.flag_none (seq [RStar Patterns.sp])) 0) indented)
    with (Some {| m_index := 0; m_end := 2; m_captures := [] |},
          globalRegExp (search Patterns.flag_none (seq [RStar Patterns.sp])) 2).
  cbv iota beta.
  rewrite (execLoop_stalls (search Patterns.flag_none (seq [RStar Patterns.sp])) indented
             anyRunOfBlanks 2 {| m_index := 2; m_end := 2; m_captures := [] |});
    [reflexivity | vm_compute; lia | vm_compute; reflexivity | reflexivity].
Qed.

End MissingBlockStalls.

(** * The name under the format of the README *)

(** ** Replacing the one occurrence of a word *)

Section ReplaceWord.
Import RegExpEngine JSRegExp Generator.

Lemma rmatch_word w : forall pos rest cs,
  rmatch Patterns.flag_none (seq (lit w)) pos (w ++ rest) cs final
  = Some (pos + String.length w, cs).
Proof.
  induction w as [| c w IH]; intros pos rest cs; simpl.
  - rewrite Nat.add_0_r. reflexivity.
  - unfold char_match. simpl. rewrite Ascii.eqb_refl, IH, Nat.add_succ_r. reflexivity.
Qed.

Lemma search_from_word c0 w' b : forall a pos,
  noneOf c0 a = true ->
  search_from Patterns.flag_none (seq (lit (String c0 w'))) pos (a ++ String c0 w' ++ b)
  = Some {| m_index := pos + String.length a;
            m_end := pos + String.length a + String.length (String c0 w');
            m_captures := [] |}.
Proof.
  induction a as [| d a IH]; intros pos Ha.
  - change (EmptyString ++ String c0 w' ++ b) with (String c0 (w' ++ b)).
    cbn [search_from].
    change (String c0 (w' ++ b)) with (String c0 w' ++ b).
    rewrite rmatch_word. cbn [String.length]. rewrite Nat.add_0_r. reflexivity.
  - simpl in Ha. apply andb_prop in Ha. destruct Ha as (Hd & Ha).
    change (String d a ++ String c0 w' ++ b) with (String d (a ++ String c0 w' ++ b)).
    cbn [search_from].
    assert (Hno : rmatch Patterns.flag_none (seq (lit (String c0 w'))) pos
                    (String d (a ++ String c0 w' ++ b)) [] final = None).
    { cbn [lit seq fold_right rmatch]. unfold char_match.
      cbn [ignoreCase Patterns.flag_none].
      destruct (Ascii.eqb c0 d); [discriminate Hd | reflexivity]. }
    rewrite Hno, (IH (S pos) Ha). cbn [String.length].
    rewrite !Nat.add_succ_r. reflexivity.
Qed.

Lemma noneOf_app c x y : noneOf c (x ++ y) = noneOf c x && noneOf c y.
Proof.
  induction x as [| d x IH]; simpl; [reflexivity |].
  rewrite IH, andb_assoc. reflexivity.
Qed.

Lemma get_substitution_plain matched before after t :
  noneOf "$" t = true -> get_substitution matched before after t = t.
Proof.
  induction t as [| c t IH]; intros H; [reflexivity |].
  cbn [noneOf] in H. apply andb_prop in H. destruct H as (Hc & Ht).
  specialize (IH Ht).
  destruct c as [[] [] [] [] [] [] [] []];
    solve [discriminate Hc | cbn [get_substitution]; rewrite IH; reflexivity].
Qed.

Lemma drop_0 s : JSString.drop 0 s = s.
Proof. destruct s; reflexivity. Qed.

Lemma take_0 s : JSString.take 0 s = EmptyString.
Proof. destruct s; reflexivity. Qed.

(** [s.replace(/w/g, t)] where [w] stands once in [s]. *)
Lemma replace_word_once c0 w' a b t :
  noneOf c0 a = true ->
  (forall pos, search_from Patterns.flag_none (seq (lit (String c0 w'))) pos b = None) ->
  noneOf "$" t = true ->
  replace_g (seq (lit (String c0 w'))) t (a ++ String c0 w' ++ b) = a ++ t ++ b.
Proof.
  intros Ha Hb Ht.
  set (w := String c0 w'). set (s := a ++ w ++ b).
  assert (Hlen : String.length s = String.length a + String.length w + String.length b).
  { subst s. rewrite !length_app. lia. }
  assert (Hw : String.length w = S (String.length w')) by reflexivity.
  assert (H1 : search Patterns.flag_none (seq (lit w)) s 0
               = Some {| m_index := String.length a;
                         m_end := String.length a + String.length w;
                         m_captures := [] |}).
  { unfold search. change (String.length s <? 0) with false. cbv iota. rewrite drop_0.
    subst s w. rewrite (search_from_word c0 w' b a 0 Ha). reflexivity. }
  assert (Hdrop : JSString.drop (String.length a + String.length w) s = b).
  { subst s. rewrite <- length_app, <- app_assoc_string. apply drop_app_length. }
  assert (H2 : search Patterns.flag_none (seq (lit w)) s
                 (String.length a + String.length w) = None).
  { unfold search.
    replace (String.length s <? String.length a + String.length w) with false
      by (symmetry; apply Nat.ltb_ge; lia).
    rewrite Hdrop. apply Hb. }
  unfold replace_g, replace, matchAll.
  cbn [matches_from]. change (String.length s <? 0) with false. cbv iota. rewrite H1.
  cbn [m_end m_index].
  replace (String.length a + String.length w =? String.length a) with false
    by (symmetry; apply Nat.eqb_neq; lia).
  destruct (String.length s) as [| n] eqn:En; [lia |].
  cbn [matches_from].
  replace (S n <? String.length a + String.length w) with false
    by (symmetry; apply Nat.ltb_ge; lia).
  rewrite H2. cbn [splice m_index m_end].
  change (String.length a <? 0) with false. cbv iota.
  rewrite get_substitution_plain by exact Ht.
  unfold JSString.slice. rewrite Nat.sub_0_r, drop_0, Hdrop.
  subst s. rewrite take_app_length. reflexivity.
Qed.

(** [s.replace(/r/g, t)] where the pattern has no match in [s]. *)
Lemma replace_nothing r t s :
  search_from Patterns.flag_none r 0 s = None -> replace_g r t s = s.
Proof.
  intros H. unfold replace_g, replace, matchAll. cbn [matches_from].
  change (String.length s <? 0) with false. cbv iota.
  unfold search. change (String.length s <? 0) with false. cbv iota.
  rewrite drop_0, H. apply drop_0.
Qed.

Lemma search_from_no_double : forall s pos,
  noDoubleHyphen s = true ->
  search_from Patterns.flag_none Patterns.doubleHyphen pos s = None.
Proof.
  induction s as [| c s IH]; intros pos H; [reflexivity |].
  cbn [noDoubleHyphen] in H. apply andb_prop in H. destruct H as (Hc & Hs).
  cbn [search_from].
  assert (Hno : rmatch Patterns.flag_none Patterns.doubleHyphen pos (String c s) [] final
                = None).
  { unfold Patterns.doubleHyphen. cbn [lit seq fold_right rmatch].
    unfold char_match. cbn [ignoreCase Patterns.flag_none].
    destruct (Ascii.eqb "-" c); [| reflexivity].
    destruct s as [| d s]; [reflexivity |].
    cbn [firstIs] in Hc. destruct (Ascii.eqb "-" d); [discriminate Hc | reflexivity]. }
  rewrite Hno. apply IH, Hs.
Qed.

Lemma noDoubleHyphen_app x y :
  noDoubleHyphen x = true ->
  noDoubleHyphen y = true ->
  JSString.ends_with_char "-" x && firstIs "-" y = false ->
  noDoubleHyphen (x ++ y) = true.
Proof.
  induction x as [| c x IH]; intros Hx Hy Hj; [exact Hy |].
  cbn [noDoubleHyphen] in Hx. apply andb_prop in Hx. destruct Hx as (Hc & Hx).
  change (String c x ++ y) with (String c (x ++ y)). cbn [noDoubleHyphen].
  destruct x as [| d x].
  - cbn [JSString.ends_with_char] in Hj. change (EmptyString ++ y) with y.
    rewrite Hj, Hy. reflexivity.
  - rewrite (IH Hx Hy Hj). change (String d x ++ y) with (String d (x ++ y)).
    cbn [firstIs] in Hc |- *. rewrite Hc. reflexivity.
Qed.

Lemma firstIs_app c x y : x <> EmptyString -> firstIs c (x ++ y) = firstIs c x.
Proof. destruct x; [congruence | reflexivity]. Qed.

Lemma namePart_facts x :
  namePart x = true ->
  x <> EmptyString
  /\ noneOf "<" x = true /\ noneOf "$" x = true
  /\ noDoubleHyphen x = true
  /\ firstIs "-" x = false /\ JSString.ends_with_char "-" x = false.
Proof.
  unfold namePart. rewrite !andb_true_iff, !negb_true_iff.
  intros (((((H1 & H2) & H3) & H4) & H5) & H6).
  repeat split; try assumption.
  intros ->. discriminate H1.
Qed.

End ReplaceWord.

Section ReadmeFormat.
Import RegExpEngine JSRegExp Generator.

Lemma noDoubleHyphen_name env service pp :
  namePart env = true ->
  namePart service = true ->
  pp = EmptyString \/ namePart pp = true ->
  noDoubleHyphen ("${local.project}-" ++ env ++ "-" ++ service ++ "-" ++ pp) = true.
Proof.
  intros He Hs Hp.
  destruct (namePart_facts env He) as (He0 & _ & _ & He1 & He2 & He3).
  destruct (namePart_facts service Hs) as (Hs0 & _ & _ & Hs1 & Hs2 & Hs3).
  assert (Hp1 : noDoubleHyphen pp = true /\ firstIs "-" pp = false).
  { destruct Hp as [-> | Hp]; [split; reflexivity |].
    destruct (namePart_facts pp Hp) as (_ & _ & _ & H1 & H2 & _). auto. }
  destruct Hp1 as (Hp1 & Hp2).
  apply noDoubleHyphen_app; [reflexivity | |].
  - apply noDoubleHyphen_app; [exact He1 | | rewrite He3; reflexivity].
    apply (noDoubleHyphen_app "-"); [reflexivity | |].
    + apply noDoubleHyphen_app; [exact Hs1 | | rewrite Hs3; reflexivity].
      apply (noDoubleHyphen_app "-"); [reflexivity | exact Hp1 |].
      rewrite Hp2. reflexivity.
    + rewrite firstIs_app by exact Hs0. rewrite Hs2. reflexivity.
  - rewrite firstIs_app by exact He0. rewrite He2. apply andb_false_r.
Qed.

(** X17.  Under the naming format of the README, with an environment
    and a service that are name parts and a purpose that is absent, empty
    or a name part, [buildResourceName] gives the interpolation of
    [local.project], the environment, the service and the purpose, with a
    hyphen after each of the first three: also when there is no purpose,
    where the name ends in a hyphen. *)
Theorem name_under_the_readme_format service env purpose config n :
  naming config = Some n ->
  resource_format n = Some readmeFormat ->
  namePart env = true ->
  namePart service = true ->
  (forall p, purpose = Some p -> p = EmptyString \/ namePart p = true) ->
  buildResourceName service env purpose config
  = "${local.project}-" ++ env ++ "-" ++ service ++ "-"
    ++ match purpose with
       | Some p => p
       | None => EmptyString
       end.
Proof.
  intros Hn Hf He Hs Hp. unfold buildResourceName. rewrite Hn, Hf. cbv zeta.
  change (nonempty (Some readmeFormat)) with true. cbv iota.
  set (pp := if nonempty purpose
             then match purpose with
                  | Some p => p
                  | None => EmptyString
                  end
             else EmptyString).
  assert (Hpp : pp = match purpose with
                     | Some p => p
                     | None => EmptyString
                     end).
  { subst pp. destruct purpose as [p |]; [| reflexivity]. simpl.
    destruct (String.eqb_spec p EmptyString) as [-> | _]; reflexivity. }
  assert (Hplain : pp = EmptyString \/ namePart pp = true).
  { rewrite Hpp. destruct purpose as [p |]; [apply Hp; reflexivity | left; reflexivity]. }
  destruct (namePart_facts env He) as (_ & He1 & He2 & _).
  destruct (namePart_facts service Hs) as (_ & Hs1 & Hs2 & _).
  assert (Hp2 : noneOf "$" pp = true).
  { destruct Hplain as [-> | H]; [reflexivity |].
    destruct (namePart_facts pp H) as (_ & _ & H2 & _). exact H2. }
  assert (E1 : replace_g Patterns.project "${local.project}" readmeFormat
               = "${local.project}-<env>-<component>-<extra?>")
    by (vm_compute; reflexivity).
  assert (E2 : replace_g Patterns.env_ env "${local.project}-<env>-<component>-<extra?>"
               = "${local.project}-" ++ env ++ "-<component>-<extra?>").
  { apply (replace_word_once "<" "env>" "${local.project}-" "-<component>-<extra?>" env);
      [reflexivity | intros pos; reflexivity | exact He2]. }
  assert (E3 : replace_g Patterns.component service
                 ("${local.project}-" ++ env ++ "-<component>-<extra?>")
               = "${local.project}-" ++ env ++ "-" ++ service ++ "-<extra?>").
  { pose proof (replace_word_once "<" "component>" ("${local.project}-" ++ env ++ "-")
                  "-<extra?>" service) as H.
    rewrite !app_assoc_string in H. apply H.
    - rewrite !noneOf_app, He1. reflexivity.
    - intros pos. reflexivity.
    - exact Hs2. }
  assert (E4 : replace_g Patterns.extra pp
                 ("${local.project}-" ++ env ++ "-" ++ service ++ "-<extra?>")
               = "${local.project}-" ++ env ++ "-" ++ service ++ "-" ++ pp).
  { pose proof (replace_word_once "<" "extra?>"
                  ("${local.project}-" ++ env ++ "-" ++ service ++ "-")
                  EmptyString pp) as H.
    rewrite !app_assoc_string, !app_empty_r in H. apply H.
    - rewrite !noneOf_app, He1, Hs1. reflexivity.
    - intros pos. reflexivity.
    - exact Hp2. }
  rewrite E1, E2, E3, E4, <- Hpp.
  apply replace_nothing, search_from_no_double, noDoubleHyphen_name; assumption.
Qed.

End ReadmeFormat.

(** X17 at the policy and the names of the examples, with and without a
    purpose. *)
Lemma name_under_the_readme_format_witness :
  Generator.buildResourceName "analytics" "prod" (Some "logs") Examples.policy
  = "${local.project}-prod-analytics-logs"
  /\ Generator.buildResourceName "user-api" "prod" None Examples.policy
     = "${local.project}-prod-user-api-".
Proof.
  split.
  - apply (name_under_the_readme_format "analytics" "prod" (Some "logs") Examples.policy
             {| resource_format := Some readmeFormat |});
      try reflexivity.
    intros p H. inversion H. right. reflexivity.
  - apply (name_under_the_readme_format "user-api" "prod" None Examples.policy
             {| resource_format := Some readmeFormat |});
      try reflexivity.
    intros p H. discriminate H.
Defined.

(** * The versioning pattern on the generated bucket *)

(** ** Where a word can stand in a text made of parts *)

Section Layers.
Import RegExpEngine JSRegExp.

Lemma app_split : forall X Y pre rest,
  X ++ Y = pre ++ rest ->
  (exists m, pre = X ++ m /\ Y = m ++ rest)
  \/ (exists c m, X = pre ++ String c m /\ rest = String c m ++ Y).
Proof.
  induction X as [| x X IH]; intros Y pre rest H.
  - left. exists pre. auto.
  - destruct pre as [| p pre].
    + right. exists x, X. auto.
    + inversion H. subst p.
      destruct (IH Y pre rest H2) as [(m & -> & ->) | (c & m & -> & ->)].
      * left. exists m. auto.
      * right. exists c, m. auto.
Qed.

Lemma ci_equal_first c key w :
  ci_equal (String c key) w = true ->
  exists d w',
    w = String d w' /\ canonicalize c = canonicalize d /\ ci_equal key w' = true.
Proof.
  destruct w as [| d w']; simpl; [discriminate |].
  intros H. apply andb_prop in H. destruct H as (Hc & Hk).
  apply Ascii.eqb_eq in Hc. exists d, w'. auto.
Qed.

Lemma ci_equal_chars : forall key w,
  ci_equal key w = true ->
  forall c, In c (list_ascii_of_string key) ->
            exists d, In d (list_ascii_of_string w) /\ canonicalize c = canonicalize d.
Proof.
  induction key as [| k key IH]; intros w H c Hin; [contradiction |].
  apply ci_equal_first in H. destruct H as (d & w' & -> & Hc & Hk).
  destruct Hin as [<- | Hin].
  - exists d. split; [left; reflexivity | exact Hc].
  - destruct (IH w' Hk c Hin) as (d' & Hd' & Hc').
    exists d'. split; [right; exact Hd' | exact Hc'].
Qed.

Lemma ci_equal_nonempty key d w' :
  ci_equal key (String d w') = true ->
  exists c k, key = String c k /\ canonicalize c = canonicalize d.
Proof.
  destruct key as [| c k]; simpl; [discriminate |].
  intros H. apply andb_prop in H. destruct H as (Hc & _).
  apply Ascii.eqb_eq in Hc. exists c, k. auto.
Qed.

Variable w0 : ascii.
Variable w' : string.

(** A part that has no character with the canonical form of the first
    character of the word: the word does not start there. *)
Lemma past_closed X Y pre key tail :
  forallb (fun c => negb (Ascii.eqb (canonicalize c) (canonicalize w0)))
    (list_ascii_of_string X) = true ->
  ci_equal key (String w0 w') = true ->
  X ++ Y = pre ++ key ++ tail ->
  exists m, pre = X ++ m /\ Y = m ++ key ++ tail.
Proof.
  intros HX Hkey H.
  destruct (app_split _ _ _ _ H) as [Hm | (c & m & HXeq & Hrest)]; [exact Hm |].
  exfalso.
  destruct (ci_equal_nonempty _ _ _ Hkey) as (k0 & k & -> & Hk0).
  inversion Hrest. subst k0.
  rewrite forallb_forall in HX.
  assert (Hin : In c (list_ascii_of_string X)).
  { rewrite HXeq. clear. induction pre as [| p pre IH]; simpl; auto. }
  specialize (HX c Hin). rewrite Hk0, Ascii.eqb_refl in HX. discriminate HX.
Qed.

(** A part that does not mention the word and is followed by a character
    that no character of the word is equal to up to case: the word does
    not start there either. *)
Lemma past_open X q Y pre key tail :
  ~ mentions (String w0 w') X ->
  (forall d, In d (list_ascii_of_string (String w0 w')) ->
             canonicalize q <> canonicalize d) ->
  ci_equal key (String w0 w') = true ->
  X ++ String q Y = pre ++ key ++ tail ->
  exists m, pre = X ++ m /\ String q Y = m ++ key ++ tail.
Proof.
  intros HX Hq Hkey H.
  destruct (app_split _ _ _ _ H) as [Hm | (c & m & HXeq & Hrest)]; [exact Hm |].
  exfalso. symmetry in Hrest.
  destruct (app_split _ _ _ _ Hrest) as [(m2 & Hk & HY) | (c2 & m2 & Hm2 & _)].
  - destruct m2 as [| q' m2].
    + rewrite app_empty_r in Hk. subst key.
      apply HX. exists pre, (String c m), EmptyString.
      rewrite app_empty_r. auto.
    + inversion HY. subst q'.
      assert (Hin : In q (list_ascii_of_string key)).
      { rewrite Hk. clear. generalize (String c m). intros s.
        induction s as [| x s IH]; simpl; auto. }
      destruct (ci_equal_chars _ _ Hkey q Hin) as (d & Hd & Hqd).
      exact (Hq d Hd Hqd).
  - apply HX. exists pre, key, (String c2 m2). rewrite HXeq, Hm2. auto.
Qed.

End Layers.

(** ** The pattern of the versioning check *)

Section VersioningPattern.
Import RegExpEngine JSRegExp Generator.

Lemma class_sound fl neg items pos rest cs k z :
  rmatch fl (RClass neg items) pos rest cs k = Some z ->
  exists ch rest',
    rest = String ch rest'
    /\ class_match fl neg items ch = true
    /\ k (S pos) rest' cs = Some z.
Proof.
  simpl. destruct rest as [| ch rest']; [discriminate |].
  destruct (class_match fl neg items ch) eqn:Ec; [| discriminate].
  intros H. exists ch, rest'. auto.
Qed.

(** What a match of the versioning pattern says about the text. *)
Lemma versioning_sound s :
  test (search Patterns.flag_i Patterns.versioning) s = true ->
  exists pre key ws c post,
    s = pre ++ key ++ ws ++ String c post
    /\ ci_equal key "versioning" = true
    /\ blanks ws = true
    /\ class_match Patterns.flag_i false (one_of "={") c = true.
Proof.
  unfold test, search. simpl.
  destruct (search_from Patterns.flag_i Patterns.versioning 0 s) as [m |] eqn:E;
    [intros _ | discriminate].
  apply search_from_sound in E. destruct E as (pre & rest & z & -> & H).
  unfold Patterns.versioning in H.
  apply lit_sound in H. destruct H as (key & rest2 & -> & Hkey & H).
  change (rmatch Patterns.flag_i (RStar Patterns.sp)
            (0 + String.length pre + String.length key) rest2 []
            (fun p s c =>
               rmatch Patterns.flag_i (seq [RClass false (one_of "={")]) p s c final)
          = Some z) in H.
  rewrite rmatch_star in H. apply star_class_sound in H.
  destruct H as (ws & rest3 & cs3 & -> & Hws & H).
  change (rmatch Patterns.flag_i (RClass false (one_of "={"))
            (0 + String.length pre + String.length key + String.length ws) rest3 cs3
            (fun p s c => rmatch Patterns.flag_i (seq []) p s c final) = Some z) in H.
  apply class_sound in H. destruct H as (c & post & -> & Hc & _).
  exists pre, key, ws, c, post.
  split; [reflexivity |]. split; [exact Hkey |].
  split; [apply blanks_class_sound, Hws | exact Hc].
Qed.

Lemma versioning_complete pre key ws c post :
  ci_equal key "versioning" = true ->
  blanks ws = true ->
  class_match Patterns.flag_i false (one_of "={") c = true ->
  test (search Patterns.flag_i Patterns.versioning) (pre ++ key ++ ws ++ String c post)
  = true.
Proof.
  intros Hkey Hws Hc. apply test_finds. unfold Patterns.versioning.
  apply (literal_matches _ _ key "versioning" _ Hkey). intros p.
  apply matchesAt_seq_cons.
  apply matchesAt_star_class; [apply blanks_class, Hws |].
  intros cs. revert cs.
  change (matchesAt Patterns.flag_i (seq [RClass false (one_of "={")]) final
            (p + String.length ws) (String c post)).
  apply matchesAt_seq_cons. apply matchesAt_class; [exact Hc |].
  intros cs. simpl. discriminate.
Qed.

Lemma not_a_letter_of_versioning q :
  forallb (fun d => negb (Ascii.eqb (canonicalize q) (canonicalize d)))
    (list_ascii_of_string "versioning") = true ->
  forall d, In d (list_ascii_of_string "versioning") ->
            canonicalize q <> canonicalize d.
Proof.
  intros H d Hd Heq. rewrite forallb_forall in H. specialize (H d Hd).
  rewrite Heq, Ascii.eqb_refl in H. discriminate H.
Qed.

(** The text of the generated bucket in parts: the lines up to the name,
    the name, the end of its line and an empty line, the tags, and the
    rest from the end of the line of the tags. *)
Lemma versioning_not_in_layers A name tags C :
  forallb (fun c => negb (Ascii.eqb (canonicalize c) (canonicalize "v")))
    (list_ascii_of_string A) = true ->
  ~ mentions "versioning" name ->
  ~ mentions "versioning" tags ->
  test (search Patterns.flag_i Patterns.versioning) (nl ++ C) = false ->
  test (search Patterns.flag_i Patterns.versioning)
    (A ++ name ++ (dq ++ nl ++ nl) ++ tags ++ nl ++ C) = false.
Proof.
  intros HA Hname Htags HC.
  destruct (test _ (A ++ _)) eqn:E; [exfalso | reflexivity].
  apply versioning_sound in E.
  destruct E as (pre & key & ws & c & post & Heq & Hkey & Hws & Hc).
  destruct (past_closed "v" "ersioning" A _ pre key _ HA Hkey Heq) as (m1 & _ & H1).
  change (name ++ String (ascii_of_nat 34) (nl ++ nl ++ tags ++ nl ++ C)
          = m1 ++ key ++ ws ++ String c post) in H1.
  destruct (past_open "v" "ersioning" name _ _ m1 key _ Hname
              (not_a_letter_of_versioning (ascii_of_nat 34) eq_refl) Hkey H1)
    as (m2 & _ & H2).
  change ((dq ++ nl ++ nl) ++ tags ++ nl ++ C = m2 ++ key ++ ws ++ String c post) in H2.
  destruct (past_closed "v" "ersioning" (dq ++ nl ++ nl) _ m2 key _ eq_refl Hkey H2)
    as (m3 & _ & H3).
  change (tags ++ String (ascii_of_nat 10) C = m3 ++ key ++ ws ++ String c post) in H3.
  destruct (past_open "v" "ersioning" tags _ _ m3 key _ Htags
              (not_a_letter_of_versioning (ascii_of_nat 10) eq_refl) Hkey H3)
    as (m4 & _ & H4).
  change (nl ++ C = m4 ++ key ++ ws ++ String c post) in H4.
  rewrite H4, (versioning_complete m4 key ws c post Hkey Hws Hc) in HC.
  discriminate HC.
Qed.

Lemma base_layers name tags :
  lines [ "resource " ++ quoted "aws_s3_bucket" ++ " " ++ quoted "this" ++ " {";
          "  bucket = " ++ quoted name;
          EmptyString;
          tags;
          "}" ]
  = ("resource " ++ quoted "aws_s3_bucket" ++ " " ++ quoted "this" ++ " {" ++ nl
     ++ "  bucket = " ++ dq)
    ++ name ++ (dq ++ nl ++ nl) ++ tags ++ nl ++ "}".
Proof.
  unfold lines, JSString.join, quoted. cbn [String.concat].
  rewrite !app_assoc_string. reflexivity.
Qed.

(** Whatever the settings, what the generator writes after the tags has
    no match of the versioning pattern. *)
Lemma generateS3Bucket_suffix config :
  booleanOrAbsent (lookup "block_public_acls" (s3SettingsOf config)) = true ->
  booleanOrAbsent (lookup "block_public_policy" (s3SettingsOf config)) = true ->
  exists S,
    (forall name tags,
        generateS3Bucket name tags config
        = lines [ "resource " ++ quoted "aws_s3_bucket" ++ " " ++ quoted "this" ++ " {";
                  "  bucket = " ++ quoted name;
                  EmptyString;
                  tags;
                  "}" ] ++ S)
    /\ test (search Patterns.flag_i Patterns.versioning) (nl ++ "}" ++ S) = false.
Proof.
  intros Hacls Hpolicy. unfold generateS3Bucket. cbv zeta.
  destruct (lookup "block_public_acls" (s3SettingsOf config)) as [[[] | |] |];
    try discriminate Hacls;
    destruct (lookup "block_public_policy" (s3SettingsOf config)) as [[[] | |] |];
    try discriminate Hpolicy;
    destruct (truthy (lookup "versioning" (s3SettingsOf config)));
    (destruct (lookup "encryption" (s3SettingsOf config)) as [enc |];
     [destruct (truthy (Some enc));
      [destruct enc as [b | e | z]; [| destruct (String.eqb e "aws:kms") |] |] |]);
    cbn [truthy orb show_or show];
    (eexists; split;
     [intros name tags; rewrite ?app_assoc_string;
      first [reflexivity | symmetry; apply app_empty_r]
     | vm_compute; reflexivity]).
Qed.

End VersioningPattern.

Section VersioningWarning.
Import RegExpEngine JSRegExp Generator.

Lemma s3Marker_generated name tags config :
  test (search Patterns.flag_i Patterns.s3Marker) (generateS3Bucket name tags config)
  = true.
Proof.
  apply s3Marker_found.
  destruct (generateS3Bucket_starts name tags config) as (rest & ->).
  apply contains_app_l.
  apply (contains_trans _ ("resource " ++ quoted "aws_s3_bucket" ++ " "
                           ++ quoted "this" ++ " {")).
  - exists EmptyString, (" " ++ quoted "this" ++ " {"). reflexivity.
  - apply contains_join. left. reflexivity.
Qed.

Lemma validateRDS_adds_no_s3_warning code d vs :
  filter (has_rule "s3_security_default") (validateRDS code d vs)
  = filter (has_rule "s3_security_default") vs.
Proof.
  unfold validateRDS, push.
  destruct (_ && _); destruct (_ && _);
    rewrite ?filter_app; simpl; rewrite ?app_nil_r; reflexivity.
Qed.

Lemma app_layers (a n b t x y s : string) :
  (a ++ n ++ b ++ t ++ x ++ y) ++ s = a ++ n ++ b ++ t ++ x ++ y ++ s.
Proof. rewrite !app_assoc_string. reflexivity. Qed.

Lemma versioning_not_generated name tags config :
  booleanOrAbsent (lookup "block_public_acls" (s3SettingsOf config)) = true ->
  booleanOrAbsent (lookup "block_public_policy" (s3SettingsOf config)) = true ->
  ~ mentions "versioning" name ->
  ~ mentions "versioning" tags ->
  test (search Patterns.flag_i Patterns.versioning) (generateS3Bucket name tags config)
  = false.
Proof.
  intros Hacls Hpolicy Hname Htags.
  destruct (generateS3Bucket_suffix config Hacls Hpolicy) as (S & HS & Hno).
  rewrite HS, base_layers, app_layers.
  apply versioning_not_in_layers; try assumption. reflexivity.
Qed.

(** X18.  Let the request be for a bucket, under a policy whose s3
    settings ask for versioning and whose settings [block_public_acls]
    and [block_public_policy] are absent or booleans, and let neither the
    name nor the tags mention the word [versioning] in whatever case.  Then
    the check of the security defaults has exactly one warning of the
    rule [s3_security_default] for the text that [generateResource]
    returns: the one that asks for versioning.  What the generator writes
    for versioning is not what the check looks for. *)
Theorem generated_bucket_draws_the_versioning_warning params config sd d :
  resourceType params = "aws_s3_bucket" ->
  security_defaults config = Some sd ->
  s3_bucket sd = Some d ->
  truthy (lookup "versioning" d) = true ->
  booleanOrAbsent (lookup "block_public_acls" d) = true ->
  booleanOrAbsent (lookup "block_public_policy" d) = true ->
  ~ mentions "versioning"
      (buildResourceName (service params) (env params) (purpose params) config) ->
  ~ mentions "versioning"
      (buildTags (match extraTags params with
                  | Some t => t
                  | None => []
                  end) config) ->
  filter (has_rule "s3_security_default")
    (validateSecurityDefaults (generateResource params config) config [])
  = [s3Violation "S3 bucket should have versioning enabled" "Enable versioning"].
Proof.
  intros Hkind Hsd Hd Hversioning Hacls Hpolicy Hname Htags.
  pose proof (s3SettingsOf_Some config sd d Hsd Hd) as Hsettings.
  rewrite <- Hsettings in Hversioning, Hacls, Hpolicy.
  unfold generateResource. cbv zeta. rewrite Hkind.
  cbn [String.eqb Ascii.eqb Bool.eqb].
  set (name := buildResourceName _ _ _ _) in *.
  set (tags := buildTags _ _) in *.
  assert (Hs3 : validateS3Bucket (generateS3Bucket name tags config) d []
                = [s3Violation "S3 bucket should have versioning enabled"
                     "Enable versioning"]).
  { rewrite <- Hsettings.
    rewrite (validateS3Bucket_generated name tags config Hacls Hpolicy).
    rewrite Hversioning,
      (versioning_not_generated name tags config Hacls Hpolicy Hname Htags).
    reflexivity. }
  unfold validateSecurityDefaults. cbv zeta. rewrite Hsd, Hd.
  rewrite s3Marker_generated, Hs3.
  destruct (rds sd) as [d' |]; [| reflexivity].
  destruct (test (search Patterns.flag_i Patterns.rdsMarker) _); [| reflexivity].
  rewrite validateRDS_adds_no_s3_warning. reflexivity.
Qed.

End VersioningWarning.

Section VersioningWarningExample.
Import RegExpEngine JSRegExp Generator.

Lemma ci_prefix_complete : forall key w post,
  ci_equal key w = true -> ci_prefix w (key ++ post) = true.
Proof.
  induction key as [| c key IH]; intros [| d w] post H; simpl in H;
    try discriminate; [reflexivity |].
  apply andb_prop in H. destruct H as (Hc & Hk).
  cbn [append ci_prefix]. rewrite Hc. exact (IH w post Hk).
Qed.

Lemma mentionsb_complete w s : mentions w s -> mentionsb w s = true.
Proof.
  intros (pre & key & post & -> & Hkey).
  induction pre as [| p pre IH].
  - change (EmptyString ++ key ++ post) with (key ++ post).
    destruct (key ++ post) eqn:E; cbn [mentionsb]; rewrite <- E;
      rewrite (ci_prefix_complete key w post Hkey); reflexivity.
  - change (String p pre ++ key ++ post) with (String p (pre ++ key ++ post)).
    cbn [mentionsb]. rewrite IH. apply orb_true_r.
Qed.

Lemma not_mentioned w s : mentionsb w s = false -> ~ mentions w s.
Proof. intros H Hm. rewrite (mentionsb_complete w s Hm) in H. discriminate H. Qed.

(** X18 at the policy and the bucket request of the examples. *)
Lemma generated_bucket_draws_the_versioning_warning_witness :
  resourceType Examples.bucketRequest = "aws_s3_bucket"
  /\ truthy (lookup "versioning" Examples.s3Defaults) = true
  /\ mentionsb "versioning"
       (buildResourceName (service Examples.bucketRequest) (env Examples.bucketRequest)
          (purpose Examples.bucketRequest) Examples.policy) = false
  /\ mentionsb "versioning"
       (buildTags (match extraTags Examples.bucketRequest with
                   | Some t => t
                   | None => []
                   end) Examples.policy) = false
  /\ filter (has_rule "s3_security_default")
       (validateSecurityDefaults
          (generateResource Examples.bucketRequest Examples.policy) Examples.policy [])
     = [s3Violation "S3 bucket should have versioning enabled" "Enable versioning"].
Proof.
  assert (H1 : mentionsb "versioning"
                 (buildResourceName (service Examples.bucketRequest)
                    (env Examples.bucketRequest) (purpose Examples.bucketRequest)
                    Examples.policy) = false) by (vm_compute; reflexivity).
  assert (H2 : mentionsb "versioning"
                 (buildTags (match extraTags Examples.bucketRequest with
                             | Some t => t
                             | None => []
                             end) Examples.policy) = false) by (vm_compute; reflexivity).
  split; [reflexivity |]. split; [reflexivity |].
  split; [exact H1 |]. split; [exact H2 |].
  apply (generated_bucket_draws_the_versioning_warning Examples.bucketRequest
           Examples.policy
           {| s3_bucket := Some Examples.s3Defaults; rds := None |} Examples.s3Defaults);
    try reflexivity.
  - apply not_mentioned, H1.
  - apply not_mentioned, H2.
Defined.

End VersioningWarningExample.

(** * The tags of the generated resource under the required-tag check *)

(** ** Where the tag-block pattern finds its first match *)

Section FirstMatch.
Import RegExpEngine JSRegExp.

Lemma clear_nil cs : clear [] cs = cs.
Proof.
  unfold clear. apply forallb_filter_id. apply forallb_forall.
  intros e _. reflexivity.
Qed.

(** A starred class takes the whole run of its characters when the
    pattern goes through from the end of the run. *)
Lemma repeat_class_exact fl neg items k z rest :
  match rest with
  | String c _ => class_match fl neg items c = false
  | EmptyString => True
  end ->
  forall ws n pos cs,
    String.length ws <= n ->
    (forall c, In c (list_ascii_of_string ws) -> class_match fl neg items c = true) ->
    k (pos + String.length ws) rest cs = Some z ->
    repeat (fun p s c k' => rmatch fl (RClass neg items) p s (clear [] c) k') k
      n pos (ws ++ rest) cs = Some z.
Proof.
  intros Hrest. induction ws as [| c ws IH]; intros n pos cs Hn Hall Hk.
  - simpl in Hk. rewrite Nat.add_0_r in Hk. change (EmptyString ++ rest) with rest.
    destruct n as [| n]; [exact Hk |].
    cbn [repeat rmatch]. destruct rest as [| c rest']; [exact Hk |].
    rewrite Hrest. exact Hk.
  - destruct n as [| n]; [simpl in Hn; lia |].
    change (String c ws ++ rest) with (String c (ws ++ rest)).
    cbn [repeat rmatch]. rewrite (Hall c (or_introl eq_refl)), succ_neqb.
    rewrite clear_nil.
    match goal with
    | |- match ?x with _ => _ end = _ =>
        replace x with (Some z); [reflexivity | symmetry]
    end.
    apply IH.
    + simpl in Hn. lia.
    + intros d Hd. apply Hall. right. exact Hd.
    + simpl in Hk. rewrite Nat.add_succ_r in Hk. exact Hk.
Qed.

Lemma star_class_exact fl neg items k z ws rest pos cs :
  match rest with
  | String c _ => class_match fl neg items c = false
  | EmptyString => True
  end ->
  (forall c, In c (list_ascii_of_string ws) -> class_match fl neg items c = true) ->
  k (pos + String.length ws) rest cs = Some z ->
  rmatch fl (RStar (RClass neg items)) pos (ws ++ rest) cs k = Some z.
Proof.
  intros Hrest Hall Hk. rewrite rmatch_star. cbn [groups].
  apply repeat_class_exact; try assumption.
  rewrite length_app. lia.
Qed.

Lemma rmatch_seq_cons fl t ts pos rest cs k :
  rmatch fl (seq (t :: ts)) pos rest cs k
  = rmatch fl t pos rest cs (fun p s c => rmatch fl (seq ts) p s c k).
Proof. reflexivity. Qed.

Lemma rmatch_word_k fl ts k rest cs : forall w pos,
  rmatch fl (seq (lit w ++ ts)) pos (w ++ rest) cs k
  = rmatch fl (seq ts) (pos + String.length w) rest cs k.
Proof.
  induction w as [| c w IH]; intros pos.
  - simpl. rewrite Nat.add_0_r. reflexivity.
  - cbn [lit app]. rewrite rmatch_seq_cons.
    change (String c w ++ rest) with (String c (w ++ rest)). cbn [rmatch].
    rewrite char_match_refl, IH. cbn [String.length]. rewrite Nat.add_succ_r.
    reflexivity.
Qed.

Lemma rmatch_char_exact fl c pos rest cs k :
  rmatch fl (RChar c) pos (String c rest) cs k = k (S pos) rest cs.
Proof. cbn [rmatch]. rewrite char_match_refl. reflexivity. Qed.

(** The match of the tag-block pattern at a block written as the
    generator writes it. *)
Lemma tagsBlock_exact pos body post :
  noneOf "}" body = true ->
  rmatch Patterns.flag_s Patterns.tagsBlock pos ("tags = {" ++ body ++ "}" ++ post) []
    final
  = Some (S (pos + 8 + String.length body), [(1, (pos + 8, pos + 8 + String.length body))]).
Proof.
  intros Hbody. unfold Patterns.tagsBlock.
  change ("tags = {" ++ body ++ "}" ++ post)
    with ("tags" ++ " " ++ String "=" (" " ++ String "{" (body ++ String "}" post))).
  rewrite rmatch_word_k, rmatch_seq_cons.
  apply (star_class_exact Patterns.flag_s false [CSpace] _ _ " ");
    [reflexivity | intros c [<- | []]; reflexivity |].
  rewrite rmatch_seq_cons, rmatch_char_exact, rmatch_seq_cons.
  apply (star_class_exact Patterns.flag_s false [CSpace] _ _ " ");
    [reflexivity | intros c [<- | []]; reflexivity |].
  rewrite rmatch_seq_cons, rmatch_char_exact, rmatch_seq_cons.
  cbn [rmatch seq fold_right].
  apply (star_class_exact Patterns.flag_s true [CChar "}"] _ _ body);
    [reflexivity | apply noneOf_class_s, Hbody |].
  rewrite char_match_refl. unfold final. cbn [String.length clear filter].
  f_equal. f_equal; [lia |]. f_equal. f_equal. f_equal; lia.
Qed.

Lemma search_from_skip fl r : forall X Y pos,
  (forall pre c m,
      X = pre ++ String c m ->
      rmatch fl r (pos + String.length pre) (String c m ++ Y) [] final = None) ->
  search_from fl r pos (X ++ Y) = search_from fl r (pos + String.length X) Y.
Proof.
  induction X as [| x X IH]; intros Y pos H.
  - simpl. rewrite Nat.add_0_r. reflexivity.
  - change (String x X ++ Y) with (String x (X ++ Y)). cbn [search_from].
    pose proof (H EmptyString x X eq_refl) as H0.
    simpl in H0. rewrite Nat.add_0_r in H0. rewrite H0.
    rewrite (IH Y (S pos)).
    + simpl. rewrite Nat.add_succ_r. reflexivity.
    + intros pre c m E.
      pose proof (H (String x pre) c m) as H1. simpl in H1.
      rewrite Nat.add_succ_r in H1. apply H1. rewrite E. reflexivity.
Qed.

Lemma mismatch_rmatch ts Y cs k : forall w m p,
  mismatch w m = true ->
  rmatch Patterns.flag_s (seq (lit w ++ ts)) p (m ++ Y) cs k = None.
Proof.
  induction w as [| d w IH]; intros m p H; [discriminate H |].
  destruct m as [| c m]; [discriminate H |].
  cbn [mismatch] in H. cbn [lit app seq fold_right rmatch append].
  unfold char_match. cbn [ignoreCase Patterns.flag_s].
  destruct (Ascii.eqb d c); [| reflexivity].
  exact (IH m (S p) H).
Qed.

Lemma noStart_suffix w : forall pre c m,
  noStart w (pre ++ String c m) = true -> mismatch w (String c m) = true.
Proof.
  induction pre as [| p pre IH]; intros c m H.
  - simpl in H. apply andb_prop in H. apply H.
  - change (String p pre ++ String c m) with (String p (pre ++ String c m)) in H.
    cbn [noStart] in H. apply andb_prop in H. destruct H as (_ & H).
    exact (IH c m H).
Qed.

(** The search goes past a part in which the word does not start. *)
Lemma search_from_past_closed w ts X Y pos :
  noStart w X = true ->
  search_from Patterns.flag_s (seq (lit w ++ ts)) pos (X ++ Y)
  = search_from Patterns.flag_s (seq (lit w ++ ts)) (pos + String.length X) Y.
Proof.
  intros H. apply search_from_skip. intros pre c m E.
  apply mismatch_rmatch. apply (noStart_suffix w pre c m). rewrite <- E. exact H.
Qed.

(** The search goes past a part that does not hold the word and is
    followed by a character that the word does not have. *)
Lemma search_from_past_open w ts X q Y pos :
  ~ contains w X ->
  noneOf q w = true ->
  search_from Patterns.flag_s (seq (lit w ++ ts)) pos (X ++ String q Y)
  = search_from Patterns.flag_s (seq (lit w ++ ts)) (pos + String.length X) (String q Y).
Proof.
  intros HX Hq. apply search_from_skip. intros pre c m E.
  destruct (rmatch _ _ _ _ _ _) as [z |] eqn:Ez; [exfalso | reflexivity].
  apply lit_sound_exact in Ez. destruct Ez as (rest' & Hsplit & _).
  destruct (app_split _ _ _ _ Hsplit) as [(m2 & Hw & HY) | (c2 & m2 & Hm & _)].
  - destruct m2 as [| q' m2].
    + apply HX. exists pre, EmptyString. rewrite E, Hw, !app_empty_r. reflexivity.
    + inversion HY. subst q'. rewrite Hw, noneOf_app in Hq.
      apply andb_prop in Hq. destruct Hq as (_ & Hq).
      cbn [noneOf] in Hq. rewrite Ascii.eqb_refl in Hq. discriminate Hq.
  - apply HX. exists pre, (String c2 m2). rewrite E, Hm. reflexivity.
Qed.

End FirstMatch.


(** ** The parts of a text that the search for the tag block goes past *)

Section Passing.
Import RegExpEngine JSRegExp.

Lemma passes_app r X1 X2 : passes r X1 -> passes r X2 -> passes r (X1 ++ X2).
Proof.
  intros H1 H2 Y pos.
  rewrite app_assoc_string, H1, H2, length_app, Nat.add_assoc. reflexivity.
Qed.

Lemma passes_closed w ts X :
  noStart w X = true -> passes (seq (lit w ++ ts)) X.
Proof. intros H Y pos. apply search_from_past_closed, H. Qed.

Lemma passes_open d w' ts X q :
  ~ contains (String d w') X ->
  noneOf q (String d w') = true ->
  passes (seq (lit (String d w') ++ ts)) (X ++ String q EmptyString).
Proof.
  intros HX Hq Y pos.
  rewrite app_assoc_string. change (String q EmptyString ++ Y) with (String q Y).
  rewrite (search_from_past_open (String d w') ts X q Y pos HX Hq).
  cbn [search_from].
  assert (Hno : rmatch Patterns.flag_s (seq (lit (String d w') ++ ts))
                  (pos + String.length X) (String q Y) [] final = None).
  { apply (mismatch_rmatch ts Y [] final (String d w') (String q EmptyString)).
    cbn [mismatch]. cbn [noneOf] in Hq. apply andb_prop in Hq. destruct Hq as (Hq & _).
    rewrite Ascii.eqb_sym. destruct (Ascii.eqb q d); [discriminate Hq | reflexivity]. }
  rewrite Hno, length_app. cbn [String.length]. rewrite Nat.add_1_r, Nat.add_succ_r.
  reflexivity.
Qed.

Lemma search_from_here fl r pos rest e cs :
  rmatch fl r pos rest [] final = Some (e, cs) ->
  search_from fl r pos rest
  = Some {| m_index := pos; m_end := e; m_captures := cs |}.
Proof. intros H. destruct rest; simpl; rewrite H; reflexivity. Qed.

Lemma tags_text_shape L post :
  ("tags = {" ++ nl ++ L ++ nl ++ "  }") ++ post
  = "tags = {" ++ (nl ++ L ++ nl ++ "  ") ++ "}" ++ post.
Proof. rewrite !app_assoc_string. reflexivity. Qed.

(** After a part that the search goes past, the first tag block of the
    text is the block that the generator writes, and its content is the
    tag lines. *)
Lemma tagsBlockMatch_after P L post :
  passes Patterns.tagsBlock P ->
  noneOf "}" L = true ->
  exists block,
    tagsBlockMatch (P ++ ("tags = {" ++ nl ++ L ++ nl ++ "  }") ++ post) = Some block
    /\ group1 (P ++ ("tags = {" ++ nl ++ L ++ nl ++ "  }") ++ post) block
       = nl ++ L ++ nl ++ "  ".
Proof.
  intros HP HL.
  set (body := nl ++ L ++ nl ++ "  ").
  assert (Hbody : noneOf "}" body = true).
  { subst body. rewrite !noneOf_app, HL. reflexivity. }
  rewrite tags_text_shape. fold body.
  set (code := P ++ "tags = {" ++ body ++ "}" ++ post).
  set (start := String.length P).
  assert (Hfound : tagsBlockMatch code
                   = Some {| m_index := start;
                             m_end := S (start + 8 + String.length body);
                             m_captures := [(1, (start + 8,
                                                 start + 8 + String.length body))] |}).
  { unfold tagsBlockMatch, search.
    change (String.length code <? 0) with false. cbv iota. rewrite drop_0.
    subst code. rewrite HP. apply search_from_here.
    exact (tagsBlock_exact start body post Hbody). }
  eexists. split; [exact Hfound |].
  unfold group1, group_text, capture. cbn [m_captures find fst snd Nat.eqb].
  unfold JSString.slice.
  replace (start + 8 + String.length body - (start + 8)) with (String.length body) by lia.
  replace code with ((P ++ "tags = {") ++ body ++ "}" ++ post)
    by (subst code; rewrite !app_assoc_string; reflexivity).
  replace (start + 8) with (String.length (P ++ "tags = {"))
    by (subst start; rewrite length_app; simpl; lia).
  rewrite drop_app_length. apply take_app_length.
Qed.

Lemma noneOf_join c sep : forall l,
  noneOf c sep = true ->
  Forall (fun x => noneOf c x = true) l ->
  noneOf c (JSString.join sep l) = true.
Proof.
  intros l Hsep H. induction H as [| x l Hx Hl IH]; [reflexivity |].
  destruct l as [| y l]; [exact Hx |].
  rewrite join_cons, !noneOf_app, Hx, Hsep, IH. reflexivity.
Qed.

End Passing.

(** ** The three texts of the generator up to the tags *)

Section UpToTheTags.
Import RegExpEngine JSRegExp Generator.

Lemma bucket_up_to_tags name T config :
  ~ contains "tags" name ->
  exists P post,
    generateS3Bucket name ("  " ++ T) config = P ++ T ++ post
    /\ passes Patterns.tagsBlock P.
Proof.
  intros Hname.
  destruct (generateS3Bucket_starts name ("  " ++ T) config) as (rest & ->).
  exists (("resource " ++ quoted "aws_s3_bucket" ++ " " ++ quoted "this" ++ " {" ++ nl
           ++ "  bucket = " ++ dq)
          ++ (name ++ dq) ++ (nl ++ nl ++ "  ")),
         (nl ++ "}" ++ rest).
  split.
  - unfold lines, JSString.join, quoted. cbn [String.concat].
    rewrite !app_assoc_string. reflexivity.
  - apply passes_app; [apply (passes_closed "tags"); reflexivity |].
    apply passes_app; [| apply (passes_closed "tags"); reflexivity].
    apply (passes_open "t" "ags" _ name (ascii_of_nat 34) Hname). reflexivity.
Qed.

Lemma instance_up_to_tags name T config :
  ~ contains "tags" name ->
  ~ contains "tags" (show_or (lookup "storage_encrypted" (rdsSettingsOf config)) "false") ->
  ~ contains "tags"
      (show_or (lookup "backup_retention_period" (rdsSettingsOf config)) "7") ->
  exists P post,
    generateRDSInstance name ("  " ++ T) config = P ++ T ++ post
    /\ passes Patterns.tagsBlock P.
Proof.
  intros Hname Hse Hbr. unfold generateRDSInstance. cbv zeta.
  set (se := show_or (lookup "storage_encrypted" (rdsSettingsOf config)) "false") in *.
  set (br := show_or (lookup "backup_retention_period" (rdsSettingsOf config)) "7") in *.
  exists (("resource " ++ quoted "aws_db_instance" ++ " " ++ quoted "this" ++ " {" ++ nl
           ++ "  identifier = " ++ dq)
          ++ (name ++ dq)
          ++ (nl ++ nl
              ++ "  engine         = " ++ quoted "postgres" ++ nl
              ++ "  engine_version = " ++ quoted "15.4" ++ nl
              ++ "  instance_class = " ++ quoted "db.t3.micro" ++ nl
              ++ "  " ++ nl
              ++ "  allocated_storage = 20" ++ nl
              ++ "  storage_encrypted = ")
          ++ (se ++ nl)
          ++ (nl ++ "  backup_retention_period = ")
          ++ (br ++ nl)
          ++ ("  " ++ nl
              ++ "  # TODO: Configure username, password, vpc_security_group_ids, db_subnet_group_name"
              ++ nl ++ nl ++ "  ")),
         (nl ++ "}").
  split.
  - unfold lines, JSString.join, quoted. cbn [String.concat].
    rewrite !app_assoc_string. reflexivity.
  - apply passes_app; [apply (passes_closed "tags"); reflexivity |].
    apply passes_app;
      [apply (passes_open "t" "ags" _ name (ascii_of_nat 34) Hname); reflexivity |].
    apply passes_app; [apply (passes_closed "tags"); reflexivity |].
    apply passes_app;
      [apply (passes_open "t" "ags" _ se (ascii_of_nat 10) Hse); reflexivity |].
    apply passes_app; [apply (passes_closed "tags"); reflexivity |].
    apply passes_app;
      [apply (passes_open "t" "ags" _ br (ascii_of_nat 10) Hbr); reflexivity |].
    apply (passes_closed "tags"). reflexivity.
Qed.

Lemma stub_up_to_tags kind name T :
  ~ contains "tags" kind ->
  ~ contains "tags" name ->
  exists P post,
    generateGenericResource kind name ("  " ++ T) = P ++ T ++ post
    /\ passes Patterns.tagsBlock P.
Proof.
  intros Hkind Hname. unfold generateGenericResource.
  exists ("# Generated stub for "
          ++ (kind ++ nl)
          ++ ("# Please customize this resource according to your needs" ++ nl ++ nl
              ++ "resource " ++ dq)
          ++ (kind ++ dq)
          ++ (" " ++ quoted "this" ++ " {" ++ nl ++ "  name = " ++ dq)
          ++ (name ++ dq)
          ++ (nl ++ nl ++ "  # TODO: Add required arguments for ")
          ++ (kind ++ nl)
          ++ (nl ++ "  ")),
         (nl ++ "}").
  split.
  - unfold lines, JSString.join, quoted. cbn [String.concat].
    rewrite !app_assoc_string. reflexivity.
  - apply passes_app; [apply (passes_closed "tags"); reflexivity |].
    apply passes_app;
      [apply (passes_open "t" "ags" _ kind (ascii_of_nat 10) Hkind); reflexivity |].
    apply passes_app; [apply (passes_closed "tags"); reflexivity |].
    apply passes_app;
      [apply (passes_open "t" "ags" _ kind (ascii_of_nat 34) Hkind); reflexivity |].
    apply passes_app; [apply (passes_closed "tags"); reflexivity |].
    apply passes_app;
      [apply (passes_open "t" "ags" _ name (ascii_of_nat 34) Hname); reflexivity |].
    apply passes_app; [apply (passes_closed "tags"); reflexivity |].
    apply passes_app;
      [apply (passes_open "t" "ags" _ kind (ascii_of_nat 10) Hkind); reflexivity |].
    apply (passes_closed "tags"). reflexivity.
Qed.

End UpToTheTags.

Section TagsRoundTrip.
Import RegExpEngine JSRegExp Generator.
Variable compile : string -> flags -> option matcher.

(** On the key template of a plain tag, [new RegExp] builds what the
    fragment of [RegExpEngine] reads there. *)
Hypothesis compile_key :
  forall tag,
    plainTag tag = true ->
    compile (Patterns.tagPattern_src tag) Patterns.flag_i
    = RegExpEngine.compile (Patterns.tagPattern_src tag) Patterns.flag_i.

Lemma key_on_tag_line k v tag L :
  ci_equal k tag = true ->
  contains (nl ++ ("    " ++ k ++ " = " ++ quoted v) ++ nl) (nl ++ L ++ nl) ->
  keyPresent tag (nl ++ L ++ nl ++ "  ").
Proof.
  intros Hk (pre & post & E).
  exists (pre ++ nl ++ "    "), EmptyString, k, EmptyString, " ",
         (" " ++ quoted v ++ nl ++ post ++ "  ").
  split.
  - transitivity ((nl ++ L ++ nl) ++ "  ").
    + rewrite !app_assoc_string. reflexivity.
    + rewrite E, !app_assoc_string. reflexivity.
  - split; [left; reflexivity |]. split; [left; reflexivity |].
    split; [exact Hk | reflexivity].
Qed.

Lemma resource_up_to_tags params config T :
  ~ contains "tags" (resourceType params) ->
  ~ contains "tags"
      (buildResourceName (service params) (env params) (purpose params) config) ->
  (resourceType params = "aws_db_instance" ->
   ~ contains "tags" (show_or (lookup "storage_encrypted" (rdsSettingsOf config)) "false")
   /\ ~ contains "tags"
          (show_or (lookup "backup_retention_period" (rdsSettingsOf config)) "7")) ->
  buildTags (match extraTags params with
             | Some t => t
             | None => []
             end) config = "  " ++ T ->
  exists P post,
    generateResource params config = P ++ T ++ post
    /\ passes Patterns.tagsBlock P.
Proof.
  intros Hkind Hname Hrds Htags. unfold generateResource. cbv zeta. rewrite Htags.
  destruct (String.eqb_spec (resourceType params) "aws_s3_bucket") as [_ | _];
    [apply bucket_up_to_tags, Hname |].
  destruct (String.eqb_spec (resourceType params) "aws_db_instance") as [E | _].
  - destruct (Hrds E) as (Hse & Hbr). apply instance_up_to_tags; assumption.
  - apply stub_up_to_tags; assumption.
Qed.

(** X19.  Let there be default or extra tags, none with a closing brace
    in its key or value, and let neither the resource type nor the name
    hold the word [tags] (nor, for a database instance, the two settings
    written into the text).  If the names of the required tags hold no
    syntax character of patterns and each is, up to case, a key of the
    merged tags, then the required-tag check has no violation for the
    text that [generateResource] returns, whatever the resource type: the
    first tag block of that text is the one the generator wrote.  No
    result of [validateSnippet] on that text has a violation
    [required_tag_missing]. *)
Theorem generated_resource_passes_the_tag_check params config :
  spread (defaultTagsOf config) (match extraTags params with
                                 | Some t => t
                                 | None => []
                                 end) <> [] ->
  ~ contains "tags" (resourceType params) ->
  ~ contains "tags"
      (buildResourceName (service params) (env params) (purpose params) config) ->
  (resourceType params = "aws_db_instance" ->
   ~ contains "tags" (show_or (lookup "storage_encrypted" (rdsSettingsOf config)) "false")
   /\ ~ contains "tags"
          (show_or (lookup "backup_retention_period" (rdsSettingsOf config)) "7")) ->
  (forall k v,
      In (k, v) (spread (defaultTagsOf config) (match extraTags params with
                                                | Some t => t
                                                | None => []
                                                end)) ->
      noneOf "}" k = true /\ noneOf "}" v = true) ->
  Forall (fun tag => plainTag tag = true) (requiredTagsOf config) ->
  (forall tag,
      In tag (requiredTagsOf config) ->
      exists k v,
        In (k, v) (spread (defaultTagsOf config) (match extraTags params with
                                                  | Some t => t
                                                  | None => []
                                                  end))
        /\ ci_equal k tag = true) ->
  validateRequiredTags compile (generateResource params config) config [] = Returned []
  /\ forall fuel filePath r,
       validateSnippet compile fuel (generateResource params config) config filePath
       = Returned r ->
       filter (has_rule "required_tag_missing") (violations r) = [].
Proof.
  intros Hsome Hkind Hname Hrds Hbraces Hplain Hkeys.
  set (merged := spread _ _) in *.
  set (L := JSString.join nl
              (map (fun kv => "    " ++ fst kv ++ " = " ++ quoted (snd kv)) merged)).
  assert (Htags : buildTags (match extraTags params with
                             | Some t => t
                             | None => []
                             end) config
                  = "  " ++ "tags = {" ++ nl ++ L ++ nl ++ "  }").
  { unfold buildTags. cbv zeta. fold merged.
    destruct merged as [| kv rest]; [congruence | reflexivity]. }
  destruct (resource_up_to_tags params config _ Hkind Hname Hrds Htags)
    as (P & post & -> & HP).
  assert (HL : noneOf "}" L = true).
  { subst L. apply noneOf_join; [reflexivity |].
    apply Forall_forall. intros x Hx. apply in_map_iff in Hx.
    destruct Hx as ([k v] & <- & Hin). destruct (Hbraces k v Hin) as (Hk & Hv).
    cbn [fst snd]. unfold quoted. rewrite !noneOf_app, Hk, Hv. reflexivity. }
  destruct (tagsBlockMatch_after P L post HP HL) as (block & Hblock & Hgroup).
  apply (plain_required_tags_found compile compile_key _ config block Hplain Hblock).
  intros tag Htag. rewrite Hgroup.
  destruct (Hkeys tag Htag) as (k & v & Hin & Hk).
  apply (key_on_tag_line k v tag L Hk).
  apply line_of_join.
  apply (in_map (fun kv => "    " ++ fst kv ++ " = " ++ quoted (snd kv)) _ (k, v)).
  exact Hin.
Qed.

End TagsRoundTrip.

(** X19 at the policy and the bucket request of the examples. *)
Lemma generated_resource_passes_the_tag_check_witness :
  validateRequiredTags Examples.engine
    (Generator.generateResource Examples.bucketRequest Examples.policy) Examples.policy []
  = Returned []
  /\ forall fuel filePath r,
       validateSnippet Examples.engine fuel
         (Generator.generateResource Examples.bucketRequest Examples.policy)
         Examples.policy filePath
       = Returned r ->
       filter (has_rule "required_tag_missing") (violations r) = [].
Proof.
  apply (generated_resource_passes_the_tag_check Examples.engine (fun tag _ => eq_refl)
           Examples.bucketRequest Examples.policy).
  - vm_compute. discriminate.
  - intros H. apply includes_contains in H. vm_compute in H. discriminate H.
  - intros H. apply includes_contains in H. vm_compute in H. discriminate H.
  - intros H. vm_compute in H. discriminate H.
  - intros k v H. vm_compute in H.
    destruct H as [H | [H | []]]; inversion H; split; reflexivity.
  - repeat constructor.
  - intros tag [<- | [<- | []]].
    + exists "environment", "prod". split; [left; reflexivity | reflexivity].
    + exists "owner", "infra-team". split; [right; left; reflexivity | reflexivity].
Defined.

(** * Name assignments *)

(** ** Patterns that tell upper case from lower case *)

Section CaseSensitive.
Import RegExpEngine JSRegExp.
Variable fl : flags.
Hypothesis fl_cs : ignoreCase fl = false.






End CaseSensitive.

(** ** What the pattern of a name assignment finds *)

Section NameAssignments.
Import RegExpEngine JSRegExp.

Lemma space_class_none c :
  class_match Patterns.flag_none false [CSpace] c = is_space (nat_of_ascii c).
Proof. unfold class_match. simpl. rewrite orb_false_r. reflexivity. Qed.





Lemma rmatch_plus a fl pos rest cs k :
  rmatch fl (RPlus a) pos rest cs k
  = rmatch fl a pos rest (clear (groups a) cs)
      (fun pos' rest' cs' =>
         repeat (fun p s c k' => rmatch fl a p s (clear (groups a) c) k') k
           (S (String.length rest')) pos' rest' cs').
Proof. reflexivity. Qed.










(** ** Counting the placeholders of a format *)










(** ** What the naming check reports *)








End NameAssignments.

